(** * Statement field extraction: a shallow embedding of the bank
      statement parsers and the properties of their field extraction.

    The development follows the Python sources:
    - [extract_all_statements_final_Version2.py] (modules [WFAParser],
      [BOKFinancialParser], [CombinedStatementParser]);
    - [extract_bok_statements.py] (module [BOK]: the beneficiary-aware
      filename parser; module [BOKStatementParser]: its batch);
    - [extract_bank_statements_final.py] (module [Final]: the value
      extractor and the total of the single-institution script; module
      [BankStatementParser]: its page locators);
    - [extract_all_statements.py] (module [Legacy]: the first classifier;
      module [LegacyBOK]: its page locator).

    Modelling conventions.
    - A Python [str] is a [list ascii]; a character is one of the code points
      0..255.  The character classes ([\s], [\d], [\w], case folding) are the
      ones Python's [re] and [str] methods use on that range.
    - A Python [float] obtained from a decimal numeral is idealised as the
      rational number the numeral denotes ([Q]); the comparisons the code
      makes are against integers, which this idealisation preserves.
      A sum of floats is idealised as the exact sum: the rounding of the
      additions and the order in which pandas performs them are not
      modelled, and nothing is stated that depends on them.  The one
      float that is not a number and that these programs can produce,
      [inf], is kept apart: see [is_inf].
    - [None] is [None]; an uncaught Python exception is [Raise].
    - A document, as the text source delivers it, is either unreadable
      ([None]: opening or parsing it raises) or a list of pages, each with
      an optional text. *)

From Stdlib Require Import Ascii String.
From Stdlib Require Import List Bool Arith Lia ZArith QArith Permutation.
Import ListNotations.

Set Implicit Arguments.
Local Close Scope Q_scope.
Local Close Scope Z_scope.
Local Open Scope nat_scope.
Local Open Scope list_scope.
Local Open Scope bool_scope.

(** ** Characters and strings *)

Definition text := list ascii.

(** String literals are written [txt "..."]. *)
Definition txt (s : string) : text := list_ascii_of_string s.
Arguments txt s%_string.

Definition code (c : ascii) : nat := nat_of_ascii c.

Definition between (lo hi n : nat) : bool := (lo <=? n) && (n <=? hi).

(** [\d] and [str.isdigit] on the range: the ten ASCII digits. *)
Definition is_digit (c : ascii) : bool := between 48 57 (code c).

(** [str.isspace] and [\s]: TAB..CR, FS..US, space, NEL and NBSP. *)
Definition is_space (c : ascii) : bool :=
  let n := code c in
  between 9 13 n || between 28 32 n || (n =? 133) || (n =? 160).

Definition is_upper (c : ascii) : bool := between 65 90 (code c).
Definition is_lower (c : ascii) : bool := between 97 122 (code c).
Definition is_letter (c : ascii) : bool := is_upper c || is_lower c.

(** [\w]: alphanumeric characters and the underscore.  On the range, the
    alphanumerics are the ASCII ones, the Latin-1 letters and the
    characters with a numeric value (superscripts and fractions). *)
Definition is_word (c : ascii) : bool :=
  let n := code c in
  is_digit c || is_letter c || (n =? 95)
  || (n =? 170) || (n =? 178) || (n =? 179) || (n =? 181) || (n =? 185)
  || (n =? 186) || between 188 190 n
  || between 192 214 n || between 216 246 n || between 248 255 n.

(** Case mapping of the ASCII letters.  The sources apply [upper] only to
    words made of ASCII letters, and fold case only against ASCII
    patterns; other characters are left unchanged. *)
Definition to_lower (c : ascii) : ascii :=
  if is_upper c then ascii_of_nat (code c + 32) else c.
Definition to_upper (c : ascii) : ascii :=
  if is_lower c then ascii_of_nat (code c - 32) else c.

Definition upper (s : text) : text := map to_upper s.
Definition lower (s : text) : text := map to_lower s.

Definition ascii_eqb (a b : ascii) : bool := Ascii.eqb a b.

Fixpoint text_eqb (a b : text) : bool :=
  match a, b with
  | [], [] => true
  | x :: a', y :: b' => ascii_eqb x y && text_eqb a' b'
  | _, _ => false
  end.

(** [s.startswith(p)]. *)
Fixpoint starts_with (p s : text) : bool :=
  match p, s with
  | [], _ => true
  | x :: p', y :: s' => ascii_eqb x y && starts_with p' s'
  | _ :: _, [] => false
  end.

(** [sub in s]. *)
Fixpoint contains (sub s : text) : bool :=
  starts_with sub s ||
  match s with
  | [] => false
  | _ :: s' => contains sub s'
  end.

(** [s.replace(old, '')] for a non-empty [old]: occurrences are removed
    left to right and the remainder is not rescanned.  [skip] counts the
    characters of the occurrence being removed that are still ahead. *)
Fixpoint remove_from (old : text) (skip : nat) (s : text) : text :=
  match s with
  | [] => []
  | c :: s' =>
      match skip with
      | S k => remove_from old k s'
      | O => if starts_with old s
             then remove_from old (length old - 1) s'
             else c :: remove_from old 0 s'
      end
  end.

Definition remove_all (old s : text) : text := remove_from old 0 s.

(** [s.rsplit(sep, 1)] for a non-empty [sep] that occurs in [s]: the parts before and
    after the last occurrence; [None] when [sep] does not occur (Python
    then returns the one-element list). *)
Fixpoint rsplit1 (sep s : text) : option (text * text) :=
  match s with
  | [] => None
  | c :: s' =>
      match rsplit1 sep s' with
      | Some (a, b) => Some (c :: a, b)
      | None => if starts_with sep s
                then Some ([], skipn (length sep) s)
                else None
      end
  end.

Fixpoint lstrip (s : text) : text :=
  match s with
  | c :: s' => if is_space c then lstrip s' else s
  | [] => []
  end.

Definition rstrip (s : text) : text := rev (lstrip (rev s)).

(** [s.strip()]. *)
Definition strip (s : text) : text := rstrip (lstrip s).

(** [s.split()]: the maximal runs of non-space characters.  [cur] is the
    run being read, reversed. *)
Fixpoint split_from (cur : text) (s : text) : list text :=
  match s with
  | [] => match cur with [] => [] | _ => [rev cur] end
  | c :: s' =>
      if is_space c
      then match cur with
           | [] => split_from [] s'
           | _ => rev cur :: split_from [] s'
           end
      else split_from (c :: cur) s'
  end.

Definition split (s : text) : list text := split_from [] s.

(** Python truthiness of an optional string: [None] and [''] are false. *)
Definition truthy (o : option text) : bool :=
  match o with
  | Some (_ :: _) => true
  | _ => false
  end.

(** ** Regular expressions

    The fragment of Python's [re] syntax the sources use, matched the way
    [re] does it: by backtracking, alternatives left to right, repetitions
    greedy.  There is a single capturing group in every pattern of the
    sources, so a match state records one optional capture. *)

Inductive cclass : Type :=
| CChar (c : ascii)          (* a literal character *)
| CDigit                     (* \d *)
| CSpace                     (* \s *)
| CRange (lo hi : ascii)     (* lo-hi inside a set *)
| CUnion (a b : cclass).     (* a set [...] of several items *)

Inductive re : Type :=
| Eps
| Cls (k : cclass)           (* one character of the class *)
| Seq (a b : re)
| Alt (a b : re)             (* a|b *)
| Star (k : cclass)          (* k*, greedy *)
| Grp (a : re)               (* (a), the capturing group *)
| NotBehind (s : text)       (* (?<!s) *)
| WordB                      (* \b *)
| Bol                        (* ^ *)
| Eol.                       (* $ *)

Definition Plus (k : cclass) : re := Seq (Cls k) (Star k).
Definition Opt (a : re) : re := Alt a Eps.

(** A literal string, character by character. *)
Fixpoint Lit (s : text) : re :=
  match s with
  | [] => Eps
  | c :: s' => Seq (Cls (CChar c)) (Lit s')
  end.

(** The concatenation of a list of pieces. *)
Fixpoint Cat (rs : list re) : re :=
  match rs with
  | [] => Eps
  | [r] => r
  | r :: rs' => Seq r (Cat rs')
  end.

(** Membership in a class; [ic] is the IGNORECASE flag. *)
Fixpoint in_class (ic : bool) (k : cclass) (x : ascii) : bool :=
  match k with
  | CChar c => if ic then ascii_eqb (to_lower c) (to_lower x)
               else ascii_eqb c x
  | CDigit => is_digit x
  | CSpace => is_space x
  | CRange lo hi =>
      let inr y := between (code lo) (code hi) (code y) in
      if ic then inr x || inr (to_lower x) || inr (to_upper x) else inr x
  | CUnion a b => in_class ic a x || in_class ic b x
  end.

(** A match state: the text already passed, reversed (it includes what
    precedes the start of the match: look-behind and [\b] read it), the
    text ahead, and the capture. *)
Record mstate : Type := MState {
  before : text;
  ahead : text;
  group1 : option text
}.

Definition at_boundary (bef aft : text) : bool :=
  let l := match bef with c :: _ => is_word c | [] => false end in
  let r := match aft with c :: _ => is_word c | [] => false end in
  xorb l r.

(** [s] ends what was passed: [bef] is reversed, so its first characters
    are compared with [s] read backwards. *)
Definition behind (ic : bool) (s bef : text) : bool :=
  let n := List.length s in
  let w := rev (firstn n bef) in
  if ic then text_eqb (lower s) (lower w) else text_eqb s w.

Section Matcher.
Variable A : Type.
Variable ic : bool.

(** Greedy repetition of a class: take one more character first, give
    it back if the continuation fails. *)
Fixpoint star (k : cclass) (bef rst : text) (cap : option text)
         (cont : mstate -> option A) : option A :=
  match rst with
  | c :: rst' =>
      if in_class ic k c
      then match star k (c :: bef) rst' cap cont with
           | Some x => Some x
           | None => cont (MState bef rst cap)
           end
      else cont (MState bef rst cap)
  | [] => cont (MState bef rst cap)
  end.

Fixpoint rmatch (r : re) (st : mstate) (cont : mstate -> option A)
  : option A :=
  match r with
  | Eps => cont st
  | Cls k =>
      match ahead st with
      | c :: rst' =>
          if in_class ic k c
          then cont (MState (c :: before st) rst' (group1 st))
          else None
      | [] => None
      end
  | Seq a b => rmatch a st (fun st' => rmatch b st' cont)
  | Alt a b =>
      match rmatch a st cont with
      | Some x => Some x
      | None => rmatch b st cont
      end
  | Star k => star k (before st) (ahead st) (group1 st) cont
  | Grp a =>
      rmatch a st (fun st' =>
        let n := List.length (before st') - List.length (before st) in
        cont (MState (before st') (ahead st')
                     (Some (rev (firstn n (before st'))))))
  | NotBehind s =>
      if behind ic s (before st) then None else cont st
  | WordB =>
      if at_boundary (before st) (ahead st) then cont st else None
  | Bol =>
      match before st with [] => cont st | _ :: _ => None end
  | Eol =>
      match ahead st with
      | [] => cont st
      | [c] => if ascii_eqb c "010" then cont st else None
      | _ => None
      end
  end.
End Matcher.

(** [re.match]: a match that starts at the beginning of the text. *)
Definition re_match (ic : bool) (r : re) (s : text) : option mstate :=
  rmatch ic r (MState [] s None) (fun st => Some st).

(** [re.search]: the match at the leftmost position that has one. *)
Fixpoint search_from (ic : bool) (r : re) (bef rst : text)
  : option mstate :=
  match rmatch ic r (MState bef rst None) (fun st => Some st) with
  | Some st => Some st
  | None =>
      match rst with
      | c :: rst' => search_from ic r (c :: bef) rst'
      | [] => None
      end
  end.

Definition re_search (ic : bool) (r : re) (s : text) : option mstate :=
  search_from ic r [] s.

(** [m.group(1)] of an optional match object whose pattern has a group
    that always takes part in the match. *)
Definition group (m : option mstate) : option text :=
  match m with
  | Some st => group1 st
  | None => None
  end.

Definition is_some {X : Type} (o : option X) : bool :=
  match o with Some _ => true | None => false end.

Definition d : cclass := CDigit.
Definition ws : cclass := CSpace.
Definition ch (c : ascii) : cclass := CChar c.
(** [[\d,]] *)
Definition digit_or_comma : cclass := CUnion CDigit (CChar ",").
(** [[\d,]+\.\d{2}] *)
Definition amount : re :=
  Cat [Plus digit_or_comma; Cls (ch "."); Cls d; Cls d].

(** ** Numbers

    [float(s)] for a plain decimal numeral [s]: an optional sign, digits
    with at most one point, and at least one digit.  The value is the
    rational the numeral denotes.  On any other string the model answers
    [None] (Python's [float] accepts further notations, such as exponents;
    the extractors only convert captures of [amount], which are plain
    numerals, see [amount_float]). *)

Definition digit_val (c : ascii) : Z := Z.of_nat (code c - 48).

Fixpoint numeral (s : text) (acc : Z) (den : positive) (dot : bool)
         (nd : nat) : option Q :=
  match s with
  | [] => if nd =? 0 then None else Some (Qmake acc den)
  | c :: s' =>
      if is_digit c
      then numeral s' (10 * acc + digit_val c)%Z
                   (if dot then (10 * den)%positive else den) dot (S nd)
      else if ascii_eqb c "." && negb dot
           then numeral s' acc den true nd
           else None
  end.

Definition py_float (s : text) : option Q :=
  match s with
  | c :: s' =>
      if ascii_eqb c "-" then option_map Qopp (numeral s' 0%Z 1%positive false 0)
      else if ascii_eqb c "+" then numeral s' 0%Z 1%positive false 0
      else numeral s 0%Z 1%positive false 0
  | [] => None
  end.

(** The idealisation stops at the largest float.  [float] rounds to
    the nearest float, ties to even, so a numeral at or above
    [2^1024 - 2^970] converts to [inf].  A sum is [inf] as soon as one
    of its terms is (the values of these programs are never negative,
    so no [nan] arises); the model takes the exact sum and applies the
    same bound to it. *)
Definition float_overflow : Q := inject_Z (2 ^ 1024 - 2 ^ 970).

Definition is_inf (value : Q) : bool := Qle_bool float_overflow value.

(** ** Exceptions, documents, result records *)

(** [IndexError]: the first element of an empty list is asked for.
    [TypeError]: xlsxwriter is asked to write [inf] as a number. *)
Inductive exn : Type := IndexError | TypeError.

Inductive result (X : Type) : Type :=
| Ok (x : X)
| Raise (e : exn).
Arguments Ok {X} x.
Arguments Raise {X} e.

Definition bind {X Y : Type} (r : result X) (f : X -> result Y) : result Y :=
  match r with
  | Ok x => f x
  | Raise e => Raise e
  end.

Notation "x <- r ;; k" := (bind r (fun x => k))
  (at level 61, r at next level, right associativity).

(** What [page.extract_text()] gives for a page: a text, or nothing. *)
Definition page := option text.

(** What [PyPDF2.PdfReader] gives for a file: its pages, or an exception
    ([None]) when the file cannot be opened or parsed. *)
Definition document := option (list page).

Record pdf : Type := Pdf { name : text; contents : document }.

Inductive institution : Type := WellsFargoAdvisors | BOKFinancial.

(** The two values of the ['Status'] entry: the check mark and the
    warning sign. *)
Inductive status : Type := Complete | NeedsReview.

Record FieldExtractionResult : Type := Result {
  Filename : text;
  Beneficiary : option text;
  Account_Number : option text;
  Closing_Value : option Q;
  Institution : institution;
  Status : status
}.

(** ['✓' if (account_number and closing_value is not None) else '⚠']. *)
Definition status_of (account_number : option text)
           (closing_value : option Q) : status :=
  if truthy account_number && is_some closing_value
  then Complete else NeedsReview.

(** [for page in pdf_reader.pages: ... return text]: the first page whose
    text is non-empty and passes [test]; a failure to read the document
    is caught and gives [None]. *)
Fixpoint first_page (test : text -> bool) (pages : list page)
  : option text :=
  match pages with
  | [] => None
  | Some (c :: t) :: rest =>
      if test (c :: t) then Some (c :: t) else first_page test rest
  | _ :: rest => first_page test rest
  end.

(** The loop over the value patterns: the first pattern that matches,
    whose capture converts and whose value passes the check gives the
    result; every exception inside the [try] is swallowed. *)
Fixpoint first_value (valid : Q -> bool) (patterns : list re) (t : text)
  : option Q :=
  match patterns with
  | [] => None
  | p :: rest =>
      match re_search true p t with
      | Some m =>
          match group1 m with
          | Some g =>
              match py_float (remove_all (txt ",") g) with
              | Some value =>
                  if valid value then Some value
                  else first_value valid rest t
              | None => first_value valid rest t
              end
          | None => first_value valid rest t
          end
      | None => first_value valid rest t
      end
  end.

Definition Qleb (a b : Q) : bool := Qle_bool a b.
Definition Qltb (a b : Q) : bool := negb (Qle_bool b a).

(** [[-\.]] *)
Definition dash_or_dot : cclass := CUnion (ch "-") (ch ".").

(** [(\d+[-\.]\d+(?:\.\d+)?)] *)
Definition general_account : re :=
  Grp (Cat [Plus d; Cls dash_or_dot; Plus d;
            Opt (Seq (Cls (ch ".")) (Plus d))]).

(** [(\d+[-]\d+\.\d+)] *)
Definition bok_account : re :=
  Grp (Cat [Plus d; Cls (ch "-"); Plus d; Cls (ch "."); Plus d]).

(** [account_part.split()[0]] *)
Definition first_token (s : text) : result text :=
  match split s with
  | w :: _ => Ok w
  | [] => Raise IndexError
  end.

(** ** [extract_all_statements_final_Version2.py] *)

Module WFAParser.

Definition extract_account_number_from_filename (filename : text)
  : result (option text) :=
  let name_part := remove_all (txt ".pdf") filename in
  if contains (txt " - ") name_part then
    match rsplit1 (txt " - ") name_part with
    | Some (_, after) =>
        let account_part := strip after in
        match re_search false general_account account_part with
        | Some m => Ok (group1 m)
        | None => w <- first_token account_part ;; Ok (Some w)
        end
    | None => Ok None
    end
  else Ok None.

(** [Page\s*1\s*of\s*\d+] *)
Definition page_1_of : re :=
  Cat [Lit (txt "Page"); Star ws; Cls (ch "1"); Star ws;
       Lit (txt "of"); Star ws; Plus d].

Definition find_snapshot_page (doc : document) : option text :=
  match doc with
  | Some pages =>
      first_page (fun t => is_some (re_search false page_1_of t)) pages
  | None => None
  end.

Definition patterns : list re :=
  [ Cat [Lit (txt "Closingvalue"); Star ws; Cls (ch "$"); Star ws;
         Grp amount];
    Cat [Lit (txt "Closing"); Star ws; Lit (txt "value"); Star ws;
         Cls (ch "$"); Star ws; Grp amount] ].

Definition extract_closing_value (t : option text) : option Q :=
  match t with
  | Some (c :: s) => first_value (fun value => Qleb 0 value) patterns (c :: s)
  | _ => None
  end.

Definition parse (f : pdf) : result FieldExtractionResult :=
  account_number <- extract_account_number_from_filename (name f) ;;
  let page_text := find_snapshot_page (contents f) in
  let closing_value := extract_closing_value page_text in
  Ok (Result (name f) None account_number closing_value
             WellsFargoAdvisors (status_of account_number closing_value)).

End WFAParser.

Module BOKFinancialParser.

Definition extract_account_number_from_filename (filename : text)
  : result (option text) :=
  let name_part := remove_all (txt ".pdf") filename in
  if contains (txt " - ") name_part then
    match rsplit1 (txt " - ") name_part with
    | Some (_, after) =>
        let account_part := strip after in
        match re_search false bok_account account_part with
        | Some m => Ok (group1 m)
        | None =>
            match re_search false general_account account_part with
            | Some m => Ok (group1 m)
            | None => w <- first_token account_part ;; Ok (Some w)
            end
        end
    | None => Ok None
    end
  else Ok None.

(** [Page\s*2\s*of\s*\d+] *)
Definition page_2_of : re :=
  Cat [Lit (txt "Page"); Star ws; Cls (ch "2"); Star ws;
       Lit (txt "of"); Star ws; Plus d].

(** [re.search(r'Page\s*2\s*of\s*\d+', text) or 'Page2of' in text] *)
Definition is_page_2 (t : text) : bool :=
  is_some (re_search false page_2_of t) || contains (txt "Page2of") t.

(** ['AccountOverview' in text or 'Account Overview' in text] *)
Definition has_account_overview (t : text) : bool :=
  contains (txt "AccountOverview") t || contains (txt "Account Overview") t.

Definition find_account_overview_page (doc : document) : option text :=
  match doc with
  | Some pages =>
      first_page (fun t => if is_page_2 t then has_account_overview t
                           else false) pages
  | None => None
  end.

Definition patterns : list re :=
  [ Cat [Lit (txt "AccruedIncome"); Plus ws; amount; Plus ws;
         Lit (txt "Total"); Plus ws; Grp amount];
    Cat [NotBehind (txt "Principal"); NotBehind (txt "Income");
         NotBehind (txt "Gain"); NotBehind (txt "Loss");
         Lit (txt "Total"); Plus ws; Grp amount] ].

Definition ceiling : Q := 10000000000.

(** [0 < value < 10000000000] *)
Definition sane (value : Q) : bool := Qltb 0 value && Qltb value ceiling.

Definition extract_total_value (t : option text) : option Q :=
  match t with
  | Some (c :: s) => first_value sane patterns (c :: s)
  | _ => None
  end.

Definition parse (f : pdf) : result FieldExtractionResult :=
  account_number <- extract_account_number_from_filename (name f) ;;
  let page_text := find_account_overview_page (contents f) in
  let total_value := extract_total_value page_text in
  Ok (Result (name f) None account_number total_value
             BOKFinancial (status_of account_number total_value)).

End BOKFinancialParser.

(** [df['Closing Value'].sum()]: pandas skips the missing entries of the
    column and adds the others, starting from zero.  The sum is the
    exact one: float addition rounds, and is neither associative nor
    independent of the order of the rows, so what is proved of a sum
    below never regroups or reorders its terms. *)
Fixpoint column_sum (col : list (option Q)) : Q :=
  match col with
  | [] => 0%Q
  | Some v :: rest => (v + column_sum rest)%Q
  | None :: rest => column_sum rest
  end.

(** [len(df[df['Status'] == '✓'])] *)
Definition count_complete (rs : list FieldExtractionResult) : nat :=
  List.length (filter (fun r => match Status r with
                                | Complete => true
                                | NeedsReview => false
                                end) rs).

Definition of_institution (i : institution) (r : FieldExtractionResult)
  : bool :=
  match i, Institution r with
  | WellsFargoAdvisors, WellsFargoAdvisors => true
  | BOKFinancial, BOKFinancial => true
  | _, _ => false
  end.

Record AggregateReport : Type := Report {
  wfa_total : Q;
  bok_total : Q;
  total_value : Q;
  success_count : nat;
  processed : nat
}.

Module CombinedStatementParser.

(** [text and ('BOKFINANCIAL' in text or 'BOK FINANCIAL' in text or
    'BOKF' in text)] *)
Definition has_bok_identifier (p : page) : bool :=
  match p with
  | Some (c :: t) =>
      contains (txt "BOKFINANCIAL") (c :: t)
      || contains (txt "BOK FINANCIAL") (c :: t)
      || contains (txt "BOKF") (c :: t)
  | _ => false
  end.

(** [[0, 2, 3] if len(pdf_reader.pages) > 3 else
    range(len(pdf_reader.pages))] *)
Definition pages_to_check (pages : list page) : list nat :=
  if 3 <? List.length pages then [0; 2; 3]
  else seq 0 (List.length pages).

(** The loop over [pages_to_check]. *)
Fixpoint check_pages (pages : list page) (nums : list nat) : bool :=
  match nums with
  | [] => false
  | page_num :: rest =>
      if page_num <? List.length pages
      then if has_bok_identifier (nth page_num pages None) then true
           else check_pages pages rest
      else check_pages pages rest
  end.

Definition is_bok_financial (doc : document) : bool :=
  match doc with
  | Some pages => check_pages pages (pages_to_check pages)
  | None => false
  end.

(** The parser objects, by the institution they stand for. *)
Definition select_parser (f : pdf) : institution :=
  if is_bok_financial (contents f) then BOKFinancial
  else WellsFargoAdvisors.

Definition parse (parser : institution) (f : pdf)
  : result FieldExtractionResult :=
  match parser with
  | WellsFargoAdvisors => WFAParser.parse f
  | BOKFinancial => BOKFinancialParser.parse f
  end.

(** The per-document step of the loop in [process_all_pdfs]. *)
Definition process (f : pdf) : result FieldExtractionResult :=
  parse (select_parser f) f.

(** [worksheet.write(row, col, number, format)] of xlsxwriter for a
    float: [inf] is refused with a [TypeError] (the workbook is opened
    without the option that turns it into an error cell). *)
Definition write_number (value : Q) : result unit :=
  if is_inf value then Raise TypeError else Ok tt.

(** [save_to_excel]: nothing is done for an empty batch.  Otherwise the
    totals and the counts are computed, the rows are written (an [inf]
    cell is written as a text by pandas) and the grand total is written
    as a number, which raises when it is [inf]; the summary is printed
    after that. *)
Definition save_to_excel (results : list FieldExtractionResult)
  : result (option AggregateReport) :=
  match results with
  | [] => Ok None
  | _ :: _ =>
      let wfa_df := filter (of_institution WellsFargoAdvisors) results in
      let bok_df := filter (of_institution BOKFinancial) results in
      let wfa_total := column_sum (map Closing_Value wfa_df) in
      let bok_total := column_sum (map Closing_Value bok_df) in
      let total_value := column_sum (map Closing_Value results) in
      bind (write_number total_value)
           (fun _ => Ok (Some (Report wfa_total bok_total total_value
                                      (count_complete results)
                                      (List.length results))))
  end.

(** The loop of [process_all_pdfs] over the listed files: results are
    appended in order; an exception leaves the loop. *)
Fixpoint process_files (files : list pdf)
         (results : list FieldExtractionResult)
  : result (list FieldExtractionResult) :=
  match files with
  | [] => Ok results
  | f :: rest =>
      r <- process f ;;
      process_files rest (results ++ [r])
  end.

(** [process_all_pdfs] on the files of the folder ([None]: the folder
    does not exist): the collected results and the report.  Neither the
    loop nor the call of [save_to_excel] is guarded. *)
Definition process_all_pdfs (folder : option (list pdf))
  : result (list FieldExtractionResult * option AggregateReport) :=
  match folder with
  | None => Ok ([], None)
  | Some [] => Ok ([], None)
  | Some files =>
      results <- process_files files [] ;;
      report <- save_to_excel results ;;
      Ok (results, report)
  end.

End CombinedStatementParser.

(** ** [extract_bok_statements.py] *)

Module BOK.

(** [\b(WH|Warehouse|Whse|Whouse|Warehse)\b] *)
Definition warehouse_pattern : re :=
  Cat [WordB;
       Grp (Alt (Lit (txt "WH"))
           (Alt (Lit (txt "Warehouse"))
           (Alt (Lit (txt "Whse"))
           (Alt (Lit (txt "Whouse")) (Lit (txt "Warehse"))))));
       WordB].

Definition A_Z : re := Cls (CRange "A" "Z").

(** [^[A-Z]{2,4}$] *)
Definition code_pattern : re :=
  Cat [Bol; A_Z; A_Z; Opt (Seq A_Z (Opt A_Z)); Eol].

(** [(\d+[-]\d+(?:\.\d+)?)] *)
Definition wfa_account : re :=
  Grp (Cat [Plus d; Cls (ch "-"); Plus d;
            Opt (Seq (Cls (ch ".")) (Plus d))]).

Definition is_warehouse (word : text) : bool :=
  is_some (re_match true warehouse_pattern word).

Definition is_code (word : text) : bool :=
  is_some (re_match true code_pattern word).

(** The loop [for word in reversed(name_words)], on the reversed
    list. *)
Fixpoint scan_words (words : list text) : option text :=
  match words with
  | [] => None
  | word :: rest =>
      if is_warehouse word then scan_words rest
      else if is_code word then Some (upper word)
      else scan_words rest
  end.

Definition extract_beneficiary_and_account (filename : text)
  : result (option text * option text) :=
  let name_part := remove_all (txt ".pdf") filename in
  if contains (txt " - ") name_part then
    match rsplit1 (txt " - ") name_part with
    | Some (before_sep, after_sep) =>
        let name_section := strip before_sep in
        let account_section := strip after_sep in
        let name_words := split name_section in
        let beneficiary := scan_words (rev name_words) in
        match re_search false bok_account account_section with
        | Some m => Ok (beneficiary, group1 m)
        | None =>
            match re_search false wfa_account account_section with
            | Some m => Ok (beneficiary, group1 m)
            | None =>
                w <- first_token account_section ;;
                Ok (beneficiary, Some w)
            end
        end
    | None => Ok (None, None)
    end
  else Ok (None, None).

(** [Total\s+([\d,]+\.\d{2})] after a word boundary: the second
    pattern of this script. *)
Definition patterns : list re :=
  [ Cat [Lit (txt "AccruedIncome"); Plus ws; amount; Plus ws;
         Lit (txt "Total"); Plus ws; Grp amount];
    Cat [WordB; Lit (txt "Total"); Plus ws; Grp amount] ].

Definition extract_total_value (t : option text) : option Q :=
  match t with
  | Some (c :: s) => first_value BOKFinancialParser.sane patterns (c :: s)
  | _ => None
  end.

Definition parse (f : pdf) : result FieldExtractionResult :=
  ba <- extract_beneficiary_and_account (name f) ;;
  let page_text :=
    BOKFinancialParser.find_account_overview_page (contents f) in
  let total_value := extract_total_value page_text in
  Ok (Result (name f) (fst ba) (snd ba) total_value
             BOKFinancial (status_of (snd ba) total_value)).

End BOK.

(** ** [extract_bank_statements_final.py] *)

Module Final.

(** [re.finditer]: the successive matches, each search resuming where
    the previous match ended.  The patterns of this script start with
    a literal, so a match is never empty and every step consumes text;
    [fuel] bounds the number of matches by the length of the text. *)
Fixpoint finditer_from (fuel : nat) (ic : bool) (r : re)
         (bef rst : text) : list mstate :=
  match fuel with
  | O => []
  | S fuel' =>
      match search_from ic r bef rst with
      | Some m => m :: finditer_from fuel' ic r (before m) (ahead m)
      | None => []
      end
  end.

Definition finditer (ic : bool) (r : re) (s : text) : list mstate :=
  finditer_from (S (List.length s)) ic r [] s.

Definition dollar : re := Cls (ch "$").
Definition colon_or_space : cclass := CUnion (ch ":") CSpace.

(** The seven patterns, in the order of the list; with IGNORECASE the
    fifth and sixth are the first again. *)
Definition patterns : list re :=
  [ Cat [Lit (txt "Closing"); Plus ws; Lit (txt "value"); Plus ws;
         dollar; Star ws; Grp amount];
    Cat [Lit (txt "Closing"); Plus ws; Lit (txt "value"); dollar;
         Star ws; Grp amount];
    Cat [Lit (txt "Closingvalue"); Star ws; dollar; Star ws; Grp amount];
    Cat [Lit (txt "Closing"); Plus ws; Lit (txt "value:"); Star ws;
         Opt dollar; Star ws; Grp amount];
    Cat [Lit (txt "CLOSING"); Plus ws; Lit (txt "VALUE"); Plus ws;
         dollar; Star ws; Grp amount];
    Cat [Lit (txt "Closing"); Plus ws; Lit (txt "Value"); Plus ws;
         dollar; Star ws; Grp amount];
    Cat [Lit (txt "Closing"); Plus ws; Lit (txt "value");
         Plus colon_or_space; Opt dollar; Star ws; Grp amount] ].

(** The inner loop over the matches of one pattern: a capture that
    does not convert is skipped ([except ValueError: continue]).  The
    group takes part in every match of these patterns. *)
Fixpoint first_good (ms : list mstate) : option Q :=
  match ms with
  | [] => None
  | m :: rest =>
      match group1 m with
      | Some g =>
          let value_str := remove_all (txt " ") (remove_all (txt ",") g) in
          match py_float value_str with
          | Some value =>
              if Qleb 0 value then Some value else first_good rest
          | None => first_good rest
          end
      | None => first_good rest
      end
  end.

Fixpoint try_patterns (ps : list re) (t : text) : option Q :=
  match ps with
  | [] => None
  | p :: rest =>
      match first_good (finditer true p t) with
      | Some value => Some value
      | None => try_patterns rest t
      end
  end.

Definition extract_closing_value (t : option text) : option Q :=
  match t with
  | Some (c :: s) => try_patterns patterns (c :: s)
  | _ => None
  end.

(** [df[df['Closing Value'].notna()]['Closing Value'].sum()] *)
Definition total_value (results : list FieldExtractionResult) : Q :=
  column_sum
    (map Closing_Value
         (filter (fun r => is_some (Closing_Value r)) results)).

End Final.

(** ** [extract_all_statements.py]: the first classifier *)

Module Legacy.

(** [can_parse]: the text of the first page is searched; an absent
    text makes [in] raise, which the bare [except] turns into
    [False], as it does for an unreadable file. *)
Definition can_parse (signatures : list text) (doc : document) : bool :=
  match doc with
  | Some (Some t :: _) => existsb (fun sig => contains sig t) signatures
  | _ => false
  end.

Definition bok_can_parse : document -> bool :=
  can_parse [txt "BOK FINANCIAL"; txt "BOK Financial"].

Definition wfa_can_parse : document -> bool :=
  can_parse [txt "CONTINUITY GROUP"; txt "Wells Fargo Advisors"].

Definition select_parser (f : pdf) : institution :=
  if bok_can_parse (contents f) then BOKFinancial
  else if wfa_can_parse (contents f) then WellsFargoAdvisors
  else WellsFargoAdvisors.

End Legacy.

(** ** What a pattern denotes

    [Matches ic r bef s aft c c']: the pattern [r] matches the piece [s]
    of a text, where [bef] is the text before the piece (reversed) and
    [aft] the text after it; the capture goes from [c] to [c']. *)

Inductive Matches (ic : bool)
  : re -> text -> text -> text -> option text -> option text -> Prop :=
| M_Eps : forall bef aft c, Matches ic Eps bef [] aft c c
| M_Cls : forall k x bef aft c,
    in_class ic k x = true -> Matches ic (Cls k) bef [x] aft c c
| M_Seq : forall a b bef s1 s2 aft c c1 c2,
    Matches ic a bef s1 (s2 ++ aft) c c1 ->
    Matches ic b (rev s1 ++ bef) s2 aft c1 c2 ->
    Matches ic (Seq a b) bef (s1 ++ s2) aft c c2
| M_AltL : forall a b bef s aft c c1,
    Matches ic a bef s aft c c1 -> Matches ic (Alt a b) bef s aft c c1
| M_AltR : forall a b bef s aft c c1,
    Matches ic b bef s aft c c1 -> Matches ic (Alt a b) bef s aft c c1
| M_Star : forall k s bef aft c,
    forallb (in_class ic k) s = true -> Matches ic (Star k) bef s aft c c
| M_Grp : forall a bef s aft c c1,
    Matches ic a bef s aft c c1 -> Matches ic (Grp a) bef s aft c (Some s)
| M_NotBehind : forall s bef aft c,
    behind ic s bef = false -> Matches ic (NotBehind s) bef [] aft c c
| M_WordB : forall bef aft c,
    at_boundary bef aft = true -> Matches ic WordB bef [] aft c c
| M_Bol : forall aft c, Matches ic Bol [] [] aft c c
| M_Eol : forall bef aft c,
    aft = [] \/ aft = ["010"%char] -> Matches ic Eol bef [] aft c c.

(** [sub] occurs in [t]. *)
Definition occurs (sub t : text) : Prop :=
  exists pre post, t = pre ++ sub ++ post.

(** The text carries the page label "Page 2 of N": the three words and
    a page count, in this order, separated by any amount of white space,
    none included. *)
Definition page_2_of_N (t : text) : Prop :=
  exists pre w1 w2 w3 n post,
    t = pre ++ txt "Page" ++ w1 ++ txt "2" ++ w2 ++ txt "of" ++ w3
            ++ n ++ post
    /\ forallb is_space w1 = true /\ forallb is_space w2 = true
    /\ forallb is_space w3 = true
    /\ n <> [] /\ forallb is_digit n = true.

(** The "Account Overview" marker, with its space or without. *)
Definition account_overview_marker (t : text) : Prop :=
  occurs (txt "AccountOverview") t \/ occurs (txt "Account Overview") t.

(** A BOK signature on a page. *)
Definition bok_signature (p : page) : Prop :=
  exists t, p = Some t /\
    (occurs (txt "BOKFINANCIAL") t \/ occurs (txt "BOK FINANCIAL") t
     \/ occurs (txt "BOKF") t).




(** The five spellings of the warehouse marker. *)
Definition warehouse_markers : list text :=
  [txt "wh"; txt "warehouse"; txt "whse"; txt "whouse"; txt "warehse"].

(** The status rule as a truth table on the presence of the two fields. *)
Definition status_rule (account_present value_present : bool) : status :=
  match account_present, value_present with
  | true, true => Complete
  | true, false => NeedsReview
  | false, true => NeedsReview
  | false, false => NeedsReview
  end.

(** ** Notions used in the statements *)

(** The signature the first classifier looks for on the first page. *)
Definition legacy_bok_signature (t : text) : Prop :=
  occurs (txt "BOK FINANCIAL") t \/ occurs (txt "BOK Financial") t.

(** The first page of the document has a text with that signature. *)
Definition legacy_bok_document (doc : document) : Prop :=
  exists t rest, doc = Some (Some t :: rest) /\ legacy_bok_signature t.

(** A family of page texts with ever larger amounts: a one followed by
    [n] zeros. *)
Definition zeros (n : nat) : text := repeat "0"%char n.

Definition big_amount (n : nat) : text := "1"%char :: zeros n ++ txt ".00".

Definition big_page (n : nat) : text := txt "Closingvalue$" ++ big_amount n.

(** A page that the BOK locator accepts: its text carries the label
    "Page 2 of N" or the run-together token "Page2of", and the "Account
    Overview" marker. *)
Definition overview_page (p : page) : Prop :=
  exists t, p = Some t
            /\ (page_2_of_N t \/ occurs (txt "Page2of") t)
            /\ account_overview_marker t.

Definition overview_test (t : text) : bool :=
  if BOKFinancialParser.is_page_2 t
  then BOKFinancialParser.has_account_overview t else false.

Definition collapsed_label : text := txt "Closingvalue$45,156.04$45,156.04".

(** A non-empty run of digits. *)
Definition digits (s : text) : Prop := s <> [] /\ forallb is_digit s = true.

(** Digits, a dash, digits, a point, digits. *)
Definition dash_dot_number (s : text) : Prop :=
  exists d1 d2 d3,
    s = d1 ++ txt "-" ++ d2 ++ txt "." ++ d3
    /\ digits d1 /\ digits d2 /\ digits d3.

(** Digits, a dash, digits, and possibly a point and digits. *)
Definition dash_number (s : text) : Prop :=
  exists d1 d2 sfx,
    s = d1 ++ txt "-" ++ d2 ++ sfx
    /\ digits d1 /\ digits d2
    /\ (sfx = [] \/ exists d3, sfx = txt "." ++ d3 /\ digits d3).

(** Some piece of [t] satisfies [P]. *)
Definition has_piece (P : text -> Prop) (t : text) : Prop :=
  exists pre s post, t = pre ++ s ++ post /\ P s.

(** The word is one of the warehouse markers, in any mix of cases. *)
Definition is_marker (w : text) : bool :=
  existsb (fun m => text_eqb m (lower w)) warehouse_markers.

(** The word is made of two to four letters. *)
Definition is_short_alpha (w : text) : bool :=
  (2 <=? List.length w) && (List.length w <=? 4) && forallb is_letter w.

(** The beneficiary, in the words of the rule: the last word of the
    name section that is made of two to four letters and is not a
    warehouse marker, in capitals. *)
Definition beneficiary_in_words (name_section : text) : option text :=
  option_map upper
    (find (fun w => negb (is_marker w) && is_short_alpha w)
          (rev (split name_section))).

Definition no_space (w : text) : Prop :=
  forallb (fun c => negb (is_space c)) w = true.

(** ** Further parts of the scripts *)

(** [pd.isna] of a cell. *)
Definition is_none {X : Type} (o : option X) : bool := negb (is_some o).

(** The reasons printed for a statement that needs review. *)
Inductive issue : Type := NoAccount | NoClosingValue.

Definition is_needs_review (r : FieldExtractionResult) : bool :=
  match Status r with
  | Complete => false
  | NeedsReview => true
  end.

(** The end of [CombinedStatementParser.save_to_excel]: the counts by
    institution and the list of the statements to review, with their
    reasons.  The script sorts the rows by file name first; the order
    of the rows is not modelled, and what is proved of these lists
    speaks of membership, counts and sums only. *)
Module CombinedSummary.

Definition wfa_count (results : list FieldExtractionResult) : nat :=
  List.length (filter (of_institution WellsFargoAdvisors) results).

Definition bok_count (results : list FieldExtractionResult) : nat :=
  List.length (filter (of_institution BOKFinancial) results).

Definition wfa_success (results : list FieldExtractionResult) : nat :=
  count_complete (filter (of_institution WellsFargoAdvisors) results).

Definition bok_success (results : list FieldExtractionResult) : nat :=
  count_complete (filter (of_institution BOKFinancial) results).

(** [needs_review = df[df['Status'] != '✓']] *)
Definition needs_review (results : list FieldExtractionResult)
  : list FieldExtractionResult :=
  filter is_needs_review results.

(** The list [issues] built for a row. *)
Definition issues (row : FieldExtractionResult) : list issue :=
  (if is_none (Account_Number row) then [NoAccount] else [])
  ++ (if is_none (Closing_Value row) then [NoClosingValue] else []).

End CombinedSummary.

(** [extract_bok_statements.py]: the batch of the BOK-only script. *)
Module BOKStatementParser.

(** The method has the same text as in the combined script. *)
Definition is_bok_financial (doc : document) : bool :=
  CombinedStatementParser.is_bok_financial doc.

(** [bok_files = [f for f in pdf_files if self.is_bok_financial(f)]] *)
Definition bok_files (pdf_files : list pdf) : list pdf :=
  filter (fun f => is_bok_financial (contents f)) pdf_files.

Fixpoint process_files (files : list pdf)
         (results : list FieldExtractionResult)
  : result (list FieldExtractionResult) :=
  match files with
  | [] => Ok results
  | f :: rest =>
      r <- BOK.parse f ;;
      process_files rest (results ++ [r])
  end.

(** [save_to_excel]: the total and the number of complete records;
    nothing for an empty collection.  The values of this script are
    below 10,000,000,000, so the total that is written is a number:
    the write is not an error path here. *)
Definition save_to_excel (results : list FieldExtractionResult)
  : option (Q * nat) :=
  match results with
  | [] => None
  | _ :: _ =>
      Some (column_sum (map Closing_Value results), count_complete results)
  end.

Definition process_all_pdfs (folder : option (list pdf))
  : result (list FieldExtractionResult * option (Q * nat)) :=
  match folder with
  | None => Ok ([], None)
  | Some [] => Ok ([], None)
  | Some pdf_files =>
      results <- process_files (bok_files pdf_files) [] ;;
      Ok (results, save_to_excel results)
  end.

End BOKStatementParser.

(** [extract_bank_statements_final.py]: locating the page with either
    text library.  The two libraries read the same file but may give
    different texts, so each locator has its own document. *)
Module BankStatementParser.

(** [Page\s+1\s+of\s+\d+] *)
Definition page_1_of_spaced : re :=
  Cat [Lit (txt "Page"); Plus ws; Cls (ch "1"); Plus ws;
       Lit (txt "of"); Plus ws; Plus d].

Definition pdfplumber_test (t : text) : bool :=
  if is_some (re_search false page_1_of_spaced t) then true
  else contains (txt "SNAPSHOT") t && contains (txt "Closing") t.

Definition find_snapshot_page_pdfplumber (doc : document) : option text :=
  match doc with
  | Some pages => first_page pdfplumber_test pages
  | None => None
  end.

Definition pypdf2_test (t : text) : bool :=
  if is_some (re_search false WFAParser.page_1_of t) then true
  else contains (txt "SNAPSHOT") t || contains (txt "Closing") t.

Definition find_snapshot_page_pypdf2 (doc : document) : option text :=
  match doc with
  | Some pages => first_page pypdf2_test pages
  | None => None
  end.

(** [extract_page_text], with the two import flags. *)
Definition extract_page_text (HAS_PDFPLUMBER HAS_PYPDF2 : bool)
           (plumber pypdf2 : document) : option text :=
  if HAS_PDFPLUMBER then
    let text := find_snapshot_page_pdfplumber plumber in
    if truthy text then text
    else if HAS_PYPDF2 then find_snapshot_page_pypdf2 pypdf2 else text
  else if HAS_PYPDF2 then find_snapshot_page_pypdf2 pypdf2 else None.

End BankStatementParser.

(** [extract_all_statements.py]: the page locator of its BOK parser. *)
Module LegacyBOK.

Definition find_page_2 (doc : document) : option text :=
  match doc with
  | Some pages =>
      first_page (fun t => is_some (re_search false
                                      BOKFinancialParser.page_2_of t)) pages
  | None => None
  end.

End LegacyBOK.

(** ** Further notions used in the statements *)

(** Nothing but white space. *)
Definition blank (s : text) : Prop := forallb is_space s = true.

(** The label "Page 1 of N". *)
Definition page_1_of_N (t : text) : Prop :=
  exists pre w1 w2 w3 n post,
    t = pre ++ txt "Page" ++ w1 ++ txt "1" ++ w2 ++ txt "of" ++ w3
            ++ n ++ post
    /\ forallb is_space w1 = true /\ forallb is_space w2 = true
    /\ forallb is_space w3 = true
    /\ n <> [] /\ forallb is_digit n = true.

(** Digits, a dash or a point, digits, and possibly a point and
    digits. *)
Definition general_number (s : text) : Prop :=
  exists d1 sep d2 sfx,
    s = d1 ++ [sep] ++ d2 ++ sfx
    /\ digits d1 /\ (sep = "-"%char \/ sep = "."%char) /\ digits d2
    /\ (sfx = [] \/ exists d3, sfx = txt "." ++ d3 /\ digits d3).

(** An amount: digits and commas, a point, two digits. *)
Definition money (s : text) : Prop :=
  exists ds x1 x2,
    s = ds ++ ["."%char; x1; x2] /\ ds <> []
    /\ forallb (fun x => is_digit x || ascii_eqb "," x) ds = true
    /\ is_digit x1 = true /\ is_digit x2 = true.

(** The label of the closing value with its amount, in any mix of
    cases: "closing", blanks or none, "value", blanks or none, a dollar
    sign, blanks or none, an amount. *)
Definition closing_value_piece (s : text) : Prop :=
  exists l1 w0 l2 w1 w2 amt,
    s = l1 ++ w0 ++ l2 ++ w1 ++ txt "$" ++ w2 ++ amt
    /\ lower l1 = txt "closing" /\ lower l2 = txt "value"
    /\ blank w0 /\ blank w1 /\ blank w2 /\ money amt.

(** The pattern ends with the capture of an amount. *)
Fixpoint captures_amount (r : re) : Prop :=
  match r with
  | Seq _ b => captures_amount b
  | Grp a => a = amount
  | _ => False
  end.

(** The text after the last " - " of the name (its ".pdf" removed) is
    blank. *)
Definition blank_account_section (filename : text) : Prop :=
  exists name_part account_part,
    rsplit1 (txt " - ") (remove_all (txt ".pdf") filename)
    = Some (name_part, account_part)
    /\ blank account_part.

(** The collapsed label with its amount, in any mix of cases:
    "closingvalue", blanks or none, a dollar sign, blanks or none, an
    amount. *)
Definition joined_piece (s : text) : Prop :=
  exists l w1 w2 amt,
    s = l ++ w1 ++ txt "$" ++ w2 ++ amt
    /\ lower l = txt "closingvalue"
    /\ blank w1 /\ blank w2 /\ money amt.

(** The spaced label with its amount, in any mix of cases: "closing",
    at least one blank, "value", blanks or none, a dollar sign, blanks
    or none, an amount. *)
Definition spaced_piece (s : text) : Prop :=
  exists l1 w0 l2 w1 w2 amt,
    s = l1 ++ w0 ++ l2 ++ w1 ++ txt "$" ++ w2 ++ amt
    /\ lower l1 = txt "closing" /\ lower l2 = txt "value"
    /\ blank w0 /\ w0 <> [] /\ blank w1 /\ blank w2 /\ money amt.

(** A piece of [t] with [P] starts before position [n]. *)
Definition starts_before (P : text -> Prop) (n : nat) (t : text) : Prop :=
  exists a s b, t = a ++ s ++ b /\ List.length a < n /\ P s.

(** The same as a test: a match of [r] starts at one of the positions
    of [pre] in the text [pre ++ rest]; [bef] is the text before
    [pre], reversed. *)
Fixpoint match_starts_in (ic : bool) (r : re) (bef pre rest : text) : bool :=
  match pre with
  | [] => false
  | x :: pre' =>
      if is_some (rmatch ic r (MState bef (pre ++ rest) None)
                         (fun st => Some st))
      then true
      else match_starts_in ic r (x :: bef) pre' rest
  end.

(** * Properties *)

(** ** Strings *)

Lemma ascii_eqb_true (a b : ascii) : ascii_eqb a b = true <-> a = b.
Proof. apply Ascii.eqb_eq. Qed.

Lemma ascii_eqb_refl (a : ascii) : ascii_eqb a a = true.
Proof. apply Ascii.eqb_refl. Qed.

Lemma starts_with_spec (p s : text) :
  starts_with p s = true <-> exists r, s = p ++ r.
Proof.
  revert s; induction p as [|x p IH]; intros s; simpl.
  - split; [intros _; now exists s | reflexivity].
  - destruct s as [|y s].
    + split; [discriminate | intros [r Hr]; discriminate].
    + rewrite andb_true_iff, ascii_eqb_true, IH.
      split.
      * intros [-> [r ->]]. now exists r.
      * intros [r Hr]. injection Hr as -> ->. split; [reflexivity | now exists r].
Qed.

Lemma contains_spec (sub s : text) :
  contains sub s = true <-> occurs sub s.
Proof.
  unfold occurs.
  induction s as [|c s IH].
  - simpl. rewrite orb_false_r, starts_with_spec. split.
    + intros [r Hr]. now exists [], r.
    + intros [pre [post H]]. destruct pre; [now exists post | discriminate].
  - cbn [contains]. rewrite orb_true_iff, starts_with_spec, IH. split.
    + intros [[r Hr] | [pre [post H]]].
      * now exists [], r.
      * exists (c :: pre), post. now rewrite H.
    + intros [pre [post H]]. destruct pre as [|x pre].
      * left. now exists post.
      * right. injection H as _ H. now exists pre, post.
Qed.

Lemma contains_app (sub pre post : text) :
  contains sub (pre ++ sub ++ post) = true.
Proof. apply contains_spec. now exists pre, post. Qed.

(** [rsplit1] cuts the text at an occurrence of the separator. *)
Lemma rsplit1_app (sep s a b : text) :
  rsplit1 sep s = Some (a, b) -> s = a ++ sep ++ b.
Proof.
  revert a; induction s as [|c s IH]; intros a; simpl; [discriminate|].
  destruct (rsplit1 sep s) as [[a' b']|] eqn:E.
  - intros H. injection H as <- <-. simpl. f_equal. now apply IH.
  - destruct sep as [|x sep]; simpl.
    + intros H. now injection H as <- <-.
    + destruct (ascii_eqb x c && starts_with sep s) eqn:S; [|discriminate].
      intros H. injection H as <- <-.
      apply andb_true_iff in S. destruct S as [S1 S2].
      apply ascii_eqb_true in S1. apply starts_with_spec in S2.
      destruct S2 as [r ->]. subst. simpl. f_equal. f_equal.
      clear. induction sep; simpl; auto.
Qed.

(** It finds a separator whenever there is one. *)
Lemma rsplit1_contains (sep s : text) :
  sep <> [] -> contains sep s = true -> exists a b, rsplit1 sep s = Some (a, b).
Proof.
  intros Hsep. induction s as [|c s IH]; cbn [contains].
  - destruct sep; [contradiction | discriminate].
  - intros H. cbn [rsplit1].
    destruct (rsplit1 sep s) as [[a b]|] eqn:E; [now eexists _, _|].
    destruct (starts_with sep (c :: s)) eqn:S; [now eexists _, _|].
    simpl in H. apply IH in H. destruct H as [a [b H]]. discriminate.
Qed.

(** The cut is at the last occurrence: no occurrence starts later. *)
Lemma rsplit1_last (sep s a b : text) :
  sep <> [] -> rsplit1 sep s = Some (a, b) ->
  forall a' b', s = a' ++ sep ++ b' -> List.length a' <= List.length a.
Proof.
  intros Hsep. revert a; induction s as [|c s IH]; intros a; cbn [rsplit1];
    [discriminate|].
  destruct (rsplit1 sep s) as [[a0 b0]|] eqn:E.
  - intros H a' b' S. injection H as <- <-.
    destruct a' as [|x a']; cbn [List.length]; [lia|].
    injection S as _ S. specialize (IH a0 eq_refl a' b' S). lia.
  - destruct (starts_with sep (c :: s)); [|discriminate].
    intros H a' b' S. injection H as <- <-.
    destruct a' as [|x a']; [reflexivity|]. exfalso.
    injection S as _ S.
    assert (contains sep s = true) as C by (rewrite S; apply contains_app).
    destruct (rsplit1_contains _ Hsep C) as [a1 [b1 R]]. congruence.
Qed.

(** The words that [split] gives are never empty. *)
Lemma split_from_nonempty (cur s : text) :
  Forall (fun w => w <> []) (split_from cur s).
Proof.
  revert cur; induction s as [|c s IH]; intros cur; simpl.
  - destruct cur as [|x cur]; constructor; [|constructor].
    intros H. apply (f_equal (@List.length ascii)) in H.
    rewrite length_rev in H. discriminate.
  - destruct (is_space c); [|apply IH].
    destruct cur as [|x cur]; [apply IH|].
    constructor; [|apply IH].
    intros H. apply (f_equal (@List.length ascii)) in H.
    rewrite length_rev in H. discriminate.
Qed.

Lemma first_token_nonempty (s w : text) :
  first_token s = Ok w -> w <> [].
Proof.
  unfold first_token, split.
  pose proof (split_from_nonempty [] s) as H.
  destruct (split_from [] s) as [|x l]; [discriminate|].
  intros E. injection E as <-. now inversion H.
Qed.

(** ** The matcher against what patterns denote *)

Section MatcherCorrect.
Variable A : Type.
Variable ic : bool.

Lemma star_sound (k : cclass) (rst bef : text) (cap : option text)
      (cont : mstate -> option A) (x : A) :
  star ic k bef rst cap cont = Some x ->
  exists s aft, rst = s ++ aft /\ forallb (in_class ic k) s = true
                /\ cont (MState (rev s ++ bef) aft cap) = Some x.
Proof.
  revert bef; induction rst as [|c rst IH]; intros bef; simpl.
  - intros H. now exists [], [].
  - destruct (in_class ic k c) eqn:K.
    + destruct (star ic k (c :: bef) rst cap cont) as [y|] eqn:E.
      * intros H. injection H as ->.
        apply IH in E. destruct E as [s [aft [-> [F C]]]].
        exists (c :: s), aft. simpl. rewrite K, F.
        now rewrite <- app_assoc.
      * intros H. now exists [], (c :: rst).
    + intros H. now exists [], (c :: rst).
Qed.

Lemma star_complete (k : cclass) (s aft bef : text) (cap : option text)
      (cont : mstate -> option A) :
  forallb (in_class ic k) s = true ->
  cont (MState (rev s ++ bef) aft cap) <> None ->
  star ic k bef (s ++ aft) cap cont <> None.
Proof.
  revert bef; induction s as [|c s IH]; intros bef F C.
  - simpl in *. destruct aft as [|c aft]; simpl; [assumption|].
    destruct (in_class ic k c); [|assumption].
    destruct (star ic k (c :: bef) aft cap cont); [discriminate | assumption].
  - simpl in F. apply andb_true_iff in F. destruct F as [K F].
    simpl. rewrite K.
    specialize (IH (c :: bef) F).
    simpl in C. rewrite <- app_assoc in C. specialize (IH C).
    destruct (star ic k (c :: bef) (s ++ aft) cap cont);
      [discriminate | contradiction].
Qed.
End MatcherCorrect.

Lemma firstn_rev_app (s bef : text) :
  rev (firstn (List.length (rev s ++ bef) - List.length bef) (rev s ++ bef)) = s.
Proof.
  rewrite length_app, Nat.add_sub.
  rewrite firstn_app, Nat.sub_diag, firstn_all. simpl.
  now rewrite app_nil_r, rev_involutive.
Qed.

Lemma rmatch_sound (A : Type) (ic : bool) (r : re) :
  forall (st : mstate) (cont : mstate -> option A) (x : A),
    rmatch ic r st cont = Some x ->
    exists s aft c',
      ahead st = s ++ aft
      /\ Matches ic r (before st) s aft (group1 st) c'
      /\ cont (MState (rev s ++ before st) aft c') = Some x.
Proof.
  induction r as [|k|a IHa b IHb|a IHa b IHb|k|a IHa|s| | |];
    intros [bef rst cap] cont x; cbn [rmatch before ahead group1].
  - intros H. exists [], rst, cap. repeat split; [constructor | assumption].
  - destruct rst as [|c rst]; [discriminate|].
    destruct (in_class ic k c) eqn:K; [|discriminate].
    intros H. exists [c], rst, cap. repeat split; [now constructor | assumption].
  - intros H. apply IHa in H.
    destruct H as [s1 [aft1 [c1 [E1 [M1 H]]]]].
    apply IHb in H. destruct H as [s2 [aft [c2 [E2 [M2 H]]]]].
    cbn [before ahead group1] in *. subst.
    exists (s1 ++ s2), aft, c2. repeat split.
    + now rewrite app_assoc.
    + now econstructor; eauto.
    + now rewrite rev_app_distr, <- app_assoc.
  - destruct (rmatch ic a (MState bef rst cap) cont) as [y|] eqn:E.
    + intros H. injection H as ->. apply IHa in E.
      destruct E as [s [aft [c' [E [M H]]]]].
      exists s, aft, c'. repeat split; auto. now apply M_AltL.
    + intros H. apply IHb in H.
      destruct H as [s [aft [c' [E' [M H]]]]].
      exists s, aft, c'. repeat split; auto. now apply M_AltR.
  - intros H. apply star_sound in H.
    destruct H as [s [aft [E [F H]]]].
    exists s, aft, cap. repeat split; auto. now constructor.
  - intros H. apply IHa in H.
    destruct H as [s [aft [c' [E [M H]]]]].
    cbn [before ahead group1] in *.
    rewrite firstn_rev_app in H.
    exists s, aft, (Some s). repeat split; auto. now econstructor; eauto.
  - destruct (behind ic s bef) eqn:B; [discriminate|].
    intros H. exists [], rst, cap. repeat split; [now constructor | assumption].
  - destruct (at_boundary bef rst) eqn:B; [|discriminate].
    intros H. exists [], rst, cap. repeat split; [now constructor | assumption].
  - destruct bef; [|discriminate].
    intros H. exists [], rst, cap. repeat split; [constructor | assumption].
  - destruct rst as [|c [|c' rst]].
    + intros H. exists [], [], cap. repeat split; [constructor; auto | assumption].
    + destruct (ascii_eqb c "010") eqn:N; [|discriminate].
      apply ascii_eqb_true in N. subst.
      intros H. exists [], ["010"%char], cap.
      repeat split; [constructor; auto | assumption].
    + discriminate.
Qed.

Lemma rmatch_complete (A : Type) (ic : bool) (r : re) (bef s aft : text)
      (c c' : option text) :
  Matches ic r bef s aft c c' ->
  forall cont : mstate -> option A,
    cont (MState (rev s ++ bef) aft c') <> None ->
    rmatch ic r (MState bef (s ++ aft) c) cont <> None.
Proof.
  induction 1 as [bef aft c|k x bef aft c K|a b bef s1 s2 aft c c1 c2 _ IHa _ IHb
                 |a b bef s aft c c1 _ IH|a b bef s aft c c1 _ IH
                 |k s bef aft c F|a bef s aft c c1 _ IH|s bef aft c B
                 |bef aft c B|aft c|bef aft c E];
    intros cont C; cbn [rmatch before ahead group1].
  - assumption.
  - simpl. now rewrite K.
  - rewrite <- app_assoc. apply IHa. apply IHb.
    now rewrite rev_app_distr, <- app_assoc in C.
  - specialize (IH cont C).
    destruct (rmatch ic a (MState bef (s ++ aft) c) cont);
      [discriminate | contradiction].
  - destruct (rmatch ic a (MState bef (s ++ aft) c) cont); [discriminate|].
    now apply IH.
  - now apply star_complete.
  - apply IH. cbn [before ahead group1]. now rewrite firstn_rev_app.
  - simpl in *. now rewrite B.
  - simpl in *. now rewrite B.
  - assumption.
  - simpl in *. destruct E as [-> | ->]; [assumption|].
    now rewrite ascii_eqb_refl.
Qed.

(** [re.search] finds a match exactly when some piece of the text
    matches, and what it returns is such a piece. *)
Lemma search_from_sound (ic : bool) (r : re) (rst bef : text) (st : mstate) :
  search_from ic r bef rst = Some st ->
  exists pre s aft c,
    rst = pre ++ s ++ aft
    /\ Matches ic r (rev pre ++ bef) s aft None c
    /\ st = MState (rev s ++ rev pre ++ bef) aft c.
Proof.
  revert bef; induction rst as [|x rst IH]; intros bef; cbn [search_from].
  - destruct (rmatch ic r (MState bef [] None) (fun st => Some st)) eqn:E;
      [|discriminate].
    intros H. injection H as ->. apply rmatch_sound in E.
    destruct E as [s [aft [c [E [M H]]]]]. cbn in *.
    exists [], s, aft, c. repeat split; auto. now injection H.
  - destruct (rmatch ic r (MState bef (x :: rst) None) (fun st => Some st)) eqn:E.
    + intros H. injection H as ->. apply rmatch_sound in E.
      destruct E as [s [aft [c [E [M H]]]]]. cbn in *.
      exists [], s, aft, c. repeat split; auto. now injection H.
    + intros H. apply IH in H.
      destruct H as [pre [s [aft [c [-> [M ->]]]]]].
      exists (x :: pre), s, aft, c. simpl. rewrite <- !app_assoc. simpl.
      repeat split; auto.
Qed.

Lemma search_from_complete (ic : bool) (r : re) (pre s aft bef : text)
      (c : option text) :
  Matches ic r (rev pre ++ bef) s aft None c ->
  search_from ic r bef (pre ++ s ++ aft) <> None.
Proof.
  revert bef; induction pre as [|x pre IH]; intros bef M.
  - simpl in M. cbn [app].
    assert (rmatch ic r (MState bef (s ++ aft) None) (fun st => Some st) <> None)
      as H by (eapply rmatch_complete; [eassumption | discriminate]).
    destruct (s ++ aft); cbn [search_from];
      destruct (rmatch ic r _ (fun st => Some st)); try discriminate;
      contradiction.
  - cbn [app search_from].
    destruct (rmatch ic r _ (fun st => Some st)); [discriminate|].
    apply IH. simpl in M. now rewrite <- app_assoc in M.
Qed.

Lemma re_search_iff (ic : bool) (r : re) (t : text) :
  is_some (re_search ic r t) = true <->
  exists pre s aft c, t = pre ++ s ++ aft /\ Matches ic r (rev pre) s aft None c.
Proof.
  unfold re_search. split.
  - destruct (search_from ic r [] t) as [st|] eqn:E; [|discriminate].
    intros _. apply search_from_sound in E.
    destruct E as [pre [s [aft [c [E [M _]]]]]].
    exists pre, s, aft, c. now rewrite app_nil_r in M.
  - intros [pre [s [aft [c [-> M]]]]].
    rewrite <- (app_nil_r (rev pre)) in M.
    apply search_from_complete in M.
    now destruct (search_from ic r [] (pre ++ s ++ aft)).
Qed.

(** ** Account numbers are never empty *)

Lemma group_starts_with_class (ic : bool) (k : cclass) (a b : re)
      (bef s aft : text) (c c' : option text) :
  Matches ic (Grp (Seq (Seq (Cls k) a) b)) bef s aft c c' ->
  exists x s', c' = Some (x :: s') /\ in_class ic k x = true.
Proof.
  intros M. inversion M as [| | | | | |? ? ? ? ? ? M1| | | |]; subst.
  inversion M1 as [| |? ? ? ? ? ? ? ? ? M2 _| | | | | | | |]; subst.
  inversion M2 as [| |? ? ? ? ? ? ? ? ? M3 _| | | | | | | |]; subst.
  inversion M3; subst. simpl. now eexists _, _.
Qed.

Lemma search_group_nonempty (ic : bool) (k : cclass) (a b : re)
      (t : text) (m : mstate) :
  re_search ic (Grp (Seq (Seq (Cls k) a) b)) t = Some m ->
  exists x s', group1 m = Some (x :: s') /\ in_class ic k x = true.
Proof.
  intros H. apply search_from_sound in H.
  destruct H as [pre [s [aft [c [_ [M ->]]]]]].
  apply group_starts_with_class in M. exact M.
Qed.

Ltac account_cases :=
  repeat match goal with
  | |- context [if ?b then _ else _] => destruct b; [|discriminate]
  | |- context [match rsplit1 ?a ?b with _ => _ end] =>
      destruct (rsplit1 a b) as [[? ?]|]; [|discriminate]
  | |- context [match re_search ?i ?r ?t with _ => _ end] =>
      let E := fresh "E" in
      destruct (re_search i r t) eqn:E;
      [apply search_group_nonempty in E; destruct E as [? [? [E _]]];
       intros ? ?; congruence |]
  | |- context [first_token ?s] =>
      let E := fresh "E" in
      destruct (first_token s) eqn:E; [|discriminate];
      apply first_token_nonempty in E; cbn [bind]
  end.

Lemma wfa_account_nonempty (filename a : text) :
  WFAParser.extract_account_number_from_filename filename = Ok (Some a) ->
  a <> [].
Proof.
  unfold WFAParser.extract_account_number_from_filename.
  account_cases. intros ? ?; congruence.
Qed.

Lemma bok_account_nonempty (filename a : text) :
  BOKFinancialParser.extract_account_number_from_filename filename
  = Ok (Some a) -> a <> [].
Proof.
  unfold BOKFinancialParser.extract_account_number_from_filename.
  account_cases. intros ? ?; congruence.
Qed.

Lemma beneficiary_account_nonempty (filename a : text) (b : option text) :
  BOK.extract_beneficiary_and_account filename = Ok (b, Some a) -> a <> [].
Proof.
  unfold BOK.extract_beneficiary_and_account.
  account_cases. intros ? ?; congruence.
Qed.

Lemma status_of_rule (a : option text) (v : option Q) :
  (forall s, a = Some s -> s <> []) ->
  status_of a v = status_rule (is_some a) (is_some v).
Proof.
  intros H. unfold status_of.
  destruct a as [[|x s]|], v; simpl; try reflexivity;
    now destruct (H [] eq_refl).
Qed.

Lemma status_rule_complete (a b : bool) :
  status_rule a b = Complete <-> a = true /\ b = true.
Proof. destruct a, b; simpl; intuition discriminate. Qed.

Lemma is_some_true (X : Type) (o : option X) : is_some o = true <-> o <> None.
Proof. destruct o; simpl; intuition congruence. Qed.

(** ** The per-document step and the status of a record *)

Lemma blank_section_raises_wfa (doc : document) :
  WFAParser.parse (Pdf (txt "Foo - .pdf") doc) = Raise IndexError.
Proof. reflexivity. Qed.

Lemma blank_section_raises_bok (doc : document) :
  BOKFinancialParser.parse (Pdf (txt "Foo - .pdf") doc) = Raise IndexError.
Proof. reflexivity. Qed.

(** C1 (the code does not meet it).  The claim: the per-document step
    returns one record and never raises, also for a file name whose last
    " - " is followed by nothing but white space.  On the code, for the
    file name "Foo - .pdf" and whatever the document holds, the step
    raises [IndexError] (the account section is empty, so
    [account_part.split()[0]] has no first element), and a batch that
    starts with this file is aborted by the exception: no record is
    produced for any file of the batch. *)
Theorem blank_account_section_aborts :
  (forall doc : document,
      CombinedStatementParser.process (Pdf (txt "Foo - .pdf") doc)
      = Raise IndexError)
  /\ (forall (doc : document) (rest : list pdf),
         CombinedStatementParser.process_all_pdfs
           (Some (Pdf (txt "Foo - .pdf") doc :: rest))
         = Raise IndexError)
  /\ BOK.parse (Pdf (txt "Foo - .pdf") None) = Raise IndexError.
Proof.
  assert (forall doc, CombinedStatementParser.process (Pdf (txt "Foo - .pdf") doc)
                      = Raise IndexError) as P.
  { intros doc. unfold CombinedStatementParser.process,
      CombinedStatementParser.parse.
    destruct (CombinedStatementParser.select_parser _);
      [apply blank_section_raises_wfa | apply blank_section_raises_bok]. }
  split; [exact P|]. split; [|reflexivity].
  intros doc rest. unfold CombinedStatementParser.process_all_pdfs.
  cbn [CombinedStatementParser.process_files]. now rewrite P.
Qed.

Lemma wfa_parse_status (f : pdf) (r : FieldExtractionResult) :
  WFAParser.parse f = Ok r ->
  Status r = status_rule (is_some (Account_Number r))
                         (is_some (Closing_Value r)).
Proof.
  unfold WFAParser.parse.
  destruct (WFAParser.extract_account_number_from_filename (name f))
    as [a|] eqn:E; [|discriminate].
  cbn [bind]. intros H. injection H as <-. cbn [Status Account_Number Closing_Value].
  apply status_of_rule. intros s ->. eapply wfa_account_nonempty; eauto.
Qed.

Lemma bok_parse_status (f : pdf) (r : FieldExtractionResult) :
  BOKFinancialParser.parse f = Ok r ->
  Status r = status_rule (is_some (Account_Number r))
                         (is_some (Closing_Value r)).
Proof.
  unfold BOKFinancialParser.parse.
  destruct (BOKFinancialParser.extract_account_number_from_filename (name f))
    as [a|] eqn:E; [|discriminate].
  cbn [bind]. intros H. injection H as <-. cbn [Status Account_Number Closing_Value].
  apply status_of_rule. intros s ->. eapply bok_account_nonempty; eauto.
Qed.

Lemma beneficiary_parse_status (f : pdf) (r : FieldExtractionResult) :
  BOK.parse f = Ok r ->
  Status r = status_rule (is_some (Account_Number r))
                         (is_some (Closing_Value r)).
Proof.
  unfold BOK.parse.
  destruct (BOK.extract_beneficiary_and_account (name f))
    as [[b a]|] eqn:E; [|discriminate].
  cbn [bind fst snd]. intros H. injection H as <-.
  cbn [Status Account_Number Closing_Value].
  apply status_of_rule. intros s ->.
  eapply beneficiary_account_nonempty; eauto.
Qed.

Lemma produced_status (f : pdf) (r : FieldExtractionResult) :
  CombinedStatementParser.process f = Ok r \/ BOK.parse f = Ok r ->
  Status r = status_rule (is_some (Account_Number r))
                         (is_some (Closing_Value r)).
Proof.
  intros [H | H]; [|now apply beneficiary_parse_status with f].
  unfold CombinedStatementParser.process, CombinedStatementParser.parse in H.
  destruct (CombinedStatementParser.select_parser f);
    [now apply wfa_parse_status with f | now apply bok_parse_status with f].
Qed.

(** C2.  For every record that the per-document step produces (the
    combined parser, either institution, and the beneficiary-aware BOK
    parser), the status is "complete" exactly when the account number is
    present and the closing value is present, and "needs review"
    otherwise: it is the truth table [status_rule] of the two presences.
    Each of the four combinations of presences is produced by some
    document. *)
Theorem status_iff_both_present :
  (forall (f : pdf) (r : FieldExtractionResult),
      CombinedStatementParser.process f = Ok r \/ BOK.parse f = Ok r ->
      Status r = status_rule (is_some (Account_Number r))
                             (is_some (Closing_Value r))
      /\ (Status r = Complete <->
          Account_Number r <> None /\ Closing_Value r <> None)
      /\ (Status r = NeedsReview <->
          ~ (Account_Number r <> None /\ Closing_Value r <> None)))
  /\ (forall a v : bool, exists (f : pdf) (r : FieldExtractionResult),
         CombinedStatementParser.process f = Ok r
         /\ is_some (Account_Number r) = a
         /\ is_some (Closing_Value r) = v
         /\ Status r = status_rule a v).
Proof.
  split.
  - intros f r H. apply produced_status in H.
    assert (Status r = Complete <->
            Account_Number r <> None /\ Closing_Value r <> None) as C.
    { rewrite H, status_rule_complete, !is_some_true. reflexivity. }
    split; [exact H|]. split; [exact C|].
    rewrite <- C. destruct (Status r); split; intros; try discriminate;
      try reflexivity; congruence.
  - pose (page1 := Some [Some (txt "Page 1 of 2 Closing value $5.00")]).
    intros [|] [|].
    + exists (Pdf (txt "A - 12-34.pdf") page1). eexists. split; [reflexivity|].
      now vm_compute.
    + exists (Pdf (txt "A - 12-34.pdf") None). eexists. split; [reflexivity|].
      now vm_compute.
    + exists (Pdf (txt "A.pdf") page1). eexists. split; [reflexivity|].
      now vm_compute.
    + exists (Pdf (txt "A.pdf") None). eexists. split; [reflexivity|].
      now vm_compute.
Qed.

Lemma status_iff_both_present_witness :
  let f := Pdf (txt "A - 12-34.pdf")
               (Some [Some (txt "Page 1 of 2 Closing value $5.00")]) in
  exists r, CombinedStatementParser.process f = Ok r /\ Status r = Complete.
Proof.
  intros f.
  destruct (CombinedStatementParser.process f) as [r|] eqn:E;
    [|vm_compute in E; discriminate].
  exists r. split; [reflexivity|].
  apply (proj1 status_iff_both_present f r (or_introl E)).
  vm_compute in E. injection E as <-. split; discriminate.
Defined.

(** ** Bounds on the extracted value *)

Lemma first_value_valid (valid : Q -> bool) (ps : list re) (t : text) (v : Q) :
  first_value valid ps t = Some v -> valid v = true.
Proof.
  induction ps as [|p ps IH]; simpl; [discriminate|].
  destruct (re_search true p t) as [m|]; [|exact IH].
  destruct (group1 m) as [g|]; [|exact IH].
  destruct (py_float _) as [value|]; [|exact IH].
  destruct (valid value) eqn:V; [|exact IH].
  intros H. now injection H as <-.
Qed.

Lemma Qleb_true (a b : Q) : Qleb a b = true <-> (a <= b)%Q.
Proof. apply Qle_bool_iff. Qed.

Lemma Qltb_true (a b : Q) : Qltb a b = true <-> (a < b)%Q.
Proof.
  unfold Qltb. rewrite negb_true_iff. split.
  - intros H. apply Qnot_le_lt. intros L.
    apply Qle_bool_iff in L. congruence.
  - intros H. destruct (Qle_bool b a) eqn:E; [|reflexivity].
    apply Qle_bool_iff in E. exfalso. now apply (Qlt_not_le a b).
Qed.

Lemma star_zeros (A : Type) (n : nat) (bef aft : text) (cap : option text)
      (cont : mstate -> option A) (x : A) :
  cont (MState (zeros n ++ bef) ("."%char :: aft) cap) = Some x ->
  star true digit_or_comma bef (zeros n ++ "."%char :: aft) cap cont = Some x.
Proof.
  revert bef. induction n as [|n IH]; intros bef H.
  - exact H.
  - cbn [zeros repeat app star].
    change (in_class true digit_or_comma "0") with true.
    cbv iota. rewrite IH; [reflexivity|].
    change (zeros n ++ "0"%char :: bef) with (zeros n ++ ["0"%char] ++ bef).
    rewrite app_assoc. unfold zeros at 1. rewrite <- repeat_cons. exact H.
Qed.

Lemma rev_big_amount (n : nat) :
  rev (big_amount n) = "0"%char :: "0"%char :: "."%char :: zeros n ++ ["1"%char].
Proof.
  unfold big_amount. cbn [rev]. rewrite rev_app_distr.
  unfold zeros. rewrite rev_repeat. reflexivity.
Qed.

Lemma amount_big (A : Type) (n : nat) (bef aft : text) (cap : option text)
      (cont : mstate -> option A) (x : A) :
  cont (MState (rev (big_amount n) ++ bef) aft (Some (big_amount n))) = Some x ->
  rmatch true (Grp amount) (MState bef (big_amount n ++ aft) cap) cont = Some x.
Proof.
  intros H.
  pose proof (firstn_rev_app (big_amount n) bef) as F.
  rewrite rev_big_amount in *.
  cbn [rmatch amount Cat Plus before ahead group1 big_amount app].
  change (in_class true digit_or_comma "1") with true. cbv iota.
  rewrite <- app_assoc.
  cbn [txt list_ascii_of_string app].
  apply star_zeros.
  cbn [rmatch amount Cat Plus before ahead group1 app].
  change (in_class true (ch ".") ".") with true.
  change (in_class true d "0") with true. cbv iota.
  cbn [app] in F, H. rewrite <- !app_assoc in F, H. cbn [app] in F, H.
  cbn [before ahead]. rewrite F. exact H.
Qed.

Lemma remove_comma_zeros (n : nat) (s : text) :
  remove_from (txt ",") 0 (zeros n ++ s) = zeros n ++ remove_from (txt ",") 0 s.
Proof.
  induction n as [|n IH]; [reflexivity|].
  cbn [zeros repeat app remove_from].
  change (starts_with (txt ",") ("0"%char :: repeat "0"%char n ++ s)) with false.
  cbv iota. f_equal. exact IH.
Qed.

Lemma numeral_zeros (n : nat) (s : text) (acc : Z) (den : positive) (nd : nat) :
  numeral (zeros n ++ s) acc den false nd
  = numeral s (10 ^ Z.of_nat n * acc)%Z den false (n + nd).
Proof.
  revert acc nd; induction n as [|n IH]; intros acc nd.
  - cbn [zeros repeat app]. f_equal. rewrite Z.pow_0_r. lia.
  - cbn [zeros repeat app numeral].
    change (is_digit "0") with true. cbv iota.
    fold (zeros n). rewrite IH. f_equal.
    + change (digit_val "0") with 0%Z. rewrite Nat2Z.inj_succ, Z.pow_succ_r; lia.
    + lia.
Qed.

Lemma float_big_amount (n : nat) :
  py_float (remove_all (txt ",") (big_amount n))
  = Some (Qmake (100 * 10 ^ Z.of_nat n) 100).
Proof.
  unfold remove_all, big_amount. cbn [remove_from].
  change (starts_with (txt ",") ("1"%char :: zeros n ++ txt ".00")) with false.
  cbv iota. rewrite remove_comma_zeros.
  change (remove_from (txt ",") 0 (txt ".00")) with (txt ".00").
  cbn [py_float]. change (ascii_eqb "1" "-") with false.
  change (ascii_eqb "1" "+") with false. cbv iota.
  cbn [numeral]. change (is_digit "1") with true. cbv iota.
  rewrite numeral_zeros.
  cbn [txt list_ascii_of_string numeral].
  change (is_digit ".") with false. change (is_digit "0") with true.
  change (ascii_eqb "." ".") with true. cbn [andb negb].
  rewrite Nat.add_comm. cbn [Nat.add Nat.eqb].
  f_equal. f_equal. change (digit_val "1") with 1%Z.
  change (digit_val "0") with 0%Z. lia.
Qed.

Lemma search_hit (ic : bool) (r : re) (bef rst : text) (st : mstate) :
  rmatch ic r (MState bef rst None) (fun st => Some st) = Some st ->
  search_from ic r bef rst = Some st.
Proof. intros H. destruct rst; cbn [search_from]; now rewrite H. Qed.

Lemma star_stop (A : Type) (ic : bool) (k : cclass) (c : ascii)
      (bef rst : text) (cap : option text) (cont : mstate -> option A) :
  in_class ic k c = false ->
  star ic k bef (c :: rst) cap cont = cont (MState bef (c :: rst) cap).
Proof. intros H. cbn [star]. now rewrite H. Qed.

Lemma wfa_big_page (n : nat) :
  WFAParser.extract_closing_value (Some (big_page n))
  = Some (Qmake (100 * 10 ^ Z.of_nat n) 100).
Proof.
  unfold big_page. cbn [txt list_ascii_of_string app].
  cbn [WFAParser.extract_closing_value WFAParser.patterns first_value].
  unfold re_search.
  erewrite search_hit.
  2:{ cbn -[big_amount amount star].
      rewrite star_stop by reflexivity.
      cbn -[big_amount amount star].
      unfold big_amount at 1. rewrite star_stop by reflexivity.
      fold (big_amount n). rewrite <- (app_nil_r (big_amount n)).
      apply amount_big. reflexivity. }
  cbn [group1]. rewrite float_big_amount.
  replace (Qleb 0 (Qmake (100 * 10 ^ Z.of_nat n) 100)) with true; [reflexivity|].
  symmetry. apply Qleb_true. unfold Qle. cbn [Qnum Qden].
  pose proof (Z.pow_nonneg 10 (Z.of_nat n)). lia.
Qed.

(** C3, where the claim fails: the Wells Fargo extractor has no
    plausibility ceiling.  Whatever ceiling is proposed, some page text
    makes it return a value that is not below it. *)
Lemma wfa_value_has_no_ceiling :
  ~ exists ceiling : Q,
      forall (t : option text) (v : Q),
        WFAParser.extract_closing_value t = Some v -> (v < ceiling)%Q.
Proof.
  intros [q H].
  specialize (H _ _ (wfa_big_page (Z.to_nat (Z.max 0 (Qnum q))))).
  unfold Qlt in H. cbn [Qnum Qden] in H.
  rewrite Z2Nat.id in H by lia.
  pose proof (Z.pow_gt_lin_r 10 (Z.max 0 (Qnum q))) as P.
  assert (Z.max 0 (Qnum q) < 10 ^ Z.max 0 (Qnum q))%Z as L by (apply P; lia).
  pose proof (Pos2Z.is_pos (Qden q)). nia.
Qed.

Lemma first_good_nonneg (ms : list mstate) (v : Q) :
  Final.first_good ms = Some v -> (0 <= v)%Q.
Proof.
  induction ms as [|m ms IH]; simpl; [discriminate|].
  destruct (group1 m) as [g|]; [|exact IH].
  destruct (py_float _) as [value|]; [|exact IH].
  destruct (Qleb 0 value) eqn:V; [|exact IH].
  intros H. injection H as <-. now apply Qleb_true.
Qed.

Lemma final_value_nonneg (t : option text) (v : Q) :
  Final.extract_closing_value t = Some v -> (0 <= v)%Q.
Proof.
  destruct t as [[|c s]|]; try discriminate.
  unfold Final.extract_closing_value.
  generalize (c :: s) as u. intros u.
  induction Final.patterns as [|p ps IH]; simpl; [discriminate|].
  destruct (Final.first_good (Final.finditer true p u)) as [w|] eqn:E;
    [|exact IH].
  intros H. injection H as <-. now apply first_good_nonneg in E.
Qed.

(** C3, as the code has it.  A closing value that an extractor returns
    is never negative.  For BOK Financial it is moreover positive and
    below the ceiling of 10,000,000,000; the Wells Fargo extractors check
    no upper bound.  A text whose amount carries a minus sign gives no
    value, and for BOK Financial an amount at or above the ceiling gives
    no value either: it is neither returned nor replaced by the bound. *)
Theorem extracted_value_bounds :
  (forall (t : option text) (v : Q),
      (WFAParser.extract_closing_value t = Some v -> (0 <= v)%Q)
      /\ (Final.extract_closing_value t = Some v -> (0 <= v)%Q)
      /\ (BOKFinancialParser.extract_total_value t = Some v ->
          (0 < v)%Q /\ (v < 10000000000)%Q)
      /\ (BOK.extract_total_value t = Some v ->
          (0 < v)%Q /\ (v < 10000000000)%Q))
  /\ WFAParser.extract_closing_value (Some (txt "Closing value $-12.50")) = None
  /\ BOKFinancialParser.extract_total_value (Some (txt "Total -12.50")) = None
  /\ BOKFinancialParser.extract_total_value
       (Some (txt "Total 10,000,000,000.00")) = None
  /\ BOKFinancialParser.extract_total_value
       (Some (txt "Total 10,000,000,000.01")) = None
  /\ BOKFinancialParser.extract_total_value
       (Some (txt "Total 9,999,999,999.99")) = Some (999999999999 # 100)%Q.
Proof.
  split; [|repeat split; reflexivity].
  intros t v. repeat split.
  - destruct t as [[|c s]|]; try discriminate.
    intros H. apply first_value_valid in H. now apply Qleb_true.
  - apply final_value_nonneg.
  - destruct t as [[|c s]|]; try discriminate.
    apply first_value_valid in H. unfold BOKFinancialParser.sane in H.
    apply andb_true_iff in H. now apply Qltb_true.
  - destruct t as [[|c s]|]; try discriminate.
    apply first_value_valid in H. unfold BOKFinancialParser.sane in H.
    apply andb_true_iff in H. now apply Qltb_true.
  - destruct t as [[|c s]|]; try discriminate.
    apply first_value_valid in H. unfold BOKFinancialParser.sane in H.
    apply andb_true_iff in H. now apply Qltb_true.
  - destruct t as [[|c s]|]; try discriminate.
    apply first_value_valid in H. unfold BOKFinancialParser.sane in H.
    apply andb_true_iff in H. now apply Qltb_true.
Qed.

Lemma extracted_value_bounds_witness :
  BOKFinancialParser.extract_total_value (Some (txt "Total 705,122.36"))
  = Some (70512236 # 100)%Q
  /\ (0 < 70512236 # 100)%Q /\ (70512236 # 100 < 10000000000)%Q.
Proof.
  split; [reflexivity|].
  apply (proj1 (proj2 (proj2 (proj1 extracted_value_bounds
           (Some (txt "Total 705,122.36")) (70512236 # 100)%Q)))).
  reflexivity.
Defined.

(** ** Classification *)

Lemma occurs_nonempty (sub t : text) : sub <> [] -> occurs sub t -> t <> [].
Proof.
  intros N [pre [post ->]] E. apply app_eq_nil in E. destruct E as [_ E].
  apply app_eq_nil in E. now destruct E.
Qed.

Lemma has_bok_identifier_spec (p : page) :
  CombinedStatementParser.has_bok_identifier p = true <-> bok_signature p.
Proof.
  unfold bok_signature. split.
  - destruct p as [[|c t]|]; cbn [CombinedStatementParser.has_bok_identifier];
      try discriminate.
    rewrite !orb_true_iff, !contains_spec. intros H.
    exists (c :: t). split; [reflexivity | tauto].
  - intros [t [-> H]].
    assert (t <> []) as N.
    { destruct H as [H | [H | H]];
        eapply occurs_nonempty; try exact H; discriminate. }
    destruct t as [|c t]; [contradiction|].
    cbn [CombinedStatementParser.has_bok_identifier].
    rewrite !orb_true_iff, !contains_spec. tauto.
Qed.

Lemma check_pages_spec (pages : list page) (nums : list nat) :
  CombinedStatementParser.check_pages pages nums = true <->
  exists i, In i nums /\ i < List.length pages
            /\ bok_signature (nth i pages None).
Proof.
  induction nums as [|n nums IH]; cbn [CombinedStatementParser.check_pages].
  - split; [discriminate | intros [i [[] _]]].
  - destruct (n <? List.length pages) eqn:L.
    + apply Nat.ltb_lt in L.
      destruct (CombinedStatementParser.has_bok_identifier (nth n pages None))
        eqn:B.
      * split; [intros _ | reflexivity].
        exists n. repeat split; [now left | assumption |].
        now apply has_bok_identifier_spec.
      * rewrite IH. split.
        -- intros [i [I H]]. exists i. split; [now right | exact H].
        -- intros [i [[-> | I] [Hl H]]]; [|now exists i].
           apply has_bok_identifier_spec in H. congruence.
    + apply Nat.ltb_ge in L. rewrite IH. split.
      * intros [i [I H]]. exists i. split; [now right | exact H].
      * intros [i [[-> | I] [Hl H]]]; [lia | now exists i].
Qed.

Lemma select_parser_cases (f : pdf) :
  CombinedStatementParser.select_parser f = BOKFinancial
  \/ CombinedStatementParser.select_parser f = WellsFargoAdvisors.
Proof.
  unfold CombinedStatementParser.select_parser.
  destruct (CombinedStatementParser.is_bok_financial _); auto.
Qed.

Lemma select_parser_bok_iff (f : pdf) :
  CombinedStatementParser.select_parser f = BOKFinancial <->
  exists pages i,
    contents f = Some pages
    /\ In i (CombinedStatementParser.pages_to_check pages)
    /\ i < List.length pages
    /\ bok_signature (nth i pages None).
Proof.
  unfold CombinedStatementParser.select_parser,
    CombinedStatementParser.is_bok_financial.
  destruct (contents f) as [pages|].
  - destruct (CombinedStatementParser.check_pages _ _) eqn:CP.
    + apply check_pages_spec in CP. destruct CP as [i Hi].
      split; [intros _; now exists pages, i | reflexivity].
    + split; [discriminate|].
      intros [pages' [i [E Hi]]]. injection E as <-.
      assert (CombinedStatementParser.check_pages pages
                (CombinedStatementParser.pages_to_check pages) = true) as T
          by (apply check_pages_spec; now exists i).
      congruence.
  - split; [discriminate | intros [pages [i [E _]]]; discriminate].
Qed.

Lemma legacy_bok_can_parse_spec (doc : document) :
  Legacy.bok_can_parse doc = true <-> legacy_bok_document doc.
Proof.
  unfold Legacy.bok_can_parse, Legacy.can_parse, legacy_bok_document,
    legacy_bok_signature.
  destruct doc as [[|[t|] rest]|].
  - split; [discriminate | intros [t [rest [E _]]]; discriminate].
  - cbn [existsb]. rewrite orb_false_r, orb_true_iff, !contains_spec. split.
    + intros H. now exists t, rest.
    + intros [t' [rest' [E H]]]. now injection E as <- <-.
  - split; [discriminate | intros [t [rest' [E _]]]; discriminate].
  - split; [discriminate | intros [t [rest [E _]]]; discriminate].
Qed.

(** C4.  Classification looks for the BOK Financial signature first and
    falls back to Wells Fargo.  A document one of whose checked pages
    carries a BOK signature is classified BOK Financial whatever else
    its pages contain, a Wells Fargo signature included; a document
    without a BOK signature on a checked page, an unreadable document, a
    document without pages or without any page text is classified Wells
    Fargo Advisors.  The classifier is a total function: it never
    raises.  The first classifier ([Legacy]) tests the first page only,
    the BOK signature before the Wells Fargo signature: it answers BOK
    Financial exactly when the text of the first page has "BOK
    FINANCIAL" or "BOK Financial", a Wells Fargo signature on the same
    page changing nothing, and Wells Fargo Advisors in every other
    case: no BOK signature on the first page, no text on it, no page,
    an unreadable document. *)
Theorem classification_is_ordered :
  (forall (f : pdf) (pages : list page) (i : nat),
      contents f = Some pages ->
      In i (CombinedStatementParser.pages_to_check pages) ->
      i < List.length pages ->
      bok_signature (nth i pages None) ->
      CombinedStatementParser.select_parser f = BOKFinancial)
  /\ (forall f : pdf,
         (forall (pages : list page) (i : nat),
             contents f = Some pages ->
             In i (CombinedStatementParser.pages_to_check pages) ->
             i < List.length pages ->
             ~ bok_signature (nth i pages None)) ->
         CombinedStatementParser.select_parser f = WellsFargoAdvisors)
  /\ (forall (n : text) (k : nat),
         CombinedStatementParser.select_parser (Pdf n None)
         = WellsFargoAdvisors
         /\ CombinedStatementParser.select_parser (Pdf n (Some (repeat None k)))
            = WellsFargoAdvisors)
  /\ (forall (n pre post : text) (rest : list page),
         CombinedStatementParser.select_parser
           (Pdf n (Some (Some (txt "Wells Fargo Advisors" ++ pre
                               ++ txt "BOK FINANCIAL" ++ post) :: rest)))
         = BOKFinancial
         /\ Legacy.select_parser
              (Pdf n (Some (Some (txt "Wells Fargo Advisors" ++ pre
                                  ++ txt "BOK FINANCIAL" ++ post) :: rest)))
            = BOKFinancial)
  /\ (forall f : pdf,
         Legacy.select_parser f = BOKFinancial
         <-> legacy_bok_document (contents f))
  /\ (forall f : pdf,
         Legacy.select_parser f = WellsFargoAdvisors
         <-> ~ legacy_bok_document (contents f))
  /\ (forall (n : text) (rest : list page),
         Legacy.select_parser (Pdf n None) = WellsFargoAdvisors
         /\ Legacy.select_parser (Pdf n (Some [])) = WellsFargoAdvisors
         /\ Legacy.select_parser (Pdf n (Some (None :: rest)))
            = WellsFargoAdvisors
         /\ Legacy.select_parser (Pdf n (Some (Some [] :: rest)))
            = WellsFargoAdvisors).
Proof.
  assert (forall f : pdf,
             Legacy.select_parser f = BOKFinancial
             <-> legacy_bok_document (contents f)) as L.
  { intros f. rewrite <- legacy_bok_can_parse_spec.
    unfold Legacy.select_parser.
    destruct (Legacy.bok_can_parse (contents f));
      [tauto | destruct (Legacy.wfa_can_parse (contents f))];
      split; discriminate. }
  split; [|split; [|split; [|split; [|split; [|split]]]]].
  - intros f pages i E I Lt B. apply select_parser_bok_iff.
    now exists pages, i.
  - intros f H. destruct (select_parser_cases f) as [B | W]; [|exact W].
    apply select_parser_bok_iff in B.
    destruct B as [pages [i [E [I [Lt B]]]]]. now destruct (H pages i).
  - intros n k. split; [reflexivity|].
    destruct (select_parser_cases (Pdf n (Some (repeat None k)))) as [B | W];
      [|exact W].
    apply select_parser_bok_iff in B.
    destruct B as [pages [i [E [I [Lt [t [B _]]]]]]].
    cbn [contents] in E. injection E as <-. exfalso.
    assert (In (nth i (repeat (@None text) k) None) (repeat None k)) as M
        by now apply nth_In.
    apply repeat_spec in M. unfold page, text in *. congruence.
  - intros n pre post rest.
    set (t := txt "Wells Fargo Advisors" ++ pre ++ txt "BOK FINANCIAL" ++ post).
    assert (occurs (txt "BOK FINANCIAL") t) as O.
    { exists (txt "Wells Fargo Advisors" ++ pre), post.
      unfold t. now rewrite <- app_assoc. }
    split.
    + apply select_parser_bok_iff. exists (Some t :: rest), 0.
      cbn [contents]. repeat split.
      * unfold CombinedStatementParser.pages_to_check.
        destruct (3 <? _); cbn [List.length seq]; now left.
      * cbn [List.length]. lia.
      * exists t. split; [reflexivity | tauto].
    + apply L. exists t, rest. split; [reflexivity | now left].
  - exact L.
  - intros f. rewrite <- L.
    destruct (Legacy.select_parser f); split; intros H;
      try discriminate; try reflexivity; now destruct H.
  - intros n rest. repeat split; reflexivity.
Qed.

Lemma classification_is_ordered_witness :
  CombinedStatementParser.select_parser
    (Pdf (txt "a.pdf") (Some [None; None; Some (txt "x BOKF y")]))
  = BOKFinancial.
Proof.
  apply (proj1 classification_is_ordered
           (Pdf (txt "a.pdf") (Some [None; None; Some (txt "x BOKF y")]))
           [None; None; Some (txt "x BOKF y")] 2).
  - reflexivity.
  - cbn. auto.
  - cbn. lia.
  - exists (txt "x BOKF y"). split; [reflexivity|].
    right. right. now exists (txt "x "), (txt " y").
Defined.



(** ** The aggregate total *)






Lemma save_to_excel_report (rs : list FieldExtractionResult)
      (report : AggregateReport) :
  CombinedStatementParser.save_to_excel rs = Ok (Some report) ->
  rs <> []
  /\ is_inf (column_sum (map Closing_Value rs)) = false
  /\ report
     = Report (column_sum
                 (map Closing_Value
                      (filter (of_institution WellsFargoAdvisors) rs)))
              (column_sum
                 (map Closing_Value
                      (filter (of_institution BOKFinancial) rs)))
              (column_sum (map Closing_Value rs))
              (count_complete rs) (List.length rs).
Proof.
  unfold CombinedStatementParser.save_to_excel,
    CombinedStatementParser.write_number.
  destruct rs as [|r rs]; [discriminate|]. cbv zeta.
  destruct (is_inf _); cbn [bind]; [discriminate|].
  intros H. injection H as <-. repeat split. discriminate.
Qed.



(** ** Locating the page *)

Lemma Matches_Lit_inv (l : text) :
  forall (bef s aft : text) (c c' : option text),
    Matches false (Lit l) bef s aft c c' -> s = l /\ c' = c.
Proof.
  induction l as [|x l IH]; intros bef s aft c c' M; cbn [Lit] in M.
  - inversion M; subst. now split.
  - inversion M as [| |? ? ? ? ? ? ? ? ? M1 M2| | | | | | | |]; subst.
    inversion M1 as [|? ? ? ? ? K| | | | | | | | |]; subst.
    apply IH in M2. destruct M2 as [-> ->].
    cbn [in_class] in K. apply ascii_eqb_true in K. now subst.
Qed.

Lemma Matches_Lit_intro (l : text) :
  forall (bef aft : text) (c : option text),
    Matches false (Lit l) bef l aft c c.
Proof.
  induction l as [|x l IH]; intros bef aft c; cbn [Lit].
  - constructor.
  - change (x :: l) with ([x] ++ l). econstructor.
    + constructor. cbn [in_class]. apply ascii_eqb_refl.
    + apply IH.
Qed.

Ltac inv_seq M M1 M2 :=
  inversion M as [| |? ? ? ? ? ? ? ? ? M1 M2| | | | | | | |]; subst; clear M.

Ltac inv_star M F :=
  inversion M as [| | | | |? ? ? ? ? F| | | | |]; subst; clear M.

Ltac inv_cls M K :=
  inversion M as [|? ? ? ? ? K| | | | | | | | |]; subst; clear M.

Lemma page_2_of_denotes (bef s aft : text) (c c' : option text) :
  Matches false BOKFinancialParser.page_2_of bef s aft c c' <->
  exists w1 w2 w3 n,
    s = txt "Page" ++ w1 ++ txt "2" ++ w2 ++ txt "of" ++ w3 ++ n
    /\ forallb is_space w1 = true /\ forallb is_space w2 = true
    /\ forallb is_space w3 = true
    /\ n <> [] /\ forallb is_digit n = true /\ c' = c.
Proof.
  unfold BOKFinancialParser.page_2_of. cbn [Cat]. unfold Plus. split.
  - intros M.
    inv_seq M A1 R1. apply (Matches_Lit_inv (txt "Page")) in A1.
    destruct A1 as [-> ->].
    inv_seq R1 A2 R2. inv_star A2 F1.
    inv_seq R2 A3 R3. inv_cls A3 K. cbn [in_class ch] in K.
    apply ascii_eqb_true in K. subst.
    inv_seq R3 A4 R4. inv_star A4 F2.
    inv_seq R4 A5 R5. apply (Matches_Lit_inv (txt "of")) in A5.
    destruct A5 as [-> ->].
    inv_seq R5 A6 R6. inv_star A6 F3.
    inv_seq R6 A7 R7. inv_cls A7 K. inv_star R7 F4.
    eexists _, _, _, (_ :: _). repeat split; try eassumption.
    + discriminate.
    + cbn [forallb]. cbn [in_class d] in K. now rewrite K.
  - intros [w1 [w2 [w3 [n [-> [F1 [F2 [F3 [N [F4 ->]]]]]]]]]].
    destruct n as [|x n]; [contradiction|].
    cbn [forallb] in F4. apply andb_true_iff in F4. destruct F4 as [K F4].
    econstructor; [apply Matches_Lit_intro|].
    econstructor; [now constructor|].
    econstructor; [constructor; reflexivity|].
    econstructor; [now constructor|].
    econstructor; [apply Matches_Lit_intro|].
    econstructor; [now constructor|].
    change (x :: n) with ([x] ++ n).
    econstructor; now constructor.
Qed.

Lemma page_2_of_search (t : text) :
  is_some (re_search false BOKFinancialParser.page_2_of t) = true
  <-> page_2_of_N t.
Proof.
  rewrite re_search_iff. unfold page_2_of_N. split.
  - intros [pre [s [aft [c [-> M]]]]]. apply page_2_of_denotes in M.
    destruct M as [w1 [w2 [w3 [n [-> [F1 [F2 [F3 [N [F4 _]]]]]]]]]].
    exists pre, w1, w2, w3, n, aft.
    repeat split; try assumption. now rewrite <- !app_assoc.
  - intros [pre [w1 [w2 [w3 [n [post [-> H]]]]]]].
    exists pre, (txt "Page" ++ w1 ++ txt "2" ++ w2 ++ txt "of" ++ w3 ++ n),
      post, None.
    split; [now rewrite <- !app_assoc|].
    apply page_2_of_denotes. exists w1, w2, w3, n. tauto.
Qed.

Lemma first_page_some (test : text -> bool) (pages : list page) (t : text) :
  first_page test pages = Some t <->
  exists l1 l2,
    pages = l1 ++ Some t :: l2 /\ t <> [] /\ test t = true
    /\ forall u, In (Some u) l1 -> u = [] \/ test u = false.
Proof.
  induction pages as [|p pages IH]; cbn [first_page].
  - split; [discriminate|]. intros [l1 [l2 [E _]]]. now destruct l1.
  - assert (first_page test pages = Some t <->
            exists l1 l2, p :: pages = (p :: l1) ++ Some t :: l2 /\ t <> []
              /\ test t = true
              /\ forall u, In (Some u) l1 -> u = [] \/ test u = false) as IH'.
    { rewrite IH. split; intros [l1 [l2 [E H]]]; exists l1, l2.
      - now rewrite E.
      - injection E as E. now rewrite E. }
    destruct p as [[|c s]|].
    + rewrite IH'. split; intros [l1 [l2 [E [N [T H]]]]].
      * exists (Some [] :: l1), l2. repeat split; auto.
        intros u [U | U]; [left; congruence | now apply H].
      * destruct l1 as [|q l1]; cbn [app] in E; injection E as E1 E2.
        -- now subst.
        -- exists l1, l2. subst. repeat split; auto.
           intros u U. apply H. now right.
    + destruct (test (c :: s)) eqn:T.
      * split.
        -- intros E. injection E as <-. exists [], pages.
           repeat split; auto; [discriminate | intros u []].
        -- intros [l1 [l2 [E [N [T' H]]]]].
           destruct l1 as [|q l1]; cbn [app] in E; injection E as E1 E2.
           ++ now subst.
           ++ subst. destruct (H (c :: s)) as [U | U]; [now left | |];
                congruence.
      * rewrite IH'. split; intros [l1 [l2 [E [N [T' H]]]]].
        -- exists (Some (c :: s) :: l1), l2. repeat split; auto.
           intros u [U | U]; [right; congruence | now apply H].
        -- destruct l1 as [|q l1]; cbn [app] in E; injection E as E1 E2.
           ++ subst. congruence.
           ++ exists l1, l2. subst. repeat split; auto.
              intros u U. apply H. now right.
    + rewrite IH'. split; intros [l1 [l2 [E [N [T H]]]]].
      * exists (None :: l1), l2. repeat split; auto.
        intros u [U | U]; [discriminate | now apply H].
      * destruct l1 as [|q l1]; cbn [app] in E; injection E as E1 E2.
        -- discriminate.
        -- exists l1, l2. subst. repeat split; auto.
           intros u U. apply H. now right.
Qed.

Lemma first_page_none (test : text -> bool) (pages : list page) :
  first_page test pages = None <->
  forall u, In (Some u) pages -> u = [] \/ test u = false.
Proof.
  induction pages as [|p pages IH]; cbn [first_page].
  - split; [intros _ u [] | reflexivity].
  - destruct p as [[|c s]|].
    + rewrite IH. split; intros H u.
      * intros [U | U]; [left; congruence | now apply H].
      * intros U. apply H. now right.
    + destruct (test (c :: s)) eqn:T.
      * split; [discriminate|]. intros H.
        destruct (H (c :: s)) as [U | U]; [now left | |]; congruence.
      * rewrite IH. split; intros H u.
        -- intros [U | U]; [right; congruence | now apply H].
        -- intros U. apply H. now right.
    + rewrite IH. split; intros H u.
      * intros [U | U]; [discriminate | now apply H].
      * intros U. apply H. now right.
Qed.

Lemma overview_test_spec (t : text) :
  overview_test t = true <-> overview_page (Some t).
Proof.
  assert (overview_test t = true <->
          (page_2_of_N t \/ occurs (txt "Page2of") t)
          /\ account_overview_marker t) as H.
  { unfold overview_test, BOKFinancialParser.is_page_2,
      BOKFinancialParser.has_account_overview, account_overview_marker.
    rewrite <- page_2_of_search, <- !contains_spec, <- !orb_true_iff.
    destruct (is_some _ || contains (txt "Page2of") t); intuition discriminate. }
  rewrite H. unfold overview_page. split.
  - intros O. now exists t.
  - intros [u [E O]]. now injection E as <-.
Qed.

Lemma overview_page_text (t : text) : overview_page (Some t) -> t <> [].
Proof.
  intros [u [E [_ [H | H]]]]; injection E as <-;
    eapply occurs_nonempty; try exact H; discriminate.
Qed.

Lemma not_overview_page (p : page) :
  ~ overview_page p <->
  forall u, p = Some u -> u = [] \/ overview_test u = false.
Proof.
  split.
  - intros H u ->. right.
    destruct (overview_test u) eqn:T; [|reflexivity].
    now apply overview_test_spec in T.
  - intros H O. pose proof O as [t [-> _]].
    destruct (H t eq_refl) as [E | E].
    + now apply overview_page_text in O.
    + apply overview_test_spec in O. congruence.
Qed.

(** C7, where the claim fails: a page with the run-together token
    "Page2of" and no page count after it does not carry the label "Page
    2 of N" for any N, yet, having the marker, it is the page the
    locator returns. *)
Lemma page2of_without_count_is_located :
  BOKFinancialParser.find_account_overview_page
    (Some [Some (txt "Page2of AccountOverview")])
  = Some (txt "Page2of AccountOverview")
  /\ ~ page_2_of_N (txt "Page2of AccountOverview").
Proof.
  split; [reflexivity|].
  intros H. apply page_2_of_search in H. discriminate.
Qed.

(** C7, as the code has it.  The BOK locator returns the text of the
    first page, in page order, whose text carries the label "Page 2 of
    N" (white space between the words optional) or the token "Page2of"
    (with or without a page count), and also carries "AccountOverview"
    or "Account Overview".  When no page is such a page it returns
    nothing, whatever other pages there are; pages without text are
    passed over, and an unreadable document gives nothing. *)
Theorem overview_page_is_first_match :
  (forall (pages : list page) (t : text),
      BOKFinancialParser.find_account_overview_page (Some pages) = Some t <->
      exists l1 l2,
        pages = l1 ++ Some t :: l2 /\ overview_page (Some t)
        /\ forall p, In p l1 -> ~ overview_page p)
  /\ (forall pages : list page,
         BOKFinancialParser.find_account_overview_page (Some pages) = None <->
         forall p, In p pages -> ~ overview_page p)
  /\ BOKFinancialParser.find_account_overview_page None = None
  /\ BOKFinancialParser.find_account_overview_page
       (Some [None; Some (txt "Page 2 of 9"); None;
              Some (txt "Page2of9 AccountOverview");
              Some (txt "Page 2 of 9 Account Overview")])
     = Some (txt "Page2of9 AccountOverview")
  /\ BOKFinancialParser.find_account_overview_page
       (Some [Some (txt "Page 1 of 9 Account Overview"); None;
              Some (txt "Page 2 of 9")]) = None.
Proof.
  split; [|split; [|repeat split]].
  - intros pages t.
    change (BOKFinancialParser.find_account_overview_page (Some pages))
      with (first_page overview_test pages).
    rewrite first_page_some. split.
    + intros [l1 [l2 [E [N [T H]]]]]. exists l1, l2.
      repeat split; [exact E | now apply overview_test_spec |].
      intros p I. apply not_overview_page. intros u ->. now apply H.
    + intros [l1 [l2 [E [O H]]]]. exists l1, l2.
      repeat split; [exact E | now apply overview_page_text
                     | now apply overview_test_spec |].
      intros u I. apply (proj1 (not_overview_page (Some u)) (H _ I)).
      reflexivity.
  - intros pages.
    change (BOKFinancialParser.find_account_overview_page (Some pages))
      with (first_page overview_test pages).
    rewrite first_page_none. split.
    + intros H p I. apply not_overview_page. intros u ->. now apply H.
    + intros H u I. apply (proj1 (not_overview_page (Some u)) (H _ I)).
      reflexivity.
Qed.

Lemma overview_page_is_first_match_witness :
  exists l1 l2,
    [None; Some (txt "Page2of5 AccountOverview")]
    = l1 ++ Some (txt "Page2of5 AccountOverview") :: l2
    /\ overview_page (Some (txt "Page2of5 AccountOverview"))
    /\ forall p, In p l1 -> ~ overview_page p.
Proof.
  apply (proj1 (proj1 overview_page_is_first_match
                  [None; Some (txt "Page2of5 AccountOverview")]
                  (txt "Page2of5 AccountOverview"))).
  reflexivity.
Defined.

(** ** The closing value of a page with a collapsed label *)

Lemma capture_app (r b : text) :
  rev (firstn (List.length (r ++ b) - List.length b) (r ++ b)) = rev r.
Proof.
  rewrite <- (rev_involutive r) at 1 2. now rewrite firstn_rev_app.
Qed.

Ltac eval_classes :=
  repeat match goal with
  | |- context [in_class ?i ?k ?c] =>
      let b := eval vm_compute in (in_class i k c) in
      change (in_class i k c) with b
  end.

Ltac run_matcher :=
  cbn [hd Cat Lit Plus Opt amount txt list_ascii_of_string app];
  repeat (progress (cbn [rmatch ahead before group1]; eval_classes; cbv iota;
                    cbn [star]; eval_classes; cbv iota)).

Lemma wfa_hit (bef post : text) :
  exists st,
    rmatch true (hd Eps WFAParser.patterns)
           (MState bef (collapsed_label ++ post) None) (fun st => Some st)
    = Some st
    /\ group1 st = Some (txt "45,156.04").
Proof.
  eexists. split.
  - unfold WFAParser.patterns, collapsed_label. run_matcher.
    reflexivity.
  - cbn [group1].
    match goal with
    | |- Some (rev (firstn (List.length ?l - List.length ?b) ?l)) = _ =>
        exact (f_equal Some (capture_app (rev (txt "45,156.04")) b))
    end.
Qed.

(** ** The account section of a file name *)

Lemma Matches_Seq_iff (ic : bool) (a b : re) (bef s aft : text)
      (c c' : option text) :
  Matches ic (Seq a b) bef s aft c c' <->
  exists s1 s2 c1,
    s = s1 ++ s2 /\ Matches ic a bef s1 (s2 ++ aft) c c1
    /\ Matches ic b (rev s1 ++ bef) s2 aft c1 c'.
Proof.
  split.
  - intros M. inv_seq M M1 M2. eexists _, _, _. eauto.
  - intros [s1 [s2 [c1 [-> [M1 M2]]]]]. econstructor; eauto.
Qed.

Lemma Matches_Cls_iff (ic : bool) (k : cclass) (bef s aft : text)
      (c c' : option text) :
  Matches ic (Cls k) bef s aft c c' <->
  exists x, s = [x] /\ in_class ic k x = true /\ c' = c.
Proof.
  split.
  - intros M. inv_cls M K. eexists. eauto.
  - intros [x [-> [K ->]]]. now constructor.
Qed.

Lemma Matches_Plus_digits (bef s aft : text) (c c' : option text) :
  Matches false (Plus d) bef s aft c c' <-> digits s /\ c' = c.
Proof.
  unfold Plus, digits. rewrite Matches_Seq_iff. split.
  - intros [s1 [s2 [c1 [-> [M1 M2]]]]].
    inv_cls M1 K. inv_star M2 F.
    change (in_class false d) with is_digit in *.
    repeat split; [discriminate | cbn [app forallb]; now rewrite K, F].
  - intros [[N F] ->]. destruct s as [|x s]; [contradiction|].
    cbn [forallb] in F. apply andb_true_iff in F. destruct F as [K F].
    exists [x], s, c. repeat split; now constructor.
Qed.

Lemma Matches_char (x : ascii) (bef s aft : text) (c c' : option text) :
  Matches false (Cls (ch x)) bef s aft c c' <-> s = [x] /\ c' = c.
Proof.
  rewrite Matches_Cls_iff. cbn [in_class ch]. split.
  - intros [y [-> [K ->]]]. apply ascii_eqb_true in K. now subst.
  - intros [-> ->]. exists x. repeat split. apply ascii_eqb_refl.
Qed.

Lemma Matches_Opt_iff (ic : bool) (a : re) (bef s aft : text)
      (c c' : option text) :
  Matches ic (Opt a) bef s aft c c' <->
  Matches ic a bef s aft c c' \/ (s = [] /\ c' = c).
Proof.
  unfold Opt. split.
  - intros M. inversion M as [| | |? ? ? ? ? ? ? L|? ? ? ? ? ? ? R| | | | | |];
      subst; [now left | right]. inversion R; now subst.
  - intros [M | [-> ->]]; [now apply M_AltL | apply M_AltR; constructor].
Qed.

Lemma Matches_Grp_iff (ic : bool) (a : re) (bef s aft : text)
      (c c' : option text) :
  Matches ic (Grp a) bef s aft c c' <->
  c' = Some s /\ exists c1, Matches ic a bef s aft c c1.
Proof.
  split.
  - intros M. inversion M; subst. split; [reflexivity | eauto].
  - intros [-> [c1 M]]. now econstructor; eauto.
Qed.

Lemma bok_account_denotes (bef s aft : text) (c c' : option text) :
  Matches false bok_account bef s aft c c' <->
  dash_dot_number s /\ c' = Some s.
Proof.
  unfold bok_account, dash_dot_number. cbn [Cat].
  rewrite Matches_Grp_iff. split.
  - intros [-> [c1 M]]. split; [|reflexivity].
    apply Matches_Seq_iff in M. destruct M as [d1 [r1 [? [-> [D1 M]]]]].
    apply Matches_Plus_digits in D1. destruct D1 as [D1 ->].
    apply Matches_Seq_iff in M. destruct M as [x1 [r2 [? [-> [X1 M]]]]].
    apply Matches_char in X1. destruct X1 as [-> ->].
    apply Matches_Seq_iff in M. destruct M as [d2 [r3 [? [-> [D2 M]]]]].
    apply Matches_Plus_digits in D2. destruct D2 as [D2 ->].
    apply Matches_Seq_iff in M. destruct M as [x2 [d3 [? [-> [X2 M]]]]].
    apply Matches_char in X2. destruct X2 as [-> ->].
    apply Matches_Plus_digits in M. destruct M as [D3 ->].
    now exists d1, d2, d3.
  - intros [[d1 [d2 [d3 [-> [D1 [D2 D3]]]]]] ->].
    split; [reflexivity|]. exists c.
    apply Matches_Seq_iff. exists d1, (txt "-" ++ d2 ++ txt "." ++ d3), c.
    repeat split; [now apply Matches_Plus_digits|].
    apply Matches_Seq_iff. exists (txt "-"), (d2 ++ txt "." ++ d3), c.
    repeat split; [now apply Matches_char|].
    apply Matches_Seq_iff. exists d2, (txt "." ++ d3), c.
    repeat split; [now apply Matches_Plus_digits|].
    apply Matches_Seq_iff. exists (txt "."), d3, c.
    repeat split; [now apply Matches_char | now apply Matches_Plus_digits].
Qed.

Lemma wfa_account_denotes (bef s aft : text) (c c' : option text) :
  Matches false BOK.wfa_account bef s aft c c' <->
  dash_number s /\ c' = Some s.
Proof.
  unfold BOK.wfa_account, dash_number. cbn [Cat].
  rewrite Matches_Grp_iff. split.
  - intros [-> [c1 M]]. split; [|reflexivity].
    apply Matches_Seq_iff in M. destruct M as [d1 [r1 [? [-> [D1 M]]]]].
    apply Matches_Plus_digits in D1. destruct D1 as [D1 ->].
    apply Matches_Seq_iff in M. destruct M as [x1 [r2 [? [-> [X1 M]]]]].
    apply Matches_char in X1. destruct X1 as [-> ->].
    apply Matches_Seq_iff in M. destruct M as [d2 [sfx [? [-> [D2 M]]]]].
    apply Matches_Plus_digits in D2. destruct D2 as [D2 ->].
    exists d1, d2, sfx.
    split; [reflexivity|]. split; [exact D1|]. split; [exact D2|].
    apply Matches_Opt_iff in M. destruct M as [M | [-> _]]; [right | now left].
    apply Matches_Seq_iff in M. destruct M as [x2 [d3 [? [-> [X2 M]]]]].
    apply Matches_char in X2. destruct X2 as [-> ->].
    apply Matches_Plus_digits in M. destruct M as [D3 ->].
    now exists d3.
  - intros [[d1 [d2 [sfx [-> [D1 [D2 S]]]]]] ->].
    split; [reflexivity|]. exists c.
    apply Matches_Seq_iff. exists d1, (txt "-" ++ d2 ++ sfx), c.
    repeat split; [now apply Matches_Plus_digits|].
    apply Matches_Seq_iff. exists (txt "-"), (d2 ++ sfx), c.
    repeat split; [now apply Matches_char|].
    apply Matches_Seq_iff. exists d2, sfx, c.
    repeat split; [now apply Matches_Plus_digits|].
    apply Matches_Opt_iff. destruct S as [-> | [d3 [-> D3]]]; [now right | left].
    apply Matches_Seq_iff. exists (txt "."), d3, c.
    repeat split; [now apply Matches_char | now apply Matches_Plus_digits].
Qed.

(** What [re.search] answers for a pattern that denotes the property
    [P] and captures the whole match. *)
Lemma search_denotes (r : re) (P : text -> Prop) (t : text) :
  (forall bef s aft c c',
      Matches false r bef s aft c c' <-> P s /\ c' = Some s) ->
  (has_piece P t ->
   exists m a, re_search false r t = Some m /\ group1 m = Some a
               /\ P a /\ occurs a t)
  /\ (~ has_piece P t -> re_search false r t = None).
Proof.
  intros D.
  assert (forall m, re_search false r t = Some m ->
                    exists a, group1 m = Some a /\ P a /\ occurs a t) as S.
  { intros m H. apply search_from_sound in H.
    destruct H as [pre [s [aft [c [-> [M ->]]]]]].
    apply D in M. destruct M as [Ps ->].
    exists s. repeat split; [assumption | now exists pre, aft]. }
  split.
  - intros [pre [s [post [-> Ps]]]].
    destruct (re_search false r (pre ++ s ++ post)) as [m|] eqn:E.
    + destruct (S m eq_refl) as [a H]. now exists m, a.
    + exfalso.
      assert (is_some (re_search false r (pre ++ s ++ post)) = true) as T.
      { apply re_search_iff. exists pre, s, post, (Some s).
        split; [reflexivity|]. now apply D. }
      rewrite E in T. discriminate.
  - intros N. destruct (re_search false r t) as [m|] eqn:E; [|reflexivity].
    destruct (S m eq_refl) as [a [_ [Pa [pre [post O]]]]].
    exfalso. apply N. now exists pre, a, post.
Qed.

Lemma rsplit1_some_contains (sep s a b : text) :
  rsplit1 sep s = Some (a, b) -> contains sep s = true.
Proof. intros H. apply rsplit1_app in H. subst. apply contains_app. Qed.

Lemma extract_with_separator (filename name_part account_part : text) :
  rsplit1 (txt " - ") (remove_all (txt ".pdf") filename)
  = Some (name_part, account_part) ->
  BOK.extract_beneficiary_and_account filename
  = let beneficiary := BOK.scan_words (rev (split (strip name_part))) in
    match re_search false bok_account (strip account_part) with
    | Some m => Ok (beneficiary, group1 m)
    | None =>
        match re_search false BOK.wfa_account (strip account_part) with
        | Some m => Ok (beneficiary, group1 m)
        | None =>
            w <- first_token (strip account_part) ;;
            Ok (beneficiary, Some w)
        end
    end.
Proof.
  intros H. unfold BOK.extract_beneficiary_and_account.
  rewrite (rsplit1_some_contains _ _ H), H. reflexivity.
Qed.

(** ** The beneficiary code *)

Lemma in_class_A_Z (x : ascii) :
  in_class true (CRange "A" "Z") x = is_letter x.
Proof. destruct x as [[] [] [] [] [] [] [] []]; reflexivity. Qed.

Lemma is_letter_word (x : ascii) : is_letter x = true -> is_word x = true.
Proof.
  destruct x as [[] [] [] [] [] [] [] []]; vm_compute; intros H;
    try discriminate; reflexivity.
Qed.

Lemma not_space_not_newline (x : ascii) :
  negb (is_space x) = true -> ascii_eqb x "010" = false.
Proof.
  destruct x as [[] [] [] [] [] [] [] []]; vm_compute; intros H;
    try discriminate; reflexivity.
Qed.

Lemma split_from_no_space (cur s : text) :
  no_space cur -> Forall no_space (split_from cur s).
Proof.
  unfold no_space.
  revert cur; induction s as [|c s IH]; intros cur C; cbn [split_from].
  - destruct cur as [|x cur]; constructor; [|constructor].
    rewrite forallb_forall in *. intros y I. apply C. now apply in_rev.
  - destruct (is_space c) eqn:S.
    + destruct cur as [|x cur]; [now apply IH|].
      constructor; [|now apply IH].
      rewrite forallb_forall in *. intros y I. apply C. now apply in_rev.
    + apply IH. cbn [forallb]. now rewrite S, C.
Qed.

Lemma split_no_space (s : text) : Forall no_space (split s).
Proof. now apply split_from_no_space. Qed.

Ltac use_char_facts :=
  repeat match goal with
  | H : is_letter ?x = _ |- context [is_letter ?x] => rewrite H
  | H : is_word ?x = _ |- context [is_word ?x] => rewrite H
  | H : ascii_eqb ?x ?y = _ |- context [ascii_eqb ?x ?y] => rewrite H
  end.

Ltac run_symbolic :=
  repeat (progress (unfold Opt, at_boundary;
                    cbn [rmatch ahead before group1 is_some xorb];
                    rewrite ?in_class_A_Z; cbn [in_class];
                    use_char_facts; cbv iota)).

Lemma is_code_short_alpha (w : text) :
  no_space w -> BOK.is_code w = is_short_alpha w.
Proof.
  unfold no_space, BOK.is_code, is_short_alpha, re_match, BOK.code_pattern,
    BOK.A_Z.
  cbn [Cat Opt].
  destruct w as [|a [|b [|c [|e [|g w]]]]]; cbn [forallb]; intros N;
    repeat match type of N with
    | (_ && _) = true =>
        let X := fresh "X" in
        apply andb_true_iff in N; destruct N as [X N];
        apply not_space_not_newline in X
    end;
    cbn [List.length Nat.leb andb].
  - reflexivity.
  - destruct (is_letter a) eqn:La; run_symbolic; reflexivity.
  - destruct (is_letter a) eqn:La, (is_letter b) eqn:Lb; run_symbolic;
      reflexivity.
  - destruct (is_letter a) eqn:La, (is_letter b) eqn:Lb,
      (is_letter c) eqn:Lc; run_symbolic; reflexivity.
  - destruct (is_letter a) eqn:La, (is_letter b) eqn:Lb,
      (is_letter c) eqn:Lc, (is_letter e) eqn:Le; run_symbolic; reflexivity.
  - destruct (is_letter a) eqn:La, (is_letter b) eqn:Lb,
      (is_letter c) eqn:Lc, (is_letter e) eqn:Le; run_symbolic;
      try reflexivity; destruct w; run_symbolic; reflexivity.
Qed.

Ltac eval_closed_lower :=
  repeat match goal with
  | |- context [to_lower (Ascii ?b0 ?b1 ?b2 ?b3 ?b4 ?b5 ?b6 ?b7)] =>
      let v := eval vm_compute in
               (to_lower (Ascii b0 b1 b2 b3 b4 b5 b6 b7)) in
      change (to_lower (Ascii b0 b1 b2 b3 b4 b5 b6 b7)) with v
  end.

Ltac split_on_letters :=
  repeat (run_symbolic; eval_closed_lower; cbn [andb orb];
          match goal with
          | |- context [ascii_eqb ?x (to_lower ?y)] =>
              destruct (ascii_eqb x (to_lower y))
          end);
  run_symbolic; cbn [andb orb].

Lemma is_warehouse_marker (w : text) :
  is_short_alpha w = true -> BOK.is_warehouse w = is_marker w.
Proof.
  unfold is_short_alpha.
  destruct w as [|a [|b [|c [|e [|g w]]]]]; cbn [List.length Nat.leb andb forallb];
    try discriminate; intros L;
    repeat match type of L with
    | (_ && _) = true =>
        let X := fresh "X" in
        apply andb_true_iff in L; destruct L as [X L];
        apply is_letter_word in X
    end;
    unfold BOK.is_warehouse, is_marker, re_match, BOK.warehouse_pattern,
      warehouse_markers;
    cbn [Cat Lit txt list_ascii_of_string existsb text_eqb lower map].
  - split_on_letters; reflexivity.
  - split_on_letters; reflexivity.
  - split_on_letters; reflexivity.
Qed.

Lemma scan_words_rule (words : list text) :
  Forall no_space words ->
  BOK.scan_words words
  = option_map upper
      (find (fun w => negb (is_marker w) && is_short_alpha w) words).
Proof.
  induction 1 as [|w words N _ IH]; [reflexivity|].
  cbn [BOK.scan_words find].
  rewrite (is_code_short_alpha N).
  destruct (is_short_alpha w) eqn:A.
  - rewrite (is_warehouse_marker _ A).
    destruct (is_marker w); [exact IH | reflexivity].
  - rewrite andb_false_r. now destruct (BOK.is_warehouse w).
Qed.

Lemma no_space_rev (words : list text) :
  Forall no_space words -> Forall no_space (rev words).
Proof. apply Forall_rev. Qed.

(** C6.  For a file name with the " - " separator, the beneficiary is
    found in the words of the name section (what precedes the last
    separator), read from the last word backwards: words that are a
    warehouse marker (WH, Warehouse, Whse, Whouse, Warehse, in any mix
    of cases) are passed over, and the first word made of two to four
    letters that is not a marker is the beneficiary, in capitals; there
    is no beneficiary when no word qualifies.  For "Kamal Alhajli WH BIC
    - 3719-3369.pdf" the beneficiary is "BIC" and the account
    "3719-3369". *)
Theorem beneficiary_is_last_code_word :
  (forall (filename name_part account_part : text)
          (b a : option text),
      rsplit1 (txt " - ") (remove_all (txt ".pdf") filename)
      = Some (name_part, account_part) ->
      BOK.extract_beneficiary_and_account filename = Ok (b, a) ->
      b = beneficiary_in_words (strip name_part)
      /\ (b = None <->
          forall w, In w (split (strip name_part)) ->
                    is_marker w = true \/ is_short_alpha w = false))
  /\ (forall filename : text,
         contains (txt " - ") (remove_all (txt ".pdf") filename) = true ->
         exists name_part account_part,
           rsplit1 (txt " - ") (remove_all (txt ".pdf") filename)
           = Some (name_part, account_part)
           /\ remove_all (txt ".pdf") filename
              = name_part ++ txt " - " ++ account_part
           /\ forall n' a',
               remove_all (txt ".pdf") filename = n' ++ txt " - " ++ a' ->
               List.length n' <= List.length name_part)
  /\ BOK.extract_beneficiary_and_account
       (txt "Kamal Alhajli WH BIC - 3719-3369.pdf")
     = Ok (Some (txt "BIC"), Some (txt "3719-3369"))
  /\ BOK.extract_beneficiary_and_account
       (txt "Kamal Alhajli bic wHoUsE whse Warehouse WAREHSE wh - 3719-3369.pdf")
     = Ok (Some (txt "BIC"), Some (txt "3719-3369"))
  /\ BOK.extract_beneficiary_and_account
       (txt "Kamal Alhajli Warehouse - 3719-3369.pdf")
     = Ok (None, Some (txt "3719-3369")).
Proof.
  split; [|split; [|repeat split; reflexivity]].
  2:{ intros filename C.
      assert (txt " - " <> []) as NE by discriminate.
      destruct (rsplit1_contains _ NE C) as [n [a R]].
      exists n, a. split; [exact R|]. split; [now apply rsplit1_app|].
      apply (rsplit1_last NE R). }
  intros filename name_part account_part b a H E.
  assert (b = BOK.scan_words (rev (split (strip name_part)))) as B.
  { rewrite (extract_with_separator _ H) in E. cbv zeta in E.
    destruct (re_search false bok_account _); [now injection E|].
    destruct (re_search false BOK.wfa_account _); [now injection E|].
    destruct (first_token _); [now injection E | discriminate]. }
  rewrite scan_words_rule in B by (apply no_space_rev, split_no_space).
  split; [exact B|].
  rewrite B. unfold beneficiary_in_words.
  destruct (find _ _) as [w|] eqn:F; cbn [option_map].
  - split; [discriminate|]. intros A. exfalso.
    apply find_some in F. destruct F as [I F].
    apply in_rev in I. apply andb_true_iff in F. destruct F as [F1 F2].
    apply negb_true_iff in F1. destruct (A w I); congruence.
  - split; [|reflexivity]. intros _ w I.
    pose proof (find_none _ _ F w (proj1 (in_rev _ _) I)) as G.
    cbv beta in G.
    destruct (is_marker w), (is_short_alpha w); auto; discriminate.
Qed.

Lemma beneficiary_is_last_code_word_witness :
  Some (txt "DAC") = beneficiary_in_words (strip (txt "Auto Lane Re DAC")).
Proof.
  apply (proj1 beneficiary_is_last_code_word
           (txt "Auto Lane Re DAC - 3292-9150.pdf")
           (txt "Auto Lane Re DAC") (txt "3292-9150")
           (Some (txt "DAC")) (Some (txt "3292-9150")));
    reflexivity.
Defined.

(** ** Captured amounts always convert *)

Lemma digit_or_comma_cases (ic : bool) (x : ascii) :
  in_class ic digit_or_comma x = true -> is_digit x = true \/ x = ","%char.
Proof.
  destruct ic, x as [[] [] [] [] [] [] [] []]; vm_compute; intros H;
    try discriminate; auto.
Qed.

Lemma point_cases (ic : bool) (x : ascii) :
  in_class ic (ch ".") x = true -> x = "."%char.
Proof.
  destruct ic, x as [[] [] [] [] [] [] [] []]; vm_compute; intros H;
    try discriminate; auto.
Qed.

Lemma digit_facts (x : ascii) :
  is_digit x = true ->
  ascii_eqb "," x = false /\ ascii_eqb x "-" = false
  /\ ascii_eqb x "+" = false /\ (0 <= digit_val x)%Z.
Proof.
  destruct x as [[] [] [] [] [] [] [] []]; vm_compute; intros H;
    try discriminate; repeat split; discriminate.
Qed.

Lemma remove_comma_filter (s : text) :
  remove_all (txt ",") s = filter (fun x => negb (ascii_eqb "," x)) s.
Proof.
  unfold remove_all. induction s as [|x s IH]; [reflexivity|].
  cbn [remove_from filter txt list_ascii_of_string starts_with List.length
       Nat.sub].
  rewrite andb_true_r. destruct (ascii_eqb "," x); cbn [negb];
    [exact IH | now f_equal].
Qed.

Lemma numeral_frac (fs : text) :
  forall (acc : Z) (den : positive) (nd : nat),
    forallb is_digit fs = true -> (0 <= acc)%Z -> 0 < nd + List.length fs ->
    exists v, numeral fs acc den true nd = Some v /\ (0 <= v)%Q.
Proof.
  induction fs as [|x fs IH]; intros acc den nd F A L; cbn [numeral].
  - cbn [List.length] in L. destruct nd as [|nd]; [lia|].
    cbn [Nat.eqb]. eexists. split; [reflexivity|].
    unfold Qle. cbn [Qnum Qden]. lia.
  - cbn [forallb] in F. apply andb_true_iff in F. destruct F as [D F].
    rewrite D. apply IH; [exact F | | cbn [List.length]; lia].
    pose proof (digit_facts x D) as [_ [_ [_ P]]]. lia.
Qed.

Lemma numeral_int (ds fs : text) :
  forall (acc : Z) (den : positive) (nd : nat),
    forallb is_digit ds = true -> forallb is_digit fs = true ->
    (0 <= acc)%Z -> 0 < nd + List.length ds + List.length fs ->
    exists v,
      numeral (ds ++ "."%char :: fs) acc den false nd = Some v /\ (0 <= v)%Q.
Proof.
  induction ds as [|x ds IH]; intros acc den nd D F A L; cbn [app numeral].
  - change (is_digit ".") with false.
    change (ascii_eqb "." "." && negb false) with true. cbv iota.
    apply numeral_frac; [exact F | exact A | cbn [List.length] in L; lia].
  - cbn [forallb] in D. apply andb_true_iff in D. destruct D as [X D].
    rewrite X. apply IH; [exact D | exact F | | cbn [List.length] in *; lia].
    pose proof (digit_facts x X) as [_ [_ [_ P]]]. lia.
Qed.

Lemma filter_digits_or_commas (ic : bool) (s : text) :
  forallb (in_class ic digit_or_comma) s = true ->
  forallb is_digit (filter (fun x => negb (ascii_eqb "," x)) s) = true.
Proof.
  induction s as [|x s IH]; [reflexivity|].
  cbn [forallb filter]. intros H. apply andb_true_iff in H.
  destruct H as [K H]. apply digit_or_comma_cases in K.
  destruct K as [K | ->].
  - destruct (digit_facts x K) as [C _]. rewrite C. cbn [negb forallb].
    now rewrite K, IH.
  - rewrite ascii_eqb_refl. cbn [negb]. now apply IH.
Qed.

(** Whatever the pattern [amount] matches converts to a number, and to
    a non-negative one: in the loops over the value patterns the
    conversion never fails. *)
Lemma amount_float (ic : bool) (bef s aft : text) (c c' : option text) :
  Matches ic amount bef s aft c c' ->
  exists v, py_float (remove_all (txt ",") s) = Some v /\ (0 <= v)%Q.
Proof.
  unfold amount. cbn [Cat]. unfold Plus. intros M.
  apply Matches_Seq_iff in M. destruct M as [h [r1 [ca [-> [M1 M]]]]].
  apply Matches_Seq_iff in M1. destruct M1 as [h1 [s2 [cb [-> [A1 A2]]]]].
  apply Matches_Cls_iff in A1. destruct A1 as [x [-> [K1 ->]]].
  inv_star A2 F.
  apply Matches_Seq_iff in M. destruct M as [p [r2 [cc [-> [M2 M]]]]].
  apply Matches_Cls_iff in M2. destruct M2 as [y [-> [K2 ->]]].
  apply point_cases in K2. subst y.
  apply Matches_Seq_iff in M. destruct M as [f1 [f2 [cd [-> [M3 M4]]]]].
  apply Matches_Cls_iff in M3. destruct M3 as [x0 [-> [K3 ->]]].
  apply Matches_Cls_iff in M4. destruct M4 as [x1 [-> [K4 ->]]].
  cbn [in_class d] in K3, K4.
  rewrite remove_comma_filter, filter_app.
  assert (forallb is_digit
            (filter (fun x => negb (ascii_eqb "," x)) ([x] ++ s2)) = true) as D
      by (apply (@filter_digits_or_commas ic); cbn [app forallb];
          now rewrite K1, F).
  destruct (digit_facts _ K3) as [C3 _]. destruct (digit_facts _ K4) as [C4 _].
  remember (filter (fun x => negb (ascii_eqb "," x)) ([x] ++ s2)) as ds
    eqn:Eds.
  clear Eds. cbn [filter app]. rewrite C3, C4.
  change (negb (ascii_eqb "," ".")) with true. cbn [negb app]. cbv iota.
  assert (exists v, numeral (ds ++ "."%char :: [x0; x1]) 0 1 false 0 = Some v
                    /\ (0 <= v)%Q) as N.
  { apply numeral_int; [exact D | cbn [forallb]; now rewrite K3, K4 | lia |].
    cbn [List.length]. lia. }
  unfold py_float. destruct ds as [|y ds']; cbn [app] in *.
  - change (ascii_eqb "." "-") with false.
    change (ascii_eqb "." "+") with false. exact N.
  - cbn [forallb] in D. apply andb_true_iff in D. destruct D as [Y _].
    destruct (digit_facts y Y) as [_ [Y1 [Y2 _]]]. now rewrite Y1, Y2.
Qed.


(** * Further properties *)

(** ** File names: when an account is returned *)

Lemma blank_rev (s : text) : blank (rev s) <-> blank s.
Proof.
  unfold blank. rewrite !forallb_forall. split; intros H x I; apply H.
  - now apply in_rev in I.
  - now apply in_rev.
Qed.

Lemma lstrip_nil_iff (s : text) : lstrip s = [] <-> blank s.
Proof.
  unfold blank. induction s as [|c s IH]; cbn [lstrip forallb].
  - tauto.
  - destruct (is_space c); cbn [andb]; [exact IH|].
    split; discriminate.
Qed.

Lemma lstrip_head (s : text) (x : ascii) (r : text) :
  lstrip s = x :: r -> is_space x = false.
Proof.
  induction s as [|c s IH]; cbn [lstrip]; [discriminate|].
  destruct (is_space c) eqn:S; [exact IH|].
  intros H. injection H as <- _. exact S.
Qed.

Lemma lstrip_blank_nil (s : text) : blank (lstrip s) -> lstrip s = [].
Proof.
  destruct (lstrip s) as [|x r] eqn:E; [reflexivity|].
  apply lstrip_head in E. unfold blank. cbn [forallb]. now rewrite E.
Qed.

Lemma strip_nil_iff (s : text) : strip s = [] <-> blank s.
Proof.
  unfold strip, rstrip. split.
  - intros H. apply (f_equal (@rev ascii)) in H.
    rewrite rev_involutive in H. cbn [rev] in H.
    apply lstrip_nil_iff, blank_rev, lstrip_blank_nil in H.
    now apply lstrip_nil_iff.
  - intros H. apply lstrip_nil_iff in H. rewrite H. reflexivity.
Qed.

Lemma strip_blank_nil (s : text) : blank (strip s) -> strip s = [].
Proof.
  unfold strip, rstrip. intros H. apply blank_rev, lstrip_blank_nil in H.
  now rewrite H.
Qed.

Lemma split_from_nil_iff (cur s : text) :
  split_from cur s = [] <-> cur = [] /\ blank s.
Proof.
  unfold blank. revert cur; induction s as [|c s IH]; intros cur;
    cbn [split_from forallb].
  - destruct cur; split; try discriminate; intuition discriminate.
  - destruct (is_space c); cbn [andb].
    + destruct cur as [|x cur]; [apply IH|].
      split; [discriminate | intros [E _]; discriminate].
    + rewrite IH. split; [intros [E _]; discriminate | intros [_ E]; discriminate].
Qed.

Lemma split_nil_iff (s : text) : split s = [] <-> blank s.
Proof. unfold split. rewrite split_from_nil_iff. tauto. Qed.

Lemma first_token_strip (s : text) :
  (blank s -> first_token (strip s) = Raise IndexError)
  /\ (~ blank s -> exists w, first_token (strip s) = Ok w).
Proof.
  unfold first_token. split.
  - intros B. apply strip_nil_iff in B. now rewrite B.
  - intros N. destruct (split (strip s)) as [|w ws] eqn:E; [|now exists w].
    exfalso. apply N, strip_nil_iff, strip_blank_nil, split_nil_iff, E.
Qed.

Lemma contains_false_rsplit1 (sep s : text) :
  sep <> [] -> contains sep s = false -> rsplit1 sep s = None.
Proof.
  intros N C. destruct (rsplit1 sep s) as [[a b]|] eqn:E; [|reflexivity].
  apply rsplit1_some_contains in E. congruence.
Qed.

Lemma name_shape (filename : text) :
  contains (txt " - ") (remove_all (txt ".pdf") filename) = false
  \/ exists name_part account_part,
       rsplit1 (txt " - ") (remove_all (txt ".pdf") filename)
       = Some (name_part, account_part).
Proof.
  destruct (contains (txt " - ") (remove_all (txt ".pdf") filename)) eqn:C;
    [right | now left].
  assert (txt " - " <> []) as NE by discriminate.
  exact (rsplit1_contains _ NE C).
Qed.


Lemma occurs_trans (a b c : text) : occurs a b -> occurs b c -> occurs a c.
Proof.
  intros [p1 [q1 ->]] [p2 [q2 ->]]. exists (p2 ++ p1), (q1 ++ q2).
  now rewrite <- !app_assoc.
Qed.

Lemma lstrip_suffix (s : text) : exists p, s = p ++ lstrip s.
Proof.
  induction s as [|c s [p IH]]; [now exists []|].
  cbn [lstrip]. destruct (is_space c); [|now exists []].
  exists (c :: p). cbn [app]. now f_equal.
Qed.

Lemma occurs_strip (s : text) : occurs (strip s) s.
Proof.
  unfold strip, rstrip.
  destruct (lstrip_suffix s) as [q Q].
  destruct (lstrip_suffix (rev (lstrip s))) as [p P].
  exists q, (rev p). rewrite Q at 1. f_equal.
  apply (f_equal (@rev ascii)) in P.
  now rewrite rev_involutive, rev_app_distr in P.
Qed.

Lemma split_from_occurs (s cur w : text) :
  In w (split_from cur s) -> occurs w (rev cur ++ s).
Proof.
  revert cur; induction s as [|c s IH]; intros cur; cbn [split_from].
  - destruct cur as [|x cur]; [intros []|].
    intros [<- | []]. now exists [], [].
  - destruct (is_space c).
    + destruct cur as [|x cur].
      * intros I. apply IH in I. destruct I as [p [q E]].
        cbn [rev app] in *. exists (c :: p), q. cbn [app]. now f_equal.
      * intros [<- | I]; [now exists [], (c :: s)|].
        apply IH in I. destruct I as [p [q E]]. cbn [rev app] in E.
        exists (rev (x :: cur) ++ c :: p), q. rewrite E.
        now rewrite <- !app_assoc.
    + intros I. apply IH in I. cbn [rev] in I.
      now rewrite <- app_assoc in I.
Qed.

Lemma first_token_occurs (s w : text) :
  first_token s = Ok w -> occurs w s /\ no_space w /\ w <> [].
Proof.
  intros H. pose proof (first_token_nonempty _ H) as N.
  unfold first_token in H. destruct (split s) as [|x ws] eqn:E; [discriminate|].
  injection H as ->. repeat split; [| |exact N].
  - apply (@split_from_occurs s [] w). fold (split s). rewrite E. now left.
  - pose proof (split_no_space s) as F. rewrite E in F. now inversion F.
Qed.

Lemma digits_no_space (s : text) : digits s -> no_space s.
Proof.
  intros [_ D]. unfold no_space. rewrite forallb_forall in *.
  intros x I. specialize (D x I).
  revert D. clear. destruct x as [[] [] [] [] [] [] [] []]; vm_compute;
    intros H; try discriminate; reflexivity.
Qed.

Lemma no_space_app (a b : text) : no_space a -> no_space b -> no_space (a ++ b).
Proof. unfold no_space. intros A B. now rewrite forallb_app, A, B. Qed.

Lemma general_account_denotes (bef s aft : text) (c c' : option text) :
  Matches false general_account bef s aft c c' <->
  general_number s /\ c' = Some s.
Proof.
  unfold general_account, general_number. cbn [Cat].
  rewrite Matches_Grp_iff. split.
  - intros [-> [c1 M]]. split; [|reflexivity].
    apply Matches_Seq_iff in M. destruct M as [d1 [r1 [ca [-> [D1 M]]]]].
    apply Matches_Plus_digits in D1. destruct D1 as [D1 ->].
    apply Matches_Seq_iff in M. destruct M as [x1 [r2 [cb [-> [X1 M]]]]].
    apply Matches_Cls_iff in X1. destruct X1 as [sep [-> [K ->]]].
    apply Matches_Seq_iff in M. destruct M as [d2 [sfx [cc [-> [D2 M]]]]].
    apply Matches_Plus_digits in D2. destruct D2 as [D2 ->].
    exists d1, sep, d2, sfx.
    split; [reflexivity|]. split; [exact D1|]. split.
    { cbn [in_class dash_or_dot ch] in K. apply orb_true_iff in K.
      destruct K as [K | K]; apply ascii_eqb_true in K; auto. }
    split; [exact D2|].
    apply Matches_Opt_iff in M. destruct M as [M | [-> _]]; [right | now left].
    apply Matches_Seq_iff in M. destruct M as [x2 [d3 [cd [-> [X2 M]]]]].
    apply Matches_char in X2. destruct X2 as [-> ->].
    apply Matches_Plus_digits in M. destruct M as [D3 ->].
    now exists d3.
  - intros [[d1 [sep [d2 [sfx [-> [D1 [S [D2 X]]]]]]]] ->].
    split; [reflexivity|]. exists c.
    apply Matches_Seq_iff. exists d1, ([sep] ++ d2 ++ sfx), c.
    repeat split; [now apply Matches_Plus_digits|].
    apply Matches_Seq_iff. exists [sep], (d2 ++ sfx), c.
    repeat split.
    { apply Matches_Cls_iff. exists sep. repeat split.
      cbn [in_class dash_or_dot ch]. destruct S as [-> | ->]; reflexivity. }
    apply Matches_Seq_iff. exists d2, sfx, c.
    repeat split; [now apply Matches_Plus_digits|].
    apply Matches_Opt_iff. destruct X as [-> | [d3 [-> D3]]]; [now right | left].
    apply Matches_Seq_iff. exists (txt "."), d3, c.
    repeat split; [now apply Matches_char | now apply Matches_Plus_digits].
Qed.

Lemma general_number_no_space (s : text) : general_number s -> no_space s.
Proof.
  intros [d1 [sep [d2 [sfx [-> [D1 [S [D2 X]]]]]]]].
  repeat apply no_space_app; try now apply digits_no_space.
  - destruct S as [-> | ->]; reflexivity.
  - destruct X as [-> | [d3 [-> D3]]]; [reflexivity|].
    apply no_space_app; [reflexivity | now apply digits_no_space].
Qed.

Lemma dash_number_general (s : text) : dash_number s -> general_number s.
Proof.
  intros [d1 [d2 [sfx [-> H]]]]. exists d1, "-"%char, d2, sfx.
  split; [reflexivity|]. intuition.
Qed.

Lemma dash_dot_number_dash (s : text) : dash_dot_number s -> dash_number s.
Proof.
  intros [d1 [d2 [d3 [-> [D1 [D2 D3]]]]]]. exists d1, d2, (txt "." ++ d3).
  repeat split; try (now apply D1); try (now apply D2).
  right. now exists d3.
Qed.


Lemma wfa_with_separator (filename name_part account_part : text) :
  rsplit1 (txt " - ") (remove_all (txt ".pdf") filename)
  = Some (name_part, account_part) ->
  WFAParser.extract_account_number_from_filename filename
  = match re_search false general_account (strip account_part) with
    | Some m => Ok (group1 m)
    | None => w <- first_token (strip account_part) ;; Ok (Some w)
    end.
Proof.
  intros H. unfold WFAParser.extract_account_number_from_filename.
  now rewrite (rsplit1_some_contains _ _ H), H.
Qed.

Lemma bokfin_with_separator (filename name_part account_part : text) :
  rsplit1 (txt " - ") (remove_all (txt ".pdf") filename)
  = Some (name_part, account_part) ->
  BOKFinancialParser.extract_account_number_from_filename filename
  = match re_search false bok_account (strip account_part) with
    | Some m => Ok (group1 m)
    | None =>
        match re_search false general_account (strip account_part) with
        | Some m => Ok (group1 m)
        | None => w <- first_token (strip account_part) ;; Ok (Some w)
        end
    end.
Proof.
  intros H. unfold BOKFinancialParser.extract_account_number_from_filename.
  now rewrite (rsplit1_some_contains _ _ H), H.
Qed.

Lemma wfa_without_separator (filename : text) :
  contains (txt " - ") (remove_all (txt ".pdf") filename) = false ->
  WFAParser.extract_account_number_from_filename filename = Ok None
  /\ BOKFinancialParser.extract_account_number_from_filename filename
     = Ok None
  /\ BOK.extract_beneficiary_and_account filename = Ok (None, None).
Proof.
  intros H.
  unfold WFAParser.extract_account_number_from_filename,
    BOKFinancialParser.extract_account_number_from_filename,
    BOK.extract_beneficiary_and_account.
  now rewrite H.
Qed.

(** What a search for an account pattern gives, in the terms of
    [search_denotes], with the shape of the result. *)
Lemma search_account (r : re) (P : text -> Prop) (t : text) :
  (forall bef s aft c c',
      Matches false r bef s aft c c' <-> P s /\ c' = Some s) ->
  (exists m a, re_search false r t = Some m /\ group1 m = Some a
               /\ P a /\ occurs a t /\ has_piece P t)
  \/ (re_search false r t = None /\ ~ has_piece P t).
Proof.
  intros D. destruct (@search_denotes r P t D) as [A B].
  destruct (re_search false r t) as [m|] eqn:E.
  - left.
    assert (has_piece P t) as H.
    { apply search_from_sound in E.
      destruct E as [pre [s [aft [c [-> [M _]]]]]].
      exists pre, s, aft. split; [reflexivity|]. now apply D in M. }
    destruct (A H) as [m' [a [E' [G [Pa O]]]]]. injection E' as <-.
    now exists m, a.
  - right. split; [reflexivity|]. intros H.
    destruct (A H) as [m' [a [E' _]]]. discriminate.
Qed.

Lemma wfa_outcome (filename name_part account_part : text) :
  rsplit1 (txt " - ") (remove_all (txt ".pdf") filename)
  = Some (name_part, account_part) ->
  (has_piece general_number (strip account_part) /\
   exists a, WFAParser.extract_account_number_from_filename filename
             = Ok (Some a)
             /\ general_number a /\ occurs a (strip account_part))
  \/ (~ has_piece general_number (strip account_part) /\
      WFAParser.extract_account_number_from_filename filename
      = (w <- first_token (strip account_part) ;; Ok (Some w))).
Proof.
  intros H. rewrite (wfa_with_separator _ H).
  destruct (@search_account general_account general_number
              (strip account_part) general_account_denotes)
    as [[m [a [E [G [P [O HP]]]]]] | [E N]]; rewrite E.
  - left. split; [exact HP|]. exists a. now rewrite G.
  - now right.
Qed.

Lemma bokfin_outcome (filename name_part account_part : text) :
  rsplit1 (txt " - ") (remove_all (txt ".pdf") filename)
  = Some (name_part, account_part) ->
  (has_piece dash_dot_number (strip account_part) /\
   exists a, BOKFinancialParser.extract_account_number_from_filename filename
             = Ok (Some a)
             /\ dash_dot_number a /\ occurs a (strip account_part))
  \/ (~ has_piece dash_dot_number (strip account_part) /\
      BOKFinancialParser.extract_account_number_from_filename filename
      = WFAParser.extract_account_number_from_filename filename).
Proof.
  intros H. rewrite (bokfin_with_separator _ H), (wfa_with_separator _ H).
  destruct (@search_account bok_account dash_dot_number
              (strip account_part) bok_account_denotes)
    as [[m [a [E [G [P [O HP]]]]]] | [E N]]; rewrite E.
  - left. split; [exact HP|]. exists a. now rewrite G.
  - now right.
Qed.

Lemma bok_outcome (filename name_part account_part : text) :
  rsplit1 (txt " - ") (remove_all (txt ".pdf") filename)
  = Some (name_part, account_part) ->
  (exists b a, BOK.extract_beneficiary_and_account filename = Ok (b, Some a)
               /\ dash_number a /\ occurs a (strip account_part))
  \/ (~ has_piece dash_number (strip account_part) /\
      BOK.extract_beneficiary_and_account filename
      = (w <- first_token (strip account_part) ;;
         Ok (BOK.scan_words (rev (split (strip name_part))), Some w))).
Proof.
  intros H. rewrite (extract_with_separator _ H). cbv zeta.
  destruct (@search_account bok_account dash_dot_number
              (strip account_part) bok_account_denotes)
    as [[m [a [E [G [P [O HP]]]]]] | [E N]]; rewrite E.
  { left. eexists _, a. rewrite G. repeat split; auto.
    now apply dash_dot_number_dash. }
  destruct (@search_account BOK.wfa_account dash_number
              (strip account_part) wfa_account_denotes)
    as [[m [a [E2 [G [P [O HP]]]]]] | [E2 N2]]; rewrite E2.
  - left. eexists _, a. rewrite G. now repeat split.
  - now right.
Qed.

Lemma no_piece_of_nil (P : text -> Prop) :
  ~ P [] -> ~ has_piece P [].
Proof.
  intros N [pre [s [post [E Ps]]]]. symmetry in E.
  apply app_eq_nil in E. destruct E as [_ E].
  apply app_eq_nil in E. destruct E as [-> _]. contradiction.
Qed.

Lemma general_number_nonempty : ~ general_number [].
Proof.
  intros [d1 [sep [d2 [sfx [E [[N _] _]]]]]]. symmetry in E.
  apply app_eq_nil in E. now destruct E.
Qed.

Lemma dash_number_nonempty : ~ dash_number [].
Proof.
  intros H. now apply general_number_nonempty, dash_number_general.
Qed.

Lemma general_number_not_nil (a : text) : general_number a -> a <> [].
Proof. intros G ->. now apply general_number_nonempty. Qed.

Lemma blank_dec (s : text) : blank s \/ ~ blank s.
Proof. unfold blank. destruct (forallb is_space s); auto. Qed.

Lemma token_cases (s : text) (X : Type) (k : text -> X) :
  (blank s /\ (w <- first_token (strip s) ;; Ok (k w)) = Raise IndexError)
  \/ (~ blank s /\ exists w, first_token (strip s) = Ok w
                             /\ (w <- first_token (strip s) ;; Ok (k w))
                                = Ok (k w)).
Proof.
  destruct (first_token_strip s) as [A B].
  destruct (blank_dec s) as [D | D].
  - left. split; [exact D|]. now rewrite (A D).
  - right. split; [exact D|]. destruct (B D) as [w E]. exists w.
    now rewrite E.
Qed.

Lemma raise_iff_blank (X : Type) (r : result X) (filename n a : text)
      (e : exn) :
  rsplit1 (txt " - ") (remove_all (txt ".pdf") filename) = Some (n, a) ->
  ((exists x, r = Ok x) /\ ~ blank a) \/ (r = Raise IndexError /\ blank a) ->
  (r = Raise e <-> e = IndexError /\ blank_account_section filename).
Proof.
  intros H [[[x ->] NB] | [-> B]]; split.
  - discriminate.
  - intros [_ [n0 [a0 [E B]]]]. rewrite H in E. injection E as <- <-.
    contradiction.
  - intros E. injection E as <-. split; [reflexivity|]. now exists n, a.
  - now intros [-> _].
Qed.

Lemma no_separator_not_blank (filename : text) :
  contains (txt " - ") (remove_all (txt ".pdf") filename) = false ->
  ~ blank_account_section filename.
Proof.
  intros C [n [a [H _]]].
  assert (txt " - " <> []) as NE by discriminate.
  pose proof (@contains_false_rsplit1 _ _ NE C) as R. congruence.
Qed.

Lemma blank_no_general (a : text) :
  blank a -> ~ has_piece general_number (strip a).
Proof.
  intros B. apply strip_nil_iff in B. rewrite B.
  apply no_piece_of_nil, general_number_nonempty.
Qed.

Lemma wfa_raise_iff (filename : text) (e : exn) :
  WFAParser.extract_account_number_from_filename filename = Raise e
  <-> e = IndexError /\ blank_account_section filename.
Proof.
  destruct (name_shape filename) as [C | [n [a H]]].
  - destruct (wfa_without_separator _ C) as [E _]. rewrite E.
    split; [discriminate|]. intros [_ B].
    now apply no_separator_not_blank in B.
  - apply (@raise_iff_blank _ _ _ _ _ e H).
    destruct (wfa_outcome _ H) as [[P [acct [E _]]] | [N E]]; rewrite E.
    + left. split; [eauto | intros B; now destruct (blank_no_general B)].
    + destruct (token_cases a (@Some text)) as [[B T] | [B [w [_ T]]]];
        rewrite T; [right; now split | left; split; [eauto | exact B]].
Qed.

Lemma bokfin_raise_iff (filename : text) (e : exn) :
  BOKFinancialParser.extract_account_number_from_filename filename = Raise e
  <-> e = IndexError /\ blank_account_section filename.
Proof.
  destruct (name_shape filename) as [C | [n [a H]]].
  - destruct (wfa_without_separator _ C) as [_ [E _]]. rewrite E.
    split; [discriminate|]. intros [_ B].
    now apply no_separator_not_blank in B.
  - destruct (bokfin_outcome _ H) as [[P [acct [E _]]] | [N E]]; rewrite E;
      [|apply wfa_raise_iff].
    apply (@raise_iff_blank _ _ _ _ _ e H).
    left. split; [eauto|]. intros B. apply (blank_no_general B).
    destruct P as [pre [s [post [E' D]]]]. exists pre, s, post.
    split; [exact E'|]. now apply dash_number_general, dash_dot_number_dash.
Qed.

Lemma bok_raise_iff (filename : text) (e : exn) :
  BOK.extract_beneficiary_and_account filename = Raise e
  <-> e = IndexError /\ blank_account_section filename.
Proof.
  destruct (name_shape filename) as [C | [n [a H]]].
  - destruct (wfa_without_separator _ C) as [_ [_ E]]. rewrite E.
    split; [discriminate|]. intros [_ B].
    now apply no_separator_not_blank in B.
  - apply (@raise_iff_blank _ _ _ _ _ e H).
    destruct (bok_outcome _ H) as [[b [acct [E [D O]]]] | [N E]]; rewrite E.
    + left. split; [eauto|]. intros B.
      apply strip_nil_iff in B. rewrite B in O.
      destruct O as [p [q O]]. symmetry in O.
      apply app_eq_nil in O. destruct O as [_ O].
      apply app_eq_nil in O. destruct O as [-> _].
      now apply dash_number_nonempty.
    + destruct (token_cases a
                  (fun w => (BOK.scan_words (rev (split (strip n))), Some w)))
        as [[B T] | [B [w [_ T]]]];
        rewrite T; [right; now split | left; split; [eauto | exact B]].
Qed.

(** X1.  A file-name parser raises exactly when the name has a " - "
    and nothing but white space follows the last one, and the
    exception is then [IndexError] and no other; this holds for the two
    parsers of the combined script and for the parser of the BOK
    script. *)
Theorem filename_parsers_raise_iff_blank (filename : text) (e : exn) :
  (WFAParser.extract_account_number_from_filename filename = Raise e
   <-> e = IndexError /\ blank_account_section filename)
  /\ (BOKFinancialParser.extract_account_number_from_filename filename
      = Raise e <-> e = IndexError /\ blank_account_section filename)
  /\ (BOK.extract_beneficiary_and_account filename = Raise e
      <-> e = IndexError /\ blank_account_section filename).
Proof.
  split; [apply wfa_raise_iff|].
  split; [apply bokfin_raise_iff | apply bok_raise_iff].
Qed.

Lemma filename_parsers_raise_iff_blank_witness :
  WFAParser.extract_account_number_from_filename (txt "Trust WH -  .pdf")
  = Raise IndexError.
Proof.
  apply (proj1 (filename_parsers_raise_iff_blank (txt "Trust WH -  .pdf")
                  IndexError)).
  split; [reflexivity|].
  exists (txt "Trust WH"), (txt " "). split; reflexivity.
Defined.

Lemma occurs_in_name (filename n a acct : text) :
  rsplit1 (txt " - ") (remove_all (txt ".pdf") filename) = Some (n, a) ->
  occurs acct (strip a) ->
  occurs acct (remove_all (txt ".pdf") filename).
Proof.
  intros H O. apply rsplit1_app in H. rewrite H.
  apply (occurs_trans O). apply (occurs_trans (occurs_strip a)).
  exists (n ++ txt " - "), []. now rewrite app_nil_r, <- app_assoc.
Qed.

Lemma token_result (s w : text) :
  first_token s = Ok w -> w <> [] /\ no_space w /\ occurs w s.
Proof. intros H. destruct (first_token_occurs _ H) as [O [N E]]. auto. Qed.

Lemma wfa_separated (filename n a : text) :
  rsplit1 (txt " - ") (remove_all (txt ".pdf") filename) = Some (n, a) ->
  WFAParser.extract_account_number_from_filename filename = Raise IndexError
  \/ exists acct,
      WFAParser.extract_account_number_from_filename filename
      = Ok (Some acct)
      /\ acct <> [] /\ no_space acct /\ occurs acct (strip a).
Proof.
  intros H.
  destruct (wfa_outcome _ H) as [[P [acct [E [G O]]]] | [N E]]; rewrite E.
  - right. exists acct. repeat split; auto.
    + now apply general_number_not_nil.
    + now apply general_number_no_space.
  - destruct (token_cases a (@Some text)) as [[B T] | [B [w [F T]]]];
      rewrite T; [now left | right].
    exists w. destruct (token_result _ F) as [W1 [W2 W3]]. auto.
Qed.

Lemma bokfin_separated (filename n a : text) :
  rsplit1 (txt " - ") (remove_all (txt ".pdf") filename) = Some (n, a) ->
  BOKFinancialParser.extract_account_number_from_filename filename
  = Raise IndexError
  \/ exists acct,
      BOKFinancialParser.extract_account_number_from_filename filename
      = Ok (Some acct)
      /\ acct <> [] /\ no_space acct /\ occurs acct (strip a).
Proof.
  intros H.
  destruct (bokfin_outcome _ H) as [[P [acct [E [G O]]]] | [N E]]; rewrite E.
  - right. exists acct.
    pose proof (dash_number_general (dash_dot_number_dash G)) as GN.
    repeat split; auto.
    + now apply general_number_not_nil.
    + now apply general_number_no_space.
  - exact (wfa_separated _ H).
Qed.

Lemma bok_separated (filename n a : text) :
  rsplit1 (txt " - ") (remove_all (txt ".pdf") filename) = Some (n, a) ->
  BOK.extract_beneficiary_and_account filename = Raise IndexError
  \/ exists b acct,
      BOK.extract_beneficiary_and_account filename = Ok (b, Some acct)
      /\ acct <> [] /\ no_space acct /\ occurs acct (strip a).
Proof.
  intros H.
  destruct (bok_outcome _ H) as [[b [acct [E [G O]]]] | [N E]]; rewrite E.
  - right. exists b, acct. pose proof (dash_number_general G) as GN.
    repeat split; auto.
    + now apply general_number_not_nil.
    + now apply general_number_no_space.
  - destruct (token_cases a
                (fun w => (BOK.scan_words (rev (split (strip n))), Some w)))
      as [[B T] | [B [w [F T]]]]; rewrite T; [now left | right].
    eexists _, w. destruct (token_result _ F) as [W1 [W2 W3]]. auto.
Qed.

(** X2.  A file-name parser gives no account exactly when the name
    (its ".pdf" removed) has no " - "; an account that it gives is a
    non-empty piece of that name and holds no white space.  The BOK
    parser gives no beneficiary either when there is no " - ". *)
Theorem account_absent_iff_no_separator (filename : text) :
  (WFAParser.extract_account_number_from_filename filename = Ok None
   <-> contains (txt " - ") (remove_all (txt ".pdf") filename) = false)
  /\ (BOKFinancialParser.extract_account_number_from_filename filename
      = Ok None
      <-> contains (txt " - ") (remove_all (txt ".pdf") filename) = false)
  /\ (forall b, BOK.extract_beneficiary_and_account filename = Ok (b, None)
      <-> b = None
          /\ contains (txt " - ") (remove_all (txt ".pdf") filename) = false)
  /\ (forall acct,
         WFAParser.extract_account_number_from_filename filename
         = Ok (Some acct)
         \/ BOKFinancialParser.extract_account_number_from_filename filename
            = Ok (Some acct)
         \/ (exists b, BOK.extract_beneficiary_and_account filename
                       = Ok (b, Some acct)) ->
         acct <> [] /\ no_space acct
         /\ occurs acct (remove_all (txt ".pdf") filename)).
Proof.
  destruct (name_shape filename) as [C | [n [a H]]].
  - destruct (wfa_without_separator _ C) as [E1 [E2 E3]].
    rewrite E1, E2, E3, C. repeat split; auto; try congruence.
    + intros [-> _]. reflexivity.
    + destruct H as [H | [H | [b H]]]; discriminate.
    + destruct H as [H | [H | [b H]]]; discriminate.
    + destruct H as [H | [H | [b H]]]; discriminate.
  - rewrite (rsplit1_some_contains _ _ H).
    pose proof (wfa_separated _ H) as W.
    pose proof (bokfin_separated _ H) as F.
    pose proof (bok_separated _ H) as B.
    split; [|split; [|split]].
    + split; [|discriminate]. intros E.
      destruct W as [W | [acct [W _]]]; congruence.
    + split; [|discriminate]. intros E.
      destruct F as [F | [acct [F _]]]; congruence.
    + intros b. split; [|intros [_ E]; discriminate]. intros E.
      destruct B as [B | [b' [acct [B _]]]]; congruence.
    + intros acct [E | [E | [b E]]].
      * destruct W as [W | [x [W [W1 [W2 W3]]]]]; [congruence|].
        assert (x = acct) as -> by congruence.
        repeat split; auto. now apply (occurs_in_name _ H).
      * destruct F as [F | [x [F [W1 [W2 W3]]]]]; [congruence|].
        assert (x = acct) as -> by congruence.
        repeat split; auto. now apply (occurs_in_name _ H).
      * destruct B as [B | [b' [x [B [W1 [W2 W3]]]]]]; [congruence|].
        assert (x = acct) as -> by congruence.
        repeat split; auto. now apply (occurs_in_name _ H).
Qed.

Lemma account_absent_iff_no_separator_witness :
  txt "12.5" <> [] /\ no_space (txt "12.5")
  /\ occurs (txt "12.5") (remove_all (txt ".pdf") (txt "A.pdf - x12.5y.pdf")).
Proof.
  apply (proj2 (proj2 (proj2 (account_absent_iff_no_separator
                                (txt "A.pdf - x12.5y.pdf"))))).
  left. reflexivity.
Defined.

(** X3.  The Wells Fargo parser of the combined script returns, when
    the account section has a piece made of digits, a dash or a point,
    digits and possibly a point and digits, such a piece; otherwise the
    first word of the section.  The BOK parser of the combined script
    returns a piece with both the dash and the point when the section
    has one, and otherwise what the Wells Fargo parser returns: the two
    parsers differ only on sections with such a piece. *)
Theorem combined_account_patterns
        (filename name_part account_part : text) :
  rsplit1 (txt " - ") (remove_all (txt ".pdf") filename)
  = Some (name_part, account_part) ->
  (has_piece general_number (strip account_part) ->
   exists a, WFAParser.extract_account_number_from_filename filename
             = Ok (Some a)
             /\ general_number a /\ occurs a (strip account_part))
  /\ (~ has_piece general_number (strip account_part) ->
      forall w ws, split (strip account_part) = w :: ws ->
      WFAParser.extract_account_number_from_filename filename
      = Ok (Some w))
  /\ (has_piece dash_dot_number (strip account_part) ->
      exists a, BOKFinancialParser.extract_account_number_from_filename
                  filename = Ok (Some a)
                /\ dash_dot_number a /\ occurs a (strip account_part))
  /\ (~ has_piece dash_dot_number (strip account_part) ->
      BOKFinancialParser.extract_account_number_from_filename filename
      = WFAParser.extract_account_number_from_filename filename).
Proof.
  intros H. split; [|split; [|split]].
  - intros P. destruct (wfa_outcome _ H) as [[_ X] | [N _]];
      [exact X | contradiction].
  - intros N w ws S. destruct (wfa_outcome _ H) as [[P _] | [_ E]];
      [contradiction|].
    rewrite E. unfold first_token. now rewrite S.
  - intros P. destruct (bokfin_outcome _ H) as [[_ X] | [N _]];
      [exact X | contradiction].
  - intros N. destruct (bokfin_outcome _ H) as [[P _] | [_ E]];
      [contradiction | exact E].
Qed.

Lemma combined_account_patterns_witness :
  BOKFinancialParser.extract_account_number_from_filename
    (txt "Auto Lane Re DAC - 3292-9150.pdf")
  = WFAParser.extract_account_number_from_filename
      (txt "Auto Lane Re DAC - 3292-9150.pdf").
Proof.
  refine (proj2 (proj2 (proj2 (@combined_account_patterns
            (txt "Auto Lane Re DAC - 3292-9150.pdf")
            (txt "Auto Lane Re DAC") (txt "3292-9150") eq_refl))) _).
  intros P.
  apply (proj1 (@search_denotes bok_account dash_dot_number
                  (txt "3292-9150") bok_account_denotes)) in P.
  destruct P as [m [a [E _]]]. discriminate.
Defined.


(** ** The account patterns, parser by parser *)

(** C5, where the claim fails: the second pattern of the BOK parser of
    the combined script takes a point as well as a dash.  The section
    "acct12.5" has no piece "digits, dash, digits", with or without
    decimals, so by the claim its first word is the account, as it is
    for the parser of the BOK script; the combined script answers
    "12.5".  In "12.34 56-78" it answers "12.34" although "56-78" is
    the piece with a dash. *)
Lemma combined_bok_parser_takes_a_point :
  ~ has_piece dash_dot_number (strip (txt "acct12.5"))
  /\ ~ has_piece dash_number (strip (txt "acct12.5"))
  /\ split (strip (txt "acct12.5")) = [txt "acct12.5"]
  /\ BOK.extract_beneficiary_and_account (txt "X - acct12.5.pdf")
     = Ok (None, Some (txt "acct12.5"))
  /\ BOKFinancialParser.extract_account_number_from_filename
       (txt "X - acct12.5.pdf")
     = Ok (Some (txt "12.5"))
  /\ has_piece dash_number (strip (txt "12.34 56-78"))
  /\ ~ has_piece dash_dot_number (strip (txt "12.34 56-78"))
  /\ ~ dash_number (txt "12.34")
  /\ BOKFinancialParser.extract_account_number_from_filename
       (txt "X - 12.34 56-78.pdf")
     = Ok (Some (txt "12.34")).
Proof.
  assert (forall t, re_search false bok_account t = None ->
                    ~ has_piece dash_dot_number t) as A.
  { intros t E P.
    apply (proj1 (@search_denotes bok_account dash_dot_number t
                    bok_account_denotes)) in P.
    destruct P as [m [a [E' _]]]. congruence. }
  assert (forall t, re_search false BOK.wfa_account t = None ->
                    ~ has_piece dash_number t) as B.
  { intros t E P.
    apply (proj1 (@search_denotes BOK.wfa_account dash_number t
                    wfa_account_denotes)) in P.
    destruct P as [m [a [E' _]]]. congruence. }
  split; [apply A; reflexivity|]. split; [apply B; reflexivity|].
  split; [reflexivity|]. split; [reflexivity|]. split; [reflexivity|].
  split; [|split; [apply A; reflexivity | split; [|reflexivity]]].
  - exists (txt "12.34 "), (txt "56-78"), []. split; [reflexivity|].
    exists (txt "56"), (txt "78"), [].
    repeat split; try discriminate. now left.
  - intros D. apply (B (txt "12.34")); [reflexivity|].
    exists [], (txt "12.34"), []. split; [|exact D].
    now rewrite app_nil_r.
Qed.

(** C5, as the code has it.  In the account section (what follows the
    last " - ", blanks stripped) a file-name parser tries three
    patterns in a fixed order and stops at the first that succeeds.
    The parser of the BOK script: (a) digits, dash, digits, point,
    digits: if the section has such a piece, the account is such a
    piece; (b) otherwise digits, dash, digits with an optional point
    and digits: if the section has such a piece, the account is such a
    piece; (c) otherwise the first blank-delimited word of the section.
    The BOK parser of the combined script has the same (a) and (c), but
    its second pattern is wider: digits, a dash or a point, digits,
    with an optional point and digits.  The order is by pattern and
    not by position.  For "First Coverage Re BIC - 1150-0007374.1.pdf"
    both give the account "1150-0007374.1", and the BOK script the
    beneficiary "BIC". *)
Theorem account_patterns_in_order :
  (forall filename name_part account_part : text,
      rsplit1 (txt " - ") (remove_all (txt ".pdf") filename)
      = Some (name_part, account_part) ->
      (has_piece dash_dot_number (strip account_part) ->
       exists b a,
         BOK.extract_beneficiary_and_account filename = Ok (b, Some a)
         /\ dash_dot_number a /\ occurs a (strip account_part))
      /\ (~ has_piece dash_dot_number (strip account_part) ->
          has_piece dash_number (strip account_part) ->
          exists b a,
            BOK.extract_beneficiary_and_account filename = Ok (b, Some a)
            /\ dash_number a /\ occurs a (strip account_part))
      /\ (~ has_piece dash_dot_number (strip account_part) ->
          ~ has_piece dash_number (strip account_part) ->
          forall w ws, split (strip account_part) = w :: ws ->
          exists b,
            BOK.extract_beneficiary_and_account filename = Ok (b, Some w)))
  /\ (forall filename name_part account_part : text,
         rsplit1 (txt " - ") (remove_all (txt ".pdf") filename)
         = Some (name_part, account_part) ->
         (has_piece dash_dot_number (strip account_part) ->
          exists a,
            BOKFinancialParser.extract_account_number_from_filename filename
            = Ok (Some a)
            /\ dash_dot_number a /\ occurs a (strip account_part))
         /\ (~ has_piece dash_dot_number (strip account_part) ->
             has_piece general_number (strip account_part) ->
             exists a,
               BOKFinancialParser.extract_account_number_from_filename
                 filename = Ok (Some a)
               /\ general_number a /\ occurs a (strip account_part))
         /\ (~ has_piece dash_dot_number (strip account_part) ->
             ~ has_piece general_number (strip account_part) ->
             forall w ws, split (strip account_part) = w :: ws ->
             BOKFinancialParser.extract_account_number_from_filename filename
             = Ok (Some w)))
  /\ BOK.extract_beneficiary_and_account
       (txt "First Coverage Re BIC - 1150-0007374.1.pdf")
     = Ok (Some (txt "BIC"), Some (txt "1150-0007374.1"))
  /\ BOKFinancialParser.extract_account_number_from_filename
       (txt "First Coverage Re BIC - 1150-0007374.1.pdf")
     = Ok (Some (txt "1150-0007374.1"))
  /\ BOK.extract_beneficiary_and_account
       (txt "Baby Goat Re BIC Enterprise Risk - 2193-4125.pdf")
     = Ok (Some (txt "RISK"), Some (txt "2193-4125"))
  /\ BOK.extract_beneficiary_and_account (txt "Re DAC - 12-34 56-78.9.pdf")
     = Ok (Some (txt "DAC"), Some (txt "56-78.9"))
  /\ BOK.extract_beneficiary_and_account (txt "Re DAC - acct 77 old.pdf")
     = Ok (Some (txt "DAC"), Some (txt "acct")).
Proof.
  split; [|split; [|repeat split; reflexivity]].
  - intros filename name_part account_part H.
    rewrite (extract_with_separator _ H). cbv zeta.
    destruct (@search_denotes bok_account dash_dot_number
                (strip account_part) bok_account_denotes) as [A1 A2].
    destruct (@search_denotes BOK.wfa_account dash_number
                (strip account_part) wfa_account_denotes) as [B1 B2].
    split; [|split].
    + intros P. destruct (A1 P) as [m [a [E [G [D O]]]]].
      rewrite E, G. now eexists _, a.
    + intros N P. rewrite (A2 N).
      destruct (B1 P) as [m [a [E [G [D O]]]]].
      rewrite E, G. now eexists _, a.
    + intros N1 N2 w ws S. rewrite (A2 N1), (B2 N2).
      unfold first_token. rewrite S. cbn [bind]. now eexists.
  - intros filename name_part account_part H. split; [|split].
    + intros P. destruct (bokfin_outcome _ H) as [[_ X] | [N _]];
        [exact X | contradiction].
    + intros N P. destruct (bokfin_outcome _ H) as [[Q _] | [_ E]];
        [contradiction|].
      rewrite E. destruct (wfa_outcome _ H) as [[_ X] | [N' _]];
        [exact X | contradiction].
    + intros N1 N2 w ws S.
      destruct (bokfin_outcome _ H) as [[Q _] | [_ E]]; [contradiction|].
      rewrite E. destruct (wfa_outcome _ H) as [[Q _] | [_ E']];
        [contradiction|].
      rewrite E'. unfold first_token. now rewrite S.
Qed.

Lemma account_patterns_in_order_witness :
  exists b a,
    BOK.extract_beneficiary_and_account (txt "Auto Lane Re DAC - 3292-9150.pdf")
    = Ok (b, Some a)
    /\ dash_number a /\ occurs a (strip (txt "3292-9150")).
Proof.
  refine (proj1 (proj2 (proj1 account_patterns_in_order
            (txt "Auto Lane Re DAC - 3292-9150.pdf")
            (txt "Auto Lane Re DAC") (txt "3292-9150") eq_refl)) _ _).
  - intros P.
    apply (proj1 (@search_denotes bok_account dash_dot_number
                    (txt "3292-9150") bok_account_denotes)) in P.
    destruct P as [m [a [E _]]]. discriminate.
  - exists [], (txt "3292-9150"), []. split; [reflexivity|].
    exists (txt "3292"), (txt "9150"), [].
    repeat split; try discriminate. now left.
Defined.


(** ** The batch *)

Lemma process_record (f : pdf) (r : FieldExtractionResult) :
  CombinedStatementParser.process f = Ok r ->
  Filename r = name f
  /\ Institution r = CombinedStatementParser.select_parser f.
Proof.
  unfold CombinedStatementParser.process, CombinedStatementParser.parse,
    WFAParser.parse, BOKFinancialParser.parse.
  destruct (CombinedStatementParser.select_parser f).
  - destruct (WFAParser.extract_account_number_from_filename (name f));
      [|discriminate].
    cbn [bind]. intros H. injection H as <-. now split.
  - destruct (BOKFinancialParser.extract_account_number_from_filename (name f));
      [|discriminate].
    cbn [bind]. intros H. injection H as <-. now split.
Qed.

Lemma process_raise_iff (f : pdf) (e : exn) :
  CombinedStatementParser.process f = Raise e
  <-> e = IndexError /\ blank_account_section (name f).
Proof.
  pose proof (wfa_raise_iff (name f) e) as W.
  pose proof (bokfin_raise_iff (name f) e) as B.
  unfold CombinedStatementParser.process, CombinedStatementParser.parse,
    WFAParser.parse, BOKFinancialParser.parse.
  destruct (CombinedStatementParser.select_parser f).
  - rewrite <- W.
    destruct (WFAParser.extract_account_number_from_filename (name f))
      as [a|e']; cbn [bind]; split; intros H; try discriminate; congruence.
  - rewrite <- B.
    destruct (BOKFinancialParser.extract_account_number_from_filename (name f))
      as [a|e']; cbn [bind]; split; intros H; try discriminate; congruence.
Qed.

Lemma process_total (f : pdf) :
  (exists r, CombinedStatementParser.process f = Ok r)
  \/ CombinedStatementParser.process f = Raise IndexError.
Proof.
  destruct (CombinedStatementParser.process f) as [r | e] eqn:E; eauto.
  right. apply process_raise_iff in E. now destruct E as [-> _].
Qed.

Lemma combined_files_ok (files : list pdf) :
  forall acc rs : list FieldExtractionResult,
    CombinedStatementParser.process_files files acc = Ok rs <->
    exists rs', rs = acc ++ rs'
                /\ Forall2 (fun f r => CombinedStatementParser.process f = Ok r)
                           files rs'.
Proof.
  induction files as [|f files IH]; intros acc rs;
    cbn [CombinedStatementParser.process_files].
  - split.
    + intros H. injection H as <-. exists []. now rewrite app_nil_r.
    + intros [rs' [-> F]]. inversion F. now rewrite app_nil_r.
  - destruct (CombinedStatementParser.process f) as [r|e] eqn:E; cbn [bind].
    + rewrite IH. split.
      * intros [rs' [-> F]]. exists (r :: rs').
        rewrite <- app_assoc. split; [reflexivity | now constructor].
      * intros [rs' [-> F]]. inversion F as [|? r' ? rs'' E' F']; subst.
        assert (r' = r) as -> by congruence.
        exists rs''. now rewrite <- app_assoc.
    + split; [discriminate|].
      intros [rs' [_ F]]. inversion F; subst. congruence.
Qed.

Lemma combined_files_raise (files : list pdf) :
  forall (acc : list FieldExtractionResult) (e : exn),
    CombinedStatementParser.process_files files acc = Raise e <->
    e = IndexError /\ Exists (fun f => blank_account_section (name f)) files.
Proof.
  induction files as [|f files IH]; intros acc e;
    cbn [CombinedStatementParser.process_files].
  - split; [discriminate | intros [_ H]; inversion H].
  - destruct (CombinedStatementParser.process f) as [r|e'] eqn:E; cbn [bind].
    + rewrite IH. split; intros [-> H]; (split; [reflexivity|]).
      * now right.
      * inversion H as [? ? B | ? ? B]; subst; [|exact B].
        assert (CombinedStatementParser.process f = Raise IndexError) as R
            by now apply process_raise_iff.
        congruence.
    + apply process_raise_iff in E. destruct E as [-> B]. split.
      * intros H. injection H as <-. split; [reflexivity | now left].
      * now intros [-> _].
Qed.

Lemma batch_ok (files : list pdf) (rs : list FieldExtractionResult)
      (report : option AggregateReport) :
  CombinedStatementParser.process_all_pdfs (Some files) = Ok (rs, report) ->
  Forall2 (fun f r => CombinedStatementParser.process f = Ok r) files rs
  /\ CombinedStatementParser.save_to_excel rs = Ok report.
Proof.
  intros H. destruct files as [|f files].
  - cbn in H. injection H as <- <-. split; [constructor | reflexivity].
  - unfold CombinedStatementParser.process_all_pdfs in H.
    destruct (CombinedStatementParser.process_files (f :: files) [])
      as [rs0|] eqn:E; [|discriminate].
    cbn [bind] in H.
    destruct (CombinedStatementParser.save_to_excel rs0) as [rep|] eqn:S;
      [|discriminate].
    cbn [bind] in H. injection H as <- <-.
    apply combined_files_ok in E. destruct E as [rs' [-> F]].
    now split.
Qed.

(** X4.  When the batch of the combined script comes to its end, it
    has produced one record per listed file, in the order of the
    files: each record is the one its file gives, it bears the name of
    the file and the institution chosen for it; the report is made
    from these records. *)
Theorem batch_gives_one_record_per_file
        (files : list pdf) (rs : list FieldExtractionResult)
        (report : option AggregateReport) :
  CombinedStatementParser.process_all_pdfs (Some files) = Ok (rs, report) ->
  Forall2 (fun f r => CombinedStatementParser.process f = Ok r) files rs
  /\ List.length rs = List.length files
  /\ map Filename rs = map name files
  /\ map Institution rs = map CombinedStatementParser.select_parser files
  /\ CombinedStatementParser.save_to_excel rs = Ok report.
Proof.
  intros H. destruct (batch_ok _ H) as [F R].
  split; [exact F|]. split; [|split; [|split; [|exact R]]].
  - symmetry. eapply Forall2_length; eauto.
  - clear H R. induction F as [|f r files rs E F IH]; [reflexivity|].
    cbn [map]. destruct (process_record _ E) as [-> _]. now f_equal.
  - clear H R. induction F as [|f r files rs E F IH]; [reflexivity|].
    cbn [map]. destruct (process_record _ E) as [_ ->]. now f_equal.
Qed.

Lemma batch_gives_one_record_per_file_witness :
  let files := [Pdf (txt "B - 1-2.pdf") None; Pdf (txt "A.pdf") (Some [])] in
  exists rs report,
    CombinedStatementParser.process_all_pdfs (Some files) = Ok (rs, report)
    /\ map Filename rs = map name files.
Proof.
  intros files.
  destruct (CombinedStatementParser.process_all_pdfs (Some files))
    as [[rs report]|] eqn:E; [|vm_compute in E; discriminate].
  exists rs, report. split; [reflexivity|].
  apply (@batch_gives_one_record_per_file files rs report E).
Defined.

Lemma process_value_nonneg (f : pdf) (r : FieldExtractionResult) (v : Q) :
  CombinedStatementParser.process f = Ok r ->
  Closing_Value r = Some v -> (0 <= v)%Q.
Proof.
  unfold CombinedStatementParser.process, CombinedStatementParser.parse,
    WFAParser.parse, BOKFinancialParser.parse.
  destruct (CombinedStatementParser.select_parser f).
  - destruct (WFAParser.extract_account_number_from_filename (name f));
      [|discriminate].
    cbn [bind]. intros H. injection H as <-. cbn [Closing_Value].
    unfold WFAParser.extract_closing_value.
    destruct (WFAParser.find_snapshot_page (contents f)) as [[|c s]|];
      try discriminate.
    intros V. apply first_value_valid in V. now apply Qleb_true.
  - destruct (BOKFinancialParser.extract_account_number_from_filename (name f));
      [|discriminate].
    cbn [bind]. intros H. injection H as <-. cbn [Closing_Value].
    unfold BOKFinancialParser.extract_total_value.
    destruct (BOKFinancialParser.find_account_overview_page (contents f))
      as [[|c s]|]; try discriminate.
    intros V. apply first_value_valid in V.
    unfold BOKFinancialParser.sane in V. apply andb_true_iff in V.
    destruct V as [V _]. apply Qltb_true in V. now apply Qlt_le_weak.
Qed.

Lemma column_sum_nonneg (col : list (option Q)) :
  (forall w, In (Some w) col -> (0 <= w)%Q) -> (0 <= column_sum col)%Q.
Proof.
  induction col as [|[w|] col IH]; intros H; cbn [column_sum].
  - apply Qle_refl.
  - apply Qle_trans with (0 + 0)%Q; [apply Qle_refl|].
    apply Qplus_le_compat; [apply H; now left | apply IH].
    intros u I. apply H. now right.
  - apply IH. intros u I. apply H. now right.
Qed.

(** A sum of values that are not negative is at least each of them. *)
Lemma column_sum_ge (col : list (option Q)) (v : Q) :
  (forall w, In (Some w) col -> (0 <= w)%Q) ->
  In (Some v) col -> (v <= column_sum col)%Q.
Proof.
  induction col as [|[w|] col IH]; intros H I; cbn [column_sum].
  - destruct I.
  - assert (0 <= column_sum col)%Q as P
        by (apply column_sum_nonneg; intros u U; apply H; now right).
    destruct I as [E | I].
    + injection E as ->.
      apply Qle_trans with (v + 0)%Q;
        [rewrite Qplus_0_r; apply Qle_refl|].
      apply Qplus_le_compat; [apply Qle_refl | exact P].
    + apply Qle_trans with (0 + column_sum col)%Q.
      * rewrite Qplus_0_l. apply IH; [|exact I].
        intros u U. apply H. now right.
      * apply Qplus_le_compat; [apply H; now left | apply Qle_refl].
  - destruct I as [E | I]; [discriminate|].
    apply IH; [|exact I]. intros u U. apply H. now right.
Qed.

Lemma is_inf_mono (v w : Q) :
  is_inf v = true -> (v <= w)%Q -> is_inf w = true.
Proof.
  unfold is_inf. rewrite !Qle_bool_iff. intros A B.
  now apply Qle_trans with v.
Qed.

Lemma produced_values_nonneg (files : list pdf)
      (rs : list FieldExtractionResult) :
  Forall2 (fun f r => CombinedStatementParser.process f = Ok r) files rs ->
  forall w, In (Some w) (map Closing_Value rs) -> (0 <= w)%Q.
Proof.
  induction 1 as [|f r files rs E F IH]; intros w I; [destruct I|].
  cbn [map] in I. destruct I as [I | I].
  - exact (@process_value_nonneg f r w E I).
  - now apply IH.
Qed.

(** X5.  The batch of the combined script is aborted by [IndexError]
    exactly when one of the listed files has a name whose last " - "
    is followed by nothing but white space.  It can also be aborted by
    [TypeError], when the workbook is written: this happens only when
    there are files and none of them has such a name, and it does
    happen when every file gives a record and the value of one record
    is [inf], the grand total being [inf] then.  A folder that does not
    exist or holds no file never raises. *)
Theorem batch_aborts_iff_blank_section (folder : option (list pdf)) :
  (CombinedStatementParser.process_all_pdfs folder = Raise IndexError <->
   exists files, folder = Some files
                 /\ Exists (fun f => blank_account_section (name f)) files)
  /\ (CombinedStatementParser.process_all_pdfs folder = Raise TypeError ->
      exists files,
        folder = Some files /\ files <> []
        /\ ~ Exists (fun f => blank_account_section (name f)) files)
  /\ (forall (files : list pdf) (rs : list FieldExtractionResult)
             (r : FieldExtractionResult) (v : Q),
         folder = Some files ->
         Forall2 (fun f r => CombinedStatementParser.process f = Ok r)
                 files rs ->
         In r rs -> Closing_Value r = Some v -> is_inf v = true ->
         CombinedStatementParser.process_all_pdfs folder = Raise TypeError)
  /\ (folder = None \/ folder = Some [] ->
      CombinedStatementParser.process_all_pdfs folder = Ok ([], None)).
Proof.
  split; [|split; [|split]].
  - destruct folder as [[|f files]|];
      cbn [CombinedStatementParser.process_all_pdfs].
    + split; [discriminate|]. intros [files [E X]]. injection E as <-.
      inversion X.
    + pose proof (combined_files_raise (f :: files) [] IndexError) as R.
      destruct (CombinedStatementParser.process_files (f :: files) [])
        as [rs|e'] eqn:E; cbn [bind].
      * split.
        -- unfold CombinedStatementParser.save_to_excel,
             CombinedStatementParser.write_number.
           destruct rs; [discriminate|]. cbv zeta.
           destruct (is_inf _); discriminate.
        -- intros [files' [E' X]]. injection E' as <-.
           assert (@Ok (list FieldExtractionResult) rs = Raise IndexError)
             as Z by (apply R; now split).
           discriminate.
      * apply combined_files_raise in E. destruct E as [-> X].
        split; [|reflexivity]. intros _. now exists (f :: files).
    + split; [discriminate|]. intros [files [E _]]. discriminate.
  - destruct folder as [[|f files]|];
      cbn [CombinedStatementParser.process_all_pdfs]; try discriminate.
    pose proof (combined_files_raise (f :: files) [] IndexError) as R.
    destruct (CombinedStatementParser.process_files (f :: files) [])
      as [rs|e'] eqn:E; cbn [bind].
    + intros _. exists (f :: files). split; [reflexivity|].
      split; [discriminate|]. intros X.
      assert (@Ok (list FieldExtractionResult) rs = Raise IndexError)
        as Z by (apply R; now split).
      discriminate.
    + apply combined_files_raise in E. destruct E as [-> _]. discriminate.
  - intros files rs r v -> F I V O.
    assert (CombinedStatementParser.process_files files [] = Ok rs) as E
        by (apply combined_files_ok; now exists rs).
    destruct files as [|f files]; [inversion F; subst; destruct I|].
    unfold CombinedStatementParser.process_all_pdfs. rewrite E. cbn [bind].
    unfold CombinedStatementParser.save_to_excel,
      CombinedStatementParser.write_number.
    destruct rs as [|r0 rs0] eqn:Ers; [destruct I|]. rewrite <- Ers in *.
    cbv zeta.
    replace (is_inf (column_sum (map Closing_Value rs))) with true;
      [reflexivity|].
    symmetry. apply (@is_inf_mono v _ O). apply column_sum_ge.
    + exact (@produced_values_nonneg _ _ F).
    + rewrite <- V. now apply in_map.
  - intros [-> | ->]; reflexivity.
Qed.

Lemma batch_aborts_iff_blank_section_witness :
  let f := Pdf (txt "A - 1-2.pdf")
               (Some [Some (txt "Page 1 of 1 " ++ big_page 309)]) in
  CombinedStatementParser.process_all_pdfs
    (Some [Pdf (txt "A - 1-2.pdf") None; Pdf (txt "B - .pdf") None])
  = Raise IndexError
  /\ CombinedStatementParser.process_all_pdfs (Some [f]) = Raise TypeError.
Proof.
  intros f. split.
  - apply (proj1 (batch_aborts_iff_blank_section _)).
    eexists. split; [reflexivity|].
    right. left. exists (txt "B"), []. split; reflexivity.
  - destruct (CombinedStatementParser.process f) as [r|] eqn:E;
      [|vm_compute in E; discriminate].
    destruct (Closing_Value r) as [v|] eqn:V;
      [|vm_compute in E; injection E as <-; discriminate].
    apply (proj1 (proj2 (proj2 (batch_aborts_iff_blank_section (Some [f]))))
             [f] [r] r v eq_refl).
    + constructor; [exact E | constructor].
    + now left.
    + exact V.
    + vm_compute in E. injection E as <-. cbn [Closing_Value] in V.
      injection V as <-. reflexivity.
Defined.


(** ** The summary *)

Lemma institution_cases (r : FieldExtractionResult) :
  (of_institution WellsFargoAdvisors r = true
   /\ of_institution BOKFinancial r = false)
  \/ (of_institution WellsFargoAdvisors r = false
      /\ of_institution BOKFinancial r = true).
Proof. unfold of_institution. destruct (Institution r); auto. Qed.

Lemma filter_all_of (p : FieldExtractionResult -> bool)
      (rs : list FieldExtractionResult) :
  Forall (fun r => p r = true) rs -> filter p rs = rs.
Proof.
  induction 1 as [|r rs P F IH]; [reflexivity|].
  cbn [filter]. now rewrite P, IH.
Qed.

Lemma filter_none_of (p : FieldExtractionResult -> bool)
      (rs : list FieldExtractionResult) :
  Forall (fun r => p r = false) rs -> filter p rs = [].
Proof.
  induction 1 as [|r rs P F IH]; [reflexivity|].
  cbn [filter]. now rewrite P.
Qed.

Lemma count_by_institution (p : FieldExtractionResult -> bool)
      (rs : list FieldExtractionResult) :
  List.length (filter p (filter (of_institution WellsFargoAdvisors) rs))
  + List.length (filter p (filter (of_institution BOKFinancial) rs))
  = List.length (filter p rs).
Proof.
  induction rs as [|r rs IH]; [reflexivity|].
  cbn [filter].
  destruct (institution_cases r) as [[-> ->] | [-> ->]]; cbn [filter];
    destruct (p r); cbn [List.length]; lia.
Qed.

(** X6.  In the report of the combined script the counts of files and
    of complete records by institution add up to the overall counts,
    and the number of statements to review is the number of files less
    the number of complete records.  When all the records are of one
    institution, the total of that institution is the grand total (it
    is the sum of the same column) and the total of the other
    institution is zero. *)
Theorem report_is_partitioned_by_institution
        (rs : list FieldExtractionResult) (report : AggregateReport) :
  CombinedStatementParser.save_to_excel rs = Ok (Some report) ->
  processed report = List.length rs
  /\ CombinedSummary.wfa_count rs + CombinedSummary.bok_count rs
     = processed report
  /\ CombinedSummary.wfa_success rs + CombinedSummary.bok_success rs
     = success_count report
  /\ List.length (CombinedSummary.needs_review rs)
     = processed report - success_count report
  /\ success_count report <= processed report
  /\ (Forall (fun r => Institution r = WellsFargoAdvisors) rs ->
      wfa_total report = total_value report /\ bok_total report = 0%Q)
  /\ (Forall (fun r => Institution r = BOKFinancial) rs ->
      bok_total report = total_value report /\ wfa_total report = 0%Q).
Proof.
  intros H. apply save_to_excel_report in H. destruct H as [_ [_ ->]].
  cbn [wfa_total bok_total total_value processed success_count].
  assert (List.length (CombinedSummary.needs_review rs) + count_complete rs
          = List.length rs) as P.
  { unfold CombinedSummary.needs_review, count_complete, is_needs_review.
    clear. induction rs as [|r rs IH]; [reflexivity|].
    cbn [filter]. destruct (Status r); cbn [List.length]; lia. }
  split; [reflexivity|]. split; [|split; [|split; [|split; [|split]]]].
  - unfold CombinedSummary.wfa_count, CombinedSummary.bok_count.
    pose proof (count_by_institution (fun _ => true) rs) as C.
    rewrite !filter_true in C. exact C.
  - unfold CombinedSummary.wfa_success, CombinedSummary.bok_success,
      count_complete.
    apply count_by_institution.
  - lia.
  - lia.
  - intros F.
    rewrite (@filter_all_of (of_institution WellsFargoAdvisors) rs),
      (@filter_none_of (of_institution BOKFinancial) rs);
      [now split | |];
      (eapply Forall_impl; [|exact F]); intros r E;
      unfold of_institution; now rewrite E.
  - intros F.
    rewrite (@filter_all_of (of_institution BOKFinancial) rs),
      (@filter_none_of (of_institution WellsFargoAdvisors) rs);
      [now split | |];
      (eapply Forall_impl; [|exact F]); intros r E;
      unfold of_institution; now rewrite E.
Qed.

Lemma report_is_partitioned_by_institution_witness :
  let rs := [Result (txt "a.pdf") None (Some (txt "1-2")) (Some (15050 # 100)%Q)
                    WellsFargoAdvisors Complete;
             Result (txt "b.pdf") None None (Some (4950 # 100)%Q)
                    BOKFinancial NeedsReview] in
  exists report,
    CombinedStatementParser.save_to_excel rs = Ok (Some report)
    /\ CombinedSummary.wfa_count rs + CombinedSummary.bok_count rs
       = processed report.
Proof.
  intros rs. eexists. split; [reflexivity|].
  apply (@report_is_partitioned_by_institution rs). reflexivity.
Defined.


Lemma issues_nil_iff (r : FieldExtractionResult) :
  CombinedSummary.issues r = [] <->
  status_rule (is_some (Account_Number r)) (is_some (Closing_Value r))
  = Complete.
Proof.
  unfold CombinedSummary.issues, is_none.
  destruct (Account_Number r), (Closing_Value r); cbn;
    split; intros H; try discriminate; reflexivity.
Qed.

Lemma Forall2_produced (files : list pdf) (rs : list FieldExtractionResult)
      (r : FieldExtractionResult) :
  Forall2 (fun f r => CombinedStatementParser.process f = Ok r) files rs ->
  In r rs -> exists f, In f files /\ CombinedStatementParser.process f = Ok r.
Proof.
  induction 1 as [|f r' files rs E F IH]; intros I; [destruct I|].
  destruct I as [<- | I].
  - exists f. split; [now left | exact E].
  - destruct (IH I) as [g [G1 G2]]. exists g. split; [now right | exact G2].
Qed.

(** X7.  After a batch of the combined script, the statements listed
    for manual review are exactly the records that have a reason to
    show, and a reason names a field that is missing: "no account #"
    is among the reasons exactly when the account number is absent, "no
    closing value" exactly when the closing value is absent.  No listed
    statement is printed without a reason. *)
Theorem review_list_has_reasons
        (files : list pdf) (rs : list FieldExtractionResult)
        (report : option AggregateReport) :
  CombinedStatementParser.process_all_pdfs (Some files) = Ok (rs, report) ->
  forall r : FieldExtractionResult,
    (In r (CombinedSummary.needs_review rs) <->
     In r rs /\ CombinedSummary.issues r <> [])
    /\ (In NoAccount (CombinedSummary.issues r) <-> Account_Number r = None)
    /\ (In NoClosingValue (CombinedSummary.issues r)
        <-> Closing_Value r = None).
Proof.
  intros H r. apply batch_ok in H.
  destruct H as [F _]. split; [|split].
  - unfold CombinedSummary.needs_review. rewrite filter_In.
    split; intros [I N]; (split; [exact I|]);
      destruct (Forall2_produced r F I) as [f [_ P]];
      pose proof (@produced_status f r (or_introl P)) as S;
      unfold is_needs_review in *.
    + intros E. apply issues_nil_iff in E. rewrite S, E in N. discriminate.
    + destruct (Status r); [|reflexivity].
      exfalso. apply N. apply issues_nil_iff. now rewrite <- S.
  - unfold CombinedSummary.issues, is_none.
    destruct (Account_Number r), (Closing_Value r); cbn;
      intuition discriminate.
  - unfold CombinedSummary.issues, is_none.
    destruct (Account_Number r), (Closing_Value r); cbn;
      intuition discriminate.
Qed.

Lemma review_list_has_reasons_witness :
  let files := [Pdf (txt "B - 1-2.pdf") None; Pdf (txt "A.pdf") (Some [])] in
  exists rs report,
    CombinedStatementParser.process_all_pdfs (Some files) = Ok (rs, report)
    /\ forall r, In r (CombinedSummary.needs_review rs) <->
                 In r rs /\ CombinedSummary.issues r <> [].
Proof.
  intros files.
  destruct (CombinedStatementParser.process_all_pdfs (Some files))
    as [[rs report]|] eqn:E; [|vm_compute in E; discriminate].
  exists rs, report. split; [reflexivity|]. intros r.
  apply (@review_list_has_reasons files rs report E r).
Defined.

(** ** The batch of the BOK script *)

Lemma bok_parse_record (f : pdf) (r : FieldExtractionResult) :
  BOK.parse f = Ok r -> Filename r = name f /\ Institution r = BOKFinancial.
Proof.
  unfold BOK.parse.
  destruct (BOK.extract_beneficiary_and_account (name f)); [|discriminate].
  cbn [bind]. intros H. injection H as <-. now split.
Qed.

Lemma bok_parse_raise_iff (f : pdf) (e : exn) :
  BOK.parse f = Raise e <-> e = IndexError /\ blank_account_section (name f).
Proof.
  rewrite <- (bok_raise_iff (name f) e). unfold BOK.parse.
  destruct (BOK.extract_beneficiary_and_account (name f)) as [a|e'];
    cbn [bind]; split; intros H; try discriminate; congruence.
Qed.

Lemma bok_files_ok (files : list pdf) :
  forall acc rs : list FieldExtractionResult,
    BOKStatementParser.process_files files acc = Ok rs <->
    exists rs', rs = acc ++ rs'
                /\ Forall2 (fun f r => BOK.parse f = Ok r) files rs'.
Proof.
  induction files as [|f files IH]; intros acc rs;
    cbn [BOKStatementParser.process_files].
  - split.
    + intros H. injection H as <-. exists []. now rewrite app_nil_r.
    + intros [rs' [-> F]]. inversion F. now rewrite app_nil_r.
  - destruct (BOK.parse f) as [r|e] eqn:E; cbn [bind].
    + rewrite IH. split.
      * intros [rs' [-> F]]. exists (r :: rs').
        rewrite <- app_assoc. split; [reflexivity | now constructor].
      * intros [rs' [-> F]]. inversion F as [|? r' ? rs'' E' F']; subst.
        assert (r' = r) as -> by congruence.
        exists rs''. now rewrite <- app_assoc.
    + split; [discriminate|].
      intros [rs' [_ F]]. inversion F; subst. congruence.
Qed.

Lemma bok_files_raise (files : list pdf) :
  forall (acc : list FieldExtractionResult) (e : exn),
    BOKStatementParser.process_files files acc = Raise e <->
    e = IndexError /\ Exists (fun f => blank_account_section (name f)) files.
Proof.
  induction files as [|f files IH]; intros acc e;
    cbn [BOKStatementParser.process_files].
  - split; [discriminate | intros [_ H]; inversion H].
  - destruct (BOK.parse f) as [r|e'] eqn:E; cbn [bind].
    + rewrite IH. split; intros [-> H]; (split; [reflexivity|]).
      * now right.
      * inversion H as [? ? B | ? ? B]; subst; [|exact B].
        assert (BOK.parse f = Raise IndexError) as R
            by now apply bok_parse_raise_iff.
        congruence.
    + apply bok_parse_raise_iff in E. destruct E as [-> B]. split.
      * intros H. injection H as <-. split; [reflexivity | now left].
      * now intros [-> _].
Qed.

(** X8.  The batch of the BOK script gives records for the files it
    classifies as BOK Financial and for no other: one record per such
    file, in order, under its name; every record is a BOK Financial
    record.  These are the files for which the combined script selects
    its BOK parser.  The batch is aborted exactly when one of these
    files has a blank account section, and then by [IndexError]: a
    file of another institution with such a name is skipped and does
    no harm. *)
Theorem bok_batch_keeps_bok_files (files : list pdf) :
  (forall (rs : list FieldExtractionResult) (report : option (Q * nat)),
      BOKStatementParser.process_all_pdfs (Some files) = Ok (rs, report) ->
      Forall2 (fun f r => BOK.parse f = Ok r)
              (BOKStatementParser.bok_files files) rs
      /\ map Filename rs
         = map name
             (filter (fun f =>
                        match CombinedStatementParser.select_parser f with
                        | BOKFinancial => true
                        | WellsFargoAdvisors => false
                        end) files)
      /\ Forall (fun r => Institution r = BOKFinancial) rs
      /\ List.length rs <= List.length files)
  /\ (forall e : exn,
         BOKStatementParser.process_all_pdfs (Some files) = Raise e <->
         e = IndexError
         /\ Exists (fun f =>
                      CombinedStatementParser.select_parser f = BOKFinancial
                      /\ blank_account_section (name f)) files).
Proof.
  assert (forall f : pdf,
             BOKStatementParser.is_bok_financial (contents f)
             = match CombinedStatementParser.select_parser f with
               | BOKFinancial => true
               | WellsFargoAdvisors => false
               end) as S.
  { intros f. unfold CombinedStatementParser.select_parser,
      BOKStatementParser.is_bok_financial.
    now destruct (CombinedStatementParser.is_bok_financial (contents f)). }
  split.
  - intros rs report H.
    assert (Forall2 (fun f r => BOK.parse f = Ok r)
                    (BOKStatementParser.bok_files files) rs) as F.
    { destruct files as [|f files].
      - cbn in H. injection H as <- _. constructor.
      - unfold BOKStatementParser.process_all_pdfs in H.
        destruct (BOKStatementParser.process_files _ []) as [rs0|] eqn:E;
          [|discriminate].
        cbn [bind] in H. injection H as <- _.
        apply bok_files_ok in E. destruct E as [rs' [-> F]]. exact F. }
    split; [exact F|]. split; [|split].
    + replace (filter _ files) with (BOKStatementParser.bok_files files)
        by (apply filter_ext; exact S).
      clear H. induction F as [|f r fs rs E F IH]; [reflexivity|].
      cbn [map]. destruct (bok_parse_record _ E) as [-> _]. now f_equal.
    + clear H. induction F as [|f r fs rs E F IH]; constructor; auto.
      now destruct (bok_parse_record _ E).
    + rewrite <- (Forall2_length F). apply filter_length_le.
  - intros e.
    assert (BOKStatementParser.process_all_pdfs (Some files)
            = (results <- BOKStatementParser.process_files
                            (BOKStatementParser.bok_files files) [] ;;
               Ok (results, BOKStatementParser.save_to_excel results))) as U
        by (now destruct files).
    rewrite U.
    destruct (BOKStatementParser.process_files _ []) as [rs|e'] eqn:E;
      cbn [bind].
    + split; [discriminate|]. intros [_ X]. exfalso.
      assert (Exists (fun f => blank_account_section (name f))
                     (BOKStatementParser.bok_files files)) as X'.
      { apply Exists_exists in X. destruct X as [f [I [B1 B2]]].
        apply Exists_exists. exists f. split; [|exact B2].
        apply filter_In. split; [exact I|]. now rewrite S, B1. }
      assert (BOKStatementParser.process_files
                (BOKStatementParser.bok_files files) [] = Raise IndexError)
        as R by (apply bok_files_raise; now split).
      congruence.
    + apply bok_files_raise in E. destruct E as [-> E]. split.
      * intros H. injection H as <-. split; [reflexivity|].
        apply Exists_exists in E. destruct E as [f [I B]].
        apply filter_In in I. destruct I as [I C].
        apply Exists_exists. exists f. split; [exact I|]. split; [|exact B].
        rewrite S in C.
        now destruct (CombinedStatementParser.select_parser f).
      * now intros [-> _].
Qed.

Lemma bok_batch_keeps_bok_files_witness :
  let files := [Pdf (txt "W - .pdf") (Some [Some (txt "Wells Fargo")]);
                Pdf (txt "Re BIC - 1-2.3.pdf") (Some [Some (txt "BOKF")])] in
  exists rs report,
    BOKStatementParser.process_all_pdfs (Some files) = Ok (rs, report)
    /\ Forall (fun r => Institution r = BOKFinancial) rs.
Proof.
  intros files.
  destruct (BOKStatementParser.process_all_pdfs (Some files))
    as [[rs report]|] eqn:E; [|vm_compute in E; discriminate].
  exists rs, report. split; [reflexivity|].
  apply (proj1 (bok_batch_keeps_bok_files files) rs report E).
Defined.


(** ** Locating the Wells Fargo page *)

Lemma page_1_of_denotes (bef s aft : text) (c c' : option text) :
  Matches false WFAParser.page_1_of bef s aft c c' <->
  exists w1 w2 w3 n,
    s = txt "Page" ++ w1 ++ txt "1" ++ w2 ++ txt "of" ++ w3 ++ n
    /\ forallb is_space w1 = true /\ forallb is_space w2 = true
    /\ forallb is_space w3 = true
    /\ n <> [] /\ forallb is_digit n = true /\ c' = c.
Proof.
  unfold WFAParser.page_1_of. cbn [Cat]. unfold Plus. split.
  - intros M.
    inv_seq M A1 R1. apply (Matches_Lit_inv (txt "Page")) in A1.
    destruct A1 as [-> ->].
    inv_seq R1 A2 R2. inv_star A2 F1.
    inv_seq R2 A3 R3. inv_cls A3 K. cbn [in_class ch] in K.
    apply ascii_eqb_true in K. subst.
    inv_seq R3 A4 R4. inv_star A4 F2.
    inv_seq R4 A5 R5. apply (Matches_Lit_inv (txt "of")) in A5.
    destruct A5 as [-> ->].
    inv_seq R5 A6 R6. inv_star A6 F3.
    inv_seq R6 A7 R7. inv_cls A7 K. inv_star R7 F4.
    eexists _, _, _, (_ :: _). repeat split; try eassumption.
    + discriminate.
    + cbn [forallb]. cbn [in_class d] in K. now rewrite K.
  - intros [w1 [w2 [w3 [n [-> [F1 [F2 [F3 [N [F4 ->]]]]]]]]]].
    destruct n as [|x n]; [contradiction|].
    cbn [forallb] in F4. apply andb_true_iff in F4. destruct F4 as [K F4].
    econstructor; [apply Matches_Lit_intro|].
    econstructor; [now constructor|].
    econstructor; [constructor; reflexivity|].
    econstructor; [now constructor|].
    econstructor; [apply Matches_Lit_intro|].
    econstructor; [now constructor|].
    change (x :: n) with ([x] ++ n).
    econstructor; now constructor.
Qed.

Lemma page_1_of_search (t : text) :
  is_some (re_search false WFAParser.page_1_of t) = true <-> page_1_of_N t.
Proof.
  rewrite re_search_iff. unfold page_1_of_N. split.
  - intros [pre [s [aft [c [-> M]]]]]. apply page_1_of_denotes in M.
    destruct M as [w1 [w2 [w3 [n [-> [F1 [F2 [F3 [N [F4 _]]]]]]]]]].
    exists pre, w1, w2, w3, n, aft.
    repeat split; try assumption. now rewrite <- !app_assoc.
  - intros [pre [w1 [w2 [w3 [n [post [-> H]]]]]]].
    exists pre, (txt "Page" ++ w1 ++ txt "1" ++ w2 ++ txt "of" ++ w3 ++ n),
      post, None.
    split; [now rewrite <- !app_assoc|].
    apply page_1_of_denotes. exists w1, w2, w3, n. tauto.
Qed.

Lemma page_1_of_N_text (t : text) : page_1_of_N t -> t <> [].
Proof.
  intros [pre [w1 [w2 [w3 [n [post [-> _]]]]]]] E.
  apply app_eq_nil in E. destruct E as [_ E]. discriminate.
Qed.

(** The first page that passes a test, for a test that has a meaning
    [P] and fails on the empty text. *)
Lemma first_page_meaning (test : text -> bool) (P : text -> Prop)
      (pages : list page) :
  (forall t, test t = true <-> P t) -> ~ P [] ->
  (forall t, first_page test pages = Some t <->
             exists l1 l2, pages = l1 ++ Some t :: l2 /\ P t
                           /\ forall u, In (Some u) l1 -> ~ P u)
  /\ (first_page test pages = None <-> forall u, In (Some u) pages -> ~ P u).
Proof.
  intros T N.
  assert (forall u, (u = [] \/ test u = false) <-> ~ P u) as Q.
  { intros u. split.
    - intros [-> | F] H; [contradiction|]. apply T in H. congruence.
    - intros H. right. destruct (test u) eqn:E; [|reflexivity].
      now apply T in E. }
  split.
  - intros t. rewrite first_page_some. split.
    + intros [l1 [l2 [E [_ [Tt H]]]]]. exists l1, l2.
      repeat split; [exact E | now apply T |].
      intros u I. apply Q. now apply H.
    + intros [l1 [l2 [E [Pt H]]]]. exists l1, l2.
      repeat split; [exact E | now intros -> | now apply T |].
      intros u I. apply Q. now apply H.
  - rewrite first_page_none. split; intros H u I; apply Q; now apply H.
Qed.

(** X9.  The Wells Fargo locator of the combined script returns the
    text of the first page, in page order, that carries the label "Page
    1 of N" (white space between the words optional), and nothing when
    no page carries it: a page with the words SNAPSHOT and Closing but
    without the label is never returned.  Pages without text are passed
    over and an unreadable document gives nothing.  The BOK locator of
    the first combined script does the same with the label "Page 2 of
    N", and asks for no "Account Overview" marker. *)
Theorem snapshot_page_is_first_label_page :
  (forall (pages : list page) (t : text),
      WFAParser.find_snapshot_page (Some pages) = Some t <->
      exists l1 l2,
        pages = l1 ++ Some t :: l2 /\ page_1_of_N t
        /\ forall u, In (Some u) l1 -> ~ page_1_of_N u)
  /\ (forall pages : list page,
         WFAParser.find_snapshot_page (Some pages) = None <->
         forall u, In (Some u) pages -> ~ page_1_of_N u)
  /\ WFAParser.find_snapshot_page None = None
  /\ (forall (pages : list page) (t : text),
         LegacyBOK.find_page_2 (Some pages) = Some t <->
         exists l1 l2,
           pages = l1 ++ Some t :: l2 /\ page_2_of_N t
           /\ forall u, In (Some u) l1 -> ~ page_2_of_N u)
  /\ (forall pages : list page,
         LegacyBOK.find_page_2 (Some pages) = None <->
         forall u, In (Some u) pages -> ~ page_2_of_N u).
Proof.
  assert (~ page_1_of_N []) as N1 by (intros H; now apply page_1_of_N_text in H).
  assert (~ page_2_of_N []) as N2.
  { intros H. apply page_2_of_search in H. discriminate. }
  split; [|split; [|split; [reflexivity | split]]].
  - intros pages.
    apply (proj1 (@first_page_meaning _ _ pages page_1_of_search N1)).
  - intros pages.
    apply (proj2 (@first_page_meaning _ _ pages page_1_of_search N1)).
  - intros pages.
    apply (proj1 (@first_page_meaning _ _ pages page_2_of_search N2)).
  - intros pages.
    apply (proj2 (@first_page_meaning _ _ pages page_2_of_search N2)).
Qed.

Lemma snapshot_page_is_first_label_page_witness :
  exists l1 l2,
    [None; Some (txt "SNAPSHOT Closing value $1.00");
     Some (txt "Page1of12 SNAPSHOT")]
    = l1 ++ Some (txt "Page1of12 SNAPSHOT") :: l2
    /\ page_1_of_N (txt "Page1of12 SNAPSHOT")
    /\ forall u, In (Some u) l1 -> ~ page_1_of_N u.
Proof.
  apply (proj1 (proj1 snapshot_page_is_first_label_page
                  [None; Some (txt "SNAPSHOT Closing value $1.00");
                   Some (txt "Page1of12 SNAPSHOT")]
                  (txt "Page1of12 SNAPSHOT"))).
  reflexivity.
Defined.

(** ** Where the value of a record is read *)

Lemma overview_first_page (pages : list page) (t : text) :
  BOKFinancialParser.find_account_overview_page (Some pages) = Some t <->
  exists l1 l2,
    pages = l1 ++ Some t :: l2 /\ overview_page (Some t)
    /\ forall u, In (Some u) l1 -> ~ overview_page (Some u).
Proof.
  assert (~ overview_page (Some [])) as N
      by (intros H; now apply overview_page_text in H).
  apply (proj1 (@first_page_meaning overview_test
                  (fun u => overview_page (Some u)) pages
                  overview_test_spec N)).
Qed.

Lemma extractors_need_text :
  WFAParser.extract_closing_value None = None
  /\ BOKFinancialParser.extract_total_value None = None.
Proof. split; reflexivity. Qed.

Lemma overview_no_page (pages : list page) :
  BOKFinancialParser.find_account_overview_page (Some pages) = None <->
  forall u, In (Some u) pages -> ~ overview_page (Some u).
Proof.
  assert (~ overview_page (Some [])) as N
      by (intros H; now apply overview_page_text in H).
  apply (proj2 (@first_page_meaning overview_test
                  (fun u => overview_page (Some u)) pages
                  overview_test_spec N)).
Qed.

Lemma process_value (f : pdf) (r : FieldExtractionResult) :
  CombinedStatementParser.process f = Ok r ->
  match Institution r with
  | WellsFargoAdvisors =>
      Closing_Value r
      = WFAParser.extract_closing_value
          (WFAParser.find_snapshot_page (contents f))
  | BOKFinancial =>
      Closing_Value r
      = BOKFinancialParser.extract_total_value
          (BOKFinancialParser.find_account_overview_page (contents f))
  end.
Proof.
  unfold CombinedStatementParser.process, CombinedStatementParser.parse,
    WFAParser.parse, BOKFinancialParser.parse.
  destruct (CombinedStatementParser.select_parser f).
  - destruct (WFAParser.extract_account_number_from_filename (name f));
      [|discriminate].
    cbn [bind]. intros H. now injection H as <-.
  - destruct (BOKFinancialParser.extract_account_number_from_filename (name f));
      [|discriminate].
    cbn [bind]. intros H. now injection H as <-.
Qed.

(** X10.  The value of a record of the combined script is read from
    one page only.  For a Wells Fargo statement it is what the value
    extractor gives on the text of the first page with the label "Page
    1 of N", be it a value or nothing; for a BOK Financial statement
    it is what the extractor of totals gives on the text of the first
    overview page.  When no page is of that kind, or the file cannot
    be read, the record has no value.  So a value that a record has
    is the value extracted from that page. *)
Theorem record_value_is_read_from_located_page
        (f : pdf) (r : FieldExtractionResult) :
  CombinedStatementParser.process f = Ok r ->
  (contents f = None -> Closing_Value r = None)
  /\ (forall pages : list page,
         contents f = Some pages ->
         match Institution r with
         | WellsFargoAdvisors =>
             (forall l1 t l2,
                 pages = l1 ++ Some t :: l2 -> page_1_of_N t ->
                 (forall u, In (Some u) l1 -> ~ page_1_of_N u) ->
                 Closing_Value r = WFAParser.extract_closing_value (Some t))
             /\ ((forall u, In (Some u) pages -> ~ page_1_of_N u) ->
                 Closing_Value r = None)
         | BOKFinancial =>
             (forall l1 t l2,
                 pages = l1 ++ Some t :: l2 -> overview_page (Some t) ->
                 (forall u, In (Some u) l1 -> ~ overview_page (Some u)) ->
                 Closing_Value r
                 = BOKFinancialParser.extract_total_value (Some t))
             /\ ((forall u, In (Some u) pages -> ~ overview_page (Some u)) ->
                 Closing_Value r = None)
         end)
  /\ forall v : Q,
      Closing_Value r = Some v ->
      exists pages l1 t l2,
        contents f = Some pages /\ pages = l1 ++ Some t :: l2
        /\ match Institution r with
           | WellsFargoAdvisors =>
               page_1_of_N t
               /\ (forall u, In (Some u) l1 -> ~ page_1_of_N u)
               /\ WFAParser.extract_closing_value (Some t) = Some v
           | BOKFinancial =>
               overview_page (Some t)
               /\ (forall u, In (Some u) l1 -> ~ overview_page (Some u))
               /\ BOKFinancialParser.extract_total_value (Some t) = Some v
           end.
Proof.
  intros P. pose proof (process_value f P) as V.
  assert (~ page_1_of_N []) as N1
      by (intros H; now apply page_1_of_N_text in H).
  destruct (Institution r); rewrite V; clear V.
  - split; [now intros ->|]. split.
    + intros pages ->. split.
      * intros l1 t l2 E L F.
        assert (WFAParser.find_snapshot_page (Some pages) = Some t) as ->;
          [|reflexivity].
        apply (proj1 (@first_page_meaning _ _ pages page_1_of_search N1)).
        now exists l1, l2.
      * intros F.
        assert (WFAParser.find_snapshot_page (Some pages) = None) as ->;
          [|reflexivity].
        now apply (proj2 (@first_page_meaning _ _ pages page_1_of_search N1)).
    + intros v V. destruct (contents f) as [pages|]; [|discriminate].
      destruct (WFAParser.find_snapshot_page (Some pages)) as [t|] eqn:L;
        [|discriminate].
      apply (proj1 (@first_page_meaning _ _ pages page_1_of_search N1)) in L.
      destruct L as [l1 [l2 [E [O L]]]].
      now exists pages, l1, t, l2.
  - split; [now intros ->|]. split.
    + intros pages ->. split.
      * intros l1 t l2 E L F.
        assert (BOKFinancialParser.find_account_overview_page (Some pages)
                = Some t) as ->; [|reflexivity].
        apply overview_first_page. now exists l1, l2.
      * intros F.
        assert (BOKFinancialParser.find_account_overview_page (Some pages)
                = None) as ->; [|reflexivity].
        now apply overview_no_page.
    + intros v V. destruct (contents f) as [pages|]; [|discriminate].
      destruct (BOKFinancialParser.find_account_overview_page (Some pages))
        as [t|] eqn:L; [|discriminate].
      apply overview_first_page in L. destruct L as [l1 [l2 [E [O L]]]].
      now exists pages, l1, t, l2.
Qed.

Lemma record_value_is_read_from_located_page_witness :
  let f := Pdf (txt "Trust - 1234-5678.pdf")
               (Some [Some (txt "Closingvalue$9.99");
                      Some (txt "Page 1 of 3 Closing value $12.50")]) in
  exists r,
    CombinedStatementParser.process f = Ok r
    /\ Closing_Value r
       = WFAParser.extract_closing_value
           (Some (txt "Page 1 of 3 Closing value $12.50"))
    /\ Closing_Value r <> None.
Proof.
  intros f.
  destruct (CombinedStatementParser.process f) as [r|] eqn:E;
    [|vm_compute in E; discriminate].
  exists r. split; [reflexivity|].
  pose proof (proj1 (proj2 (@record_value_is_read_from_located_page f r E))
                _ eq_refl) as H.
  pose proof E as E'. vm_compute in E'. injection E' as <-.
  cbn [Institution] in H. split; [|discriminate].
  apply (proj1 H [Some (txt "Closingvalue$9.99")]
           (txt "Page 1 of 3 Closing value $12.50") []).
  - reflexivity.
  - exists [], (txt " "), (txt " "), (txt " "), (txt "3"),
      (txt " Closing value $12.50").
    repeat split; try reflexivity. discriminate.
  - intros u [U | []]. injection U as <-. intros L.
    apply page_1_of_search in L. discriminate.
Defined.

(** ** The two page locators of the Wells Fargo script *)

Lemma Matches_Plus_Star (ic : bool) (k : cclass) (bef s aft : text)
      (c c' : option text) :
  Matches ic (Plus k) bef s aft c c' -> Matches ic (Star k) bef s aft c c'.
Proof.
  unfold Plus. intros M. inv_seq M M1 M2. inv_cls M1 K. inv_star M2 F.
  constructor. cbn [app forallb]. now rewrite K, F.
Qed.

Lemma Matches_Seq_mono (ic : bool) (a a' b b' : re) :
  (forall bef s aft c c',
      Matches ic a bef s aft c c' -> Matches ic a' bef s aft c c') ->
  (forall bef s aft c c',
      Matches ic b bef s aft c c' -> Matches ic b' bef s aft c c') ->
  forall bef s aft c c',
    Matches ic (Seq a b) bef s aft c c' ->
    Matches ic (Seq a' b') bef s aft c c'.
Proof.
  intros Ha Hb bef s aft c c' M. inv_seq M M1 M2.
  econstructor; [apply Ha | apply Hb]; eassumption.
Qed.

Lemma spaced_label_is_label (bef s aft : text) (c c' : option text) :
  Matches false BankStatementParser.page_1_of_spaced bef s aft c c' ->
  Matches false WFAParser.page_1_of bef s aft c c'.
Proof.
  unfold BankStatementParser.page_1_of_spaced, WFAParser.page_1_of.
  cbn [Cat]. revert bef s aft c c'.
  repeat (apply Matches_Seq_mono;
          [first [exact (@Matches_Plus_Star false ws) | auto]|]).
  auto.
Qed.

Lemma spaced_search (t : text) :
  is_some (re_search false BankStatementParser.page_1_of_spaced t) = true ->
  is_some (re_search false WFAParser.page_1_of t) = true.
Proof.
  rewrite !re_search_iff. intros [pre [s [aft [c [E M]]]]].
  exists pre, s, aft, c. split; [exact E | now apply spaced_label_is_label].
Qed.

Lemma pdfplumber_rule_in_pypdf2_rule (t : text) :
  BankStatementParser.pdfplumber_test t = true ->
  BankStatementParser.pypdf2_test t = true.
Proof.
  unfold BankStatementParser.pdfplumber_test, BankStatementParser.pypdf2_test.
  destruct (is_some (re_search false BankStatementParser.page_1_of_spaced t))
    eqn:S.
  - intros _. now rewrite (spaced_search _ S).
  - intros H. apply andb_true_iff in H. destruct H as [-> _].
    now destruct (is_some (re_search false WFAParser.page_1_of t)).
Qed.

Lemma first_page_text (test : text -> bool) (pages : list page) (t : text) :
  first_page test pages = Some t -> truthy (Some t) = true.
Proof.
  intros H. apply first_page_some in H.
  destruct H as [l1 [l2 [_ [N _]]]]. now destruct t.
Qed.

Lemma first_page_weaker (test test' : text -> bool) (pages : list page) :
  (forall t, test t = true -> test' t = true) ->
  first_page test' pages = None -> first_page test pages = None.
Proof.
  intros W. rewrite !first_page_none. intros H u I.
  destruct (H u I) as [E | E]; [now left | right].
  destruct (test u) eqn:T; [|reflexivity]. apply W in T. congruence.
Qed.

(** X11.  In the Wells Fargo script every page that the pdfplumber
    rule accepts is accepted by the PyPDF2 rule, so on the same page
    texts PyPDF2 finds a page whenever pdfplumber does.  The page text
    is the one pdfplumber finds if it is installed and finds one, and
    otherwise the one PyPDF2 finds if it is installed: the truth test
    on the first result never rejects a page that was found.  With
    PyPDF2 installed and the same texts from both libraries, no page is
    returned exactly when the PyPDF2 rule accepts none. *)
Theorem page_text_falls_back_to_weaker_rule :
  (forall t : text,
      BankStatementParser.pdfplumber_test t = true ->
      BankStatementParser.pypdf2_test t = true)
  /\ (forall doc : document,
         BankStatementParser.find_snapshot_page_pypdf2 doc = None ->
         BankStatementParser.find_snapshot_page_pdfplumber doc = None)
  /\ (forall (HAS_PDFPLUMBER HAS_PYPDF2 : bool) (plumber pypdf2 : document),
         BankStatementParser.extract_page_text
           HAS_PDFPLUMBER HAS_PYPDF2 plumber pypdf2
         = match (if HAS_PDFPLUMBER
                  then BankStatementParser.find_snapshot_page_pdfplumber
                         plumber
                  else None) with
           | Some t => Some t
           | None =>
               if HAS_PYPDF2
               then BankStatementParser.find_snapshot_page_pypdf2 pypdf2
               else None
           end)
  /\ (forall (HAS_PDFPLUMBER : bool) (doc : document),
         BankStatementParser.extract_page_text HAS_PDFPLUMBER true doc doc
         = None
         <-> BankStatementParser.find_snapshot_page_pypdf2 doc = None).
Proof.
  assert (forall doc : document,
             BankStatementParser.find_snapshot_page_pypdf2 doc = None ->
             BankStatementParser.find_snapshot_page_pdfplumber doc = None)
    as W.
  { intros [pages|]; [|reflexivity]. cbn.
    apply first_page_weaker. exact pdfplumber_rule_in_pypdf2_rule. }
  assert (forall (hp h2 : bool) (d1 d2 : document),
             BankStatementParser.extract_page_text hp h2 d1 d2
             = match (if hp
                      then BankStatementParser.find_snapshot_page_pdfplumber d1
                      else None) with
               | Some t => Some t
               | None =>
                   if h2
                   then BankStatementParser.find_snapshot_page_pypdf2 d2
                   else None
               end) as X.
  { intros hp h2 d1 d2. unfold BankStatementParser.extract_page_text.
    destruct hp; [|reflexivity].
    destruct (BankStatementParser.find_snapshot_page_pdfplumber d1)
      as [t|] eqn:P; [|now destruct h2].
    destruct d1 as [pages|]; [|discriminate]. cbn in P.
    now rewrite (first_page_text _ _ P). }
  split; [exact pdfplumber_rule_in_pypdf2_rule|].
  split; [exact W|]. split; [exact X|].
  intros hp doc. rewrite X. destruct hp.
  - destruct (BankStatementParser.find_snapshot_page_pdfplumber doc)
      as [t|] eqn:P; [|tauto].
    split; [discriminate|]. intros N. apply W in N. congruence.
  - tauto.
Qed.

Lemma page_text_falls_back_to_weaker_rule_witness :
  BankStatementParser.pypdf2_test (txt "Statement Page 1 of 4") = true.
Proof.
  apply (proj1 page_text_falls_back_to_weaker_rule
           (txt "Statement Page 1 of 4")).
  reflexivity.
Defined.

(** ** The value patterns: which match decides *)

Lemma captured_amount (ic : bool) (r : re) :
  captures_amount r ->
  forall bef s aft c c',
    Matches ic r bef s aft c c' ->
    exists g bef' aft' c0 c1,
      c' = Some g /\ Matches ic amount bef' g aft' c0 c1.
Proof.
  induction r as [| |a IHa b IHb| | |a IHa| | | |]; cbn [captures_amount];
    try contradiction.
  - intros C bef s aft c c' M. inv_seq M M1 M2. eapply IHb; eassumption.
  - intros -> bef s aft c c' M. apply Matches_Grp_iff in M.
    destruct M as [-> [c1 M]]. now exists s, bef, aft, c, c1.
Qed.

Lemma search_captured (r : re) (t : text) (m : mstate) :
  captures_amount r -> re_search true r t = Some m ->
  exists g bef aft c0 c1,
    group1 m = Some g /\ Matches true amount bef g aft c0 c1.
Proof.
  intros C H. apply search_from_sound in H.
  destruct H as [pre [s [aft [c [_ [M ->]]]]]].
  exact (@captured_amount true r C _ _ _ _ _ M).
Qed.

Lemma first_value_cons (valid : Q -> bool) (p : re) (ps : list re) (t : text) :
  first_value valid (p :: ps) t
  = match first_value valid [p] t with
    | Some v => Some v
    | None => first_value valid ps t
    end.
Proof.
  cbn [first_value]. destruct (re_search true p t) as [m|]; [|reflexivity].
  destruct (group1 m) as [g|]; [|reflexivity].
  destruct (py_float _) as [v|]; [|reflexivity].
  now destruct (valid v).
Qed.

Lemma first_value_one (valid : Q -> bool) (p : re) (t : text) :
  captures_amount p -> (forall v, (0 <= v)%Q -> valid v = true) ->
  (re_search true p t = None -> first_value valid [p] t = None)
  /\ forall m, re_search true p t = Some m ->
               exists g v, group1 m = Some g
                           /\ py_float (remove_all (txt ",") g) = Some v
                           /\ first_value valid [p] t = Some v.
Proof.
  intros C V. cbn [first_value]. split.
  - now intros ->.
  - intros m H. rewrite H.
    destruct (@search_captured p t m C H) as [g [bef [aft [c0 [c1 [G M]]]]]].
    apply amount_float in M. destruct M as [v [F P]].
    exists g, v. rewrite G, F, (V v P). auto.
Qed.

Lemma first_value_first_match (valid : Q -> bool) (ps : list re) (t : text) :
  (forall p, In p ps -> captures_amount p) ->
  (forall v, (0 <= v)%Q -> valid v = true) ->
  (first_value valid ps t = None
   <-> forall p, In p ps -> re_search true p t = None)
  /\ forall l1 p l2 m,
      ps = l1 ++ p :: l2 ->
      (forall q, In q l1 -> re_search true q t = None) ->
      re_search true p t = Some m ->
      exists g v, group1 m = Some g
                  /\ py_float (remove_all (txt ",") g) = Some v
                  /\ first_value valid ps t = Some v.
Proof.
  intros C V. induction ps as [|p0 ps IH].
  - split.
    + split; [intros _ p [] | reflexivity].
    + intros l1 p l2 m E. now destruct l1.
  - assert (forall p, In p ps -> captures_amount p) as C'
        by (intros p I; apply C; now right).
    destruct (IH C') as [IH1 IH2].
    destruct (@first_value_one valid p0 t (C p0 (or_introl eq_refl)) V)
      as [N S].
    rewrite first_value_cons. split.
    + destruct (re_search true p0 t) as [m|] eqn:E.
      * destruct (S m eq_refl) as [g [v [_ [_ ->]]]].
        split; [discriminate|]. intros H.
        specialize (H p0 (or_introl eq_refl)). congruence.
      * rewrite (N eq_refl), IH1. split.
        -- intros H p [<- | I]; [exact E | now apply H].
        -- intros H p I. apply H. now right.
    + intros l1 p l2 m E L H. destruct l1 as [|q l1]; cbn [app] in E.
      * injection E as -> ->. destruct (S m H) as [g [v [G [F ->]]]].
        now exists g, v.
      * injection E as -> ->.
        rewrite (N (L q (or_introl eq_refl))).
        apply (IH2 l1 p l2 m eq_refl); [|exact H].
        intros q' I. apply L. now right.
Qed.

(** ** The closing value of a Wells Fargo page, in words *)

Lemma Matches_Lit_nocase (l : text) :
  forall bef s aft c c',
    Matches true (Lit l) bef s aft c c' <-> lower s = lower l /\ c' = c.
Proof.
  induction l as [|x l IH]; intros bef s aft c c'; cbn [Lit].
  - split.
    + intros M. inversion M; subst. now split.
    + intros [E ->]. destruct s; [constructor | discriminate].
  - rewrite Matches_Seq_iff. split.
    + intros [s1 [s2 [c1 [-> [M1 M2]]]]].
      apply Matches_Cls_iff in M1. destruct M1 as [y [-> [K ->]]].
      apply IH in M2. destruct M2 as [E ->].
      cbn [in_class] in K. apply ascii_eqb_true in K.
      split; [|reflexivity]. unfold lower in *. cbn [app map].
      now rewrite E, K.
    + intros [E ->]. destruct s as [|y s]; [discriminate|].
      unfold lower in E. cbn [map] in E. injection E as K E.
      exists [y], s, c. split; [reflexivity|]. split.
      * constructor. cbn [in_class]. rewrite K. apply ascii_eqb_refl.
      * apply IH. now split.
Qed.

Lemma Matches_Star_ws (ic : bool) (bef s aft : text) (c c' : option text) :
  Matches ic (Star ws) bef s aft c c' <-> blank s /\ c' = c.
Proof.
  unfold blank. split.
  - intros M. inv_star M F. now split.
  - intros [F ->]. now constructor.
Qed.

Lemma digit_or_comma_class (ic : bool) (x : ascii) :
  in_class ic digit_or_comma x = is_digit x || ascii_eqb "," x.
Proof. destruct ic, x as [[] [] [] [] [] [] [] []]; reflexivity. Qed.

Lemma digits_or_commas_class (ic : bool) (s : text) :
  forallb (in_class ic digit_or_comma) s
  = forallb (fun x => is_digit x || ascii_eqb "," x) s.
Proof.
  induction s as [|x s IH]; [reflexivity|].
  cbn [forallb]. now rewrite IH, digit_or_comma_class.
Qed.

Lemma char_class_nocase (ic : bool) (x : ascii) :
  in_class ic (ch ".") x = ascii_eqb "." x
  /\ in_class ic (ch "$") x = ascii_eqb "$" x.
Proof. destruct ic, x as [[] [] [] [] [] [] [] []]; split; reflexivity. Qed.

Lemma Matches_dollar (ic : bool) (bef s aft : text) (c c' : option text) :
  Matches ic (Cls (ch "$")) bef s aft c c' <-> s = txt "$" /\ c' = c.
Proof.
  rewrite Matches_Cls_iff. split.
  - intros [x [-> [K ->]]].
    rewrite (proj2 (char_class_nocase ic x)) in K.
    apply ascii_eqb_true in K. now subst.
  - intros [-> ->]. exists "$"%char. repeat split.
    now rewrite (proj2 (char_class_nocase ic "$")).
Qed.

Lemma amount_denotes (ic : bool) (bef s aft : text) (c c' : option text) :
  Matches ic amount bef s aft c c' <-> money s /\ c' = c.
Proof.
  unfold amount, money. cbn [Cat]. unfold Plus. split.
  - intros M.
    inv_seq M M1 R1. inv_seq M1 A1 A2. inv_cls A1 K1. inv_star A2 F.
    inv_seq R1 M2 R2. inv_cls M2 K2.
    rewrite (proj1 (char_class_nocase ic _)) in K2.
    apply ascii_eqb_true in K2. subst.
    inv_seq R2 M3 M4. inv_cls M3 K3. inv_cls M4 K4.
    cbn [in_class d] in K3, K4.
    split; [|reflexivity]. eexists (_ :: _), _, _.
    split; [reflexivity|]. split; [discriminate|].
    split; [|now split].
    cbn [forallb]. rewrite <- digit_or_comma_class with (ic := ic), K1.
    cbn [andb]. now rewrite <- digits_or_commas_class with (ic := ic).
  - intros [[ds [x1 [x2 [-> [N [F [D1 D2]]]]]]] ->].
    destruct ds as [|x ds]; [contradiction|].
    cbn [forallb] in F. apply andb_true_iff in F. destruct F as [K F].
    change ((x :: ds) ++ ["."%char; x1; x2])
      with (([x] ++ ds) ++ ["."%char] ++ [x1] ++ [x2]).
    econstructor.
    + econstructor; constructor.
      * now rewrite digit_or_comma_class.
      * now rewrite digits_or_commas_class.
    + econstructor; [constructor|].
      * now rewrite (proj1 (char_class_nocase ic ".")).
      * econstructor; constructor; assumption.
Qed.

Lemma lower_app (a b : text) : lower (a ++ b) = lower a ++ lower b.
Proof. apply map_app. Qed.

Lemma lower_split (n : nat) (s : text) :
  lower (firstn n s) = firstn n (lower s)
  /\ lower (skipn n s) = skipn n (lower s).
Proof.
  unfold lower. split; symmetry; [apply firstn_map | apply skipn_map].
Qed.

Lemma spaced_pattern_sound (bef s aft : text) (c c' : option text) :
  Matches true
          (Cat [Lit (txt "Closing"); Star ws; Lit (txt "value"); Star ws;
                Cls (ch "$"); Star ws; Grp amount]) bef s aft c c'
  -> closing_value_piece s.
Proof.
  unfold closing_value_piece. cbn [Cat]. intros M.
  inv_seq M A1 R1. apply (Matches_Lit_nocase (txt "Closing")) in A1.
  destruct A1 as [L1 ->].
  inv_seq R1 A2 R2. apply Matches_Star_ws in A2. destruct A2 as [B0 ->].
  inv_seq R2 A3 R3. apply (Matches_Lit_nocase (txt "value")) in A3.
  destruct A3 as [L2 ->].
  inv_seq R3 A4 R4. apply Matches_Star_ws in A4. destruct A4 as [B1 ->].
  inv_seq R4 A5 R5. apply Matches_dollar in A5. destruct A5 as [-> ->].
  inv_seq R5 A6 R6. apply Matches_Star_ws in A6. destruct A6 as [B2 ->].
  apply Matches_Grp_iff in R6. destruct R6 as [-> [c1 R6]].
  apply amount_denotes in R6. destruct R6 as [Mo _].
  eexists _, _, _, _, _, _. split; [reflexivity|]. tauto.
Qed.

Lemma spaced_pattern_complete (bef s aft : text) (c : option text) :
  closing_value_piece s ->
  exists c',
    Matches true
            (Cat [Lit (txt "Closing"); Star ws; Lit (txt "value"); Star ws;
                  Cls (ch "$"); Star ws; Grp amount]) bef s aft c c'.
Proof.
  unfold closing_value_piece. cbn [Cat].
  intros [l1 [w0 [l2 [w1 [w2 [amt [-> [L1 [L2 [B0 [B1 [B2 Mo]]]]]]]]]]]].
  exists (Some amt).
  econstructor; [apply (Matches_Lit_nocase (txt "Closing")); now split|].
  econstructor; [apply Matches_Star_ws; now split|].
  econstructor; [apply (Matches_Lit_nocase (txt "value")); now split|].
  econstructor; [apply Matches_Star_ws; now split|].
  econstructor; [apply Matches_dollar; now split|].
  econstructor; [apply Matches_Star_ws; now split|].
  apply Matches_Grp_iff. split; [reflexivity|].
  exists c. apply amount_denotes. now split.
Qed.

Lemma joined_label (l : text) :
  lower l = txt "closingvalue" ->
  exists l1 l2,
    l = l1 ++ l2 /\ lower l1 = txt "closing" /\ lower l2 = txt "value".
Proof.
  intros H. exists (firstn 7 l), (skipn 7 l).
  split; [symmetry; apply firstn_skipn|].
  rewrite (proj1 (lower_split 7 l)), (proj2 (lower_split 7 l)), H.
  split; reflexivity.
Qed.

Lemma joined_pattern_denotes (bef s aft : text) (c c' : option text) :
  Matches true
          (Cat [Lit (txt "Closingvalue"); Star ws; Cls (ch "$"); Star ws;
                Grp amount]) bef s aft c c'
  -> closing_value_piece s.
Proof.
  unfold closing_value_piece. cbn [Cat]. intros M.
  inv_seq M A1 R1. apply (Matches_Lit_nocase (txt "Closingvalue")) in A1.
  destruct A1 as [L1 ->].
  inv_seq R1 A4 R4. apply Matches_Star_ws in A4. destruct A4 as [B1 ->].
  inv_seq R4 A5 R5. apply Matches_dollar in A5. destruct A5 as [-> ->].
  inv_seq R5 A6 R6. apply Matches_Star_ws in A6. destruct A6 as [B2 ->].
  apply Matches_Grp_iff in R6. destruct R6 as [-> [c1 R6]].
  apply amount_denotes in R6. destruct R6 as [Mo _].
  apply joined_label in L1. destruct L1 as [l1 [l2 [-> [L1 L2]]]].
  match goal with
  | |- exists a0 b0 c0 d0 e0 f0,
        (_ ++ _) ++ ?w1 ++ _ ++ ?w2 ++ ?amt = _ /\ _ =>
      exists l1, [], l2, w1, w2, amt
  end.
  split; [now rewrite <- app_assoc|].
  repeat split; assumption.
Qed.

Lemma wfa_patterns_capture (p : re) :
  In p WFAParser.patterns -> captures_amount p.
Proof. intros [<- | [<- | []]]; reflexivity. Qed.

(** X12.  The closing value of a Wells Fargo page is decided by the
    first of the two patterns that matches the text, at its leftmost
    match: the captured amount always converts and always passes the
    check [value >= 0], so no later pattern and no later match is
    consulted, and a value is missing only when no pattern matches.  In
    words: a value is found exactly when the text has, in any mix of
    cases, "closing", "value" and a dollar sign followed by an amount
    (digits and commas, a point, two digits), with nothing but optional
    white space between them. *)
Theorem wfa_value_is_first_match (t : text) :
  (WFAParser.extract_closing_value (Some t) = None
   <-> forall p, In p WFAParser.patterns -> re_search true p t = None)
  /\ (forall l1 p l2 m,
         WFAParser.patterns = l1 ++ p :: l2 ->
         (forall q, In q l1 -> re_search true q t = None) ->
         re_search true p t = Some m ->
         exists g v,
           group1 m = Some g
           /\ py_float (remove_all (txt ",") g) = Some v
           /\ WFAParser.extract_closing_value (Some t) = Some v)
  /\ ((exists v, WFAParser.extract_closing_value (Some t) = Some v)
      <-> has_piece closing_value_piece t).
Proof.
  assert (forall v, (0 <= v)%Q -> (fun value => Qleb 0 value) v = true) as V
      by (intros v; apply Qleb_true).
  destruct (@first_value_first_match _ WFAParser.patterns t
              wfa_patterns_capture V) as [N S].
  assert (WFAParser.extract_closing_value (Some t)
          = first_value (fun value => Qleb 0 value) WFAParser.patterns t) as E
      by now destruct t.
  rewrite E. split; [exact N|]. split; [exact S|]. split.
  - intros [v H].
    assert (exists p, In p WFAParser.patterns
                      /\ is_some (re_search true p t) = true) as [p [I Sp]].
    { destruct (re_search true (nth 0 WFAParser.patterns Eps) t) eqn:E1.
      - eexists. split; [left; reflexivity|].
        cbn [nth WFAParser.patterns] in E1. now rewrite E1.
      - destruct (re_search true (nth 1 WFAParser.patterns Eps) t) eqn:E2.
        + eexists. split; [right; left; reflexivity|].
          cbn [nth WFAParser.patterns] in E2. now rewrite E2.
        + exfalso. assert (first_value (fun value => Qleb 0 value)
                             WFAParser.patterns t = None) as Z.
          { apply N. intros p [<- | [<- | []]]; assumption. }
          congruence. }
    apply re_search_iff in Sp. destruct Sp as [pre [s [aft [c [-> M]]]]].
    exists pre, s, aft. split; [reflexivity|].
    destruct I as [<- | [<- | []]].
    + now apply joined_pattern_denotes in M.
    + now apply spaced_pattern_sound in M.
  - intros [pre [s [post [-> P]]]].
    assert (is_some (re_search true (nth 1 WFAParser.patterns Eps)
                       (pre ++ s ++ post)) = true) as T.
    { apply re_search_iff.
      destruct (@spaced_pattern_complete (rev pre) s post None P) as [c' M].
      now exists pre, s, post, c'. }
    destruct (first_value (fun value => Qleb 0 value) WFAParser.patterns
                (pre ++ s ++ post)) as [v|]; [now exists v|].
    exfalso. rewrite (proj1 N eq_refl) in T; [discriminate|]. right. now left.
Qed.

Lemma wfa_value_is_first_match_witness :
  exists v,
    WFAParser.extract_closing_value
      (Some (txt "SNAPSHOT CLOSING Value $ 1,234.50 total")) = Some v.
Proof.
  apply (proj2 (proj2 (proj2 (wfa_value_is_first_match
                                (txt "SNAPSHOT CLOSING Value $ 1,234.50 total"))))).
  exists (txt "SNAPSHOT "), (txt "CLOSING Value $ 1,234.50"), (txt " total").
  split; [reflexivity|].
  exists (txt "CLOSING"), (txt " "), (txt "Value"), (txt " "), (txt " "),
    (txt "1,234.50").
  repeat split; try reflexivity.
  exists (txt "1,234"), "5"%char, "0"%char.
  repeat split; try reflexivity. discriminate.
Defined.

(** ** The loop over all matches in the Wells Fargo script *)

Lemma remove_char_filter (x : ascii) (s : text) :
  remove_all [x] s = filter (fun y => negb (ascii_eqb x y)) s.
Proof.
  unfold remove_all. induction s as [|y s IH]; [reflexivity|].
  cbn [remove_from filter starts_with List.length Nat.sub].
  rewrite andb_true_r. destruct (ascii_eqb x y); cbn [negb];
    [exact IH | now f_equal].
Qed.

Lemma filter_all (X : Type) (f : X -> bool) (l : list X) :
  forallb f l = true -> filter f l = l.
Proof.
  induction l as [|x l IH]; [reflexivity|]. cbn [forallb filter].
  intros H. apply andb_true_iff in H. destruct H as [-> H].
  now rewrite IH.
Qed.

Lemma forallb_filter (X : Type) (f g : X -> bool) (l : list X) :
  forallb f l = true -> forallb f (filter g l) = true.
Proof.
  induction l as [|x l IH]; [reflexivity|]. cbn [forallb filter].
  intros H. apply andb_true_iff in H. destruct H as [Hx H].
  destruct (g x); cbn [forallb]; [rewrite Hx|]; now apply IH.
Qed.

Lemma amount_char_not_space (x : ascii) :
  is_digit x || ascii_eqb "," x || ascii_eqb "." x = true ->
  negb (ascii_eqb " " x) = true.
Proof.
  destruct x as [[] [] [] [] [] [] [] []]; vm_compute; intros H;
    try discriminate; reflexivity.
Qed.

Lemma money_no_space (g : text) :
  money g -> forallb (fun y => negb (ascii_eqb " " y)) g = true.
Proof.
  intros [ds [x1 [x2 [-> [_ [F [D1 D2]]]]]]].
  rewrite forallb_app. apply andb_true_iff. split.
  - clear - F. induction ds as [|x ds IH]; [reflexivity|].
    cbn [forallb] in *. apply andb_true_iff in F. destruct F as [K F].
    rewrite (IH F), andb_true_r. apply amount_char_not_space.
    now rewrite K.
  - cbn [forallb]. rewrite !amount_char_not_space; try reflexivity.
    + now rewrite D2.
    + now rewrite D1.
Qed.

Lemma money_spaces_removed (g : text) :
  money g ->
  remove_all (txt " ") (remove_all (txt ",") g) = remove_all (txt ",") g.
Proof.
  intros Mo. change (txt " ") with [" "%char]. change (txt ",") with [","%char].
  rewrite !remove_char_filter. apply filter_all, forallb_filter.
  now apply money_no_space.
Qed.

Lemma finditer_first (ic : bool) (r : re) (t : text) :
  match re_search ic r t with
  | Some m => exists rest, Final.finditer ic r t = m :: rest
  | None => Final.finditer ic r t = []
  end.
Proof.
  unfold Final.finditer, re_search. cbn [Final.finditer_from].
  destruct (search_from ic r [] t) as [m|]; [|reflexivity]. eauto.
Qed.

Lemma first_good_of_pattern (p : re) (t : text) :
  captures_amount p ->
  Final.first_good (Final.finditer true p t)
  = first_value (fun value => Qleb 0 value) [p] t.
Proof.
  intros C. pose proof (finditer_first true p t) as H.
  cbn [first_value].
  destruct (re_search true p t) as [m|] eqn:E.
  - destruct H as [rest ->]. cbn [Final.first_good].
    destruct (@search_captured p t m C E) as [g [bef [aft [c0 [c1 [G M]]]]]].
    rewrite G. pose proof M as Mo. apply amount_denotes in Mo.
    destruct Mo as [Mo _]. rewrite (money_spaces_removed Mo).
    apply amount_float in M. destruct M as [v [F P]]. rewrite F.
    apply Qleb_true in P. now rewrite P.
  - now rewrite H.
Qed.

Lemma try_patterns_first_value (ps : list re) (t : text) :
  (forall p, In p ps -> captures_amount p) ->
  Final.try_patterns ps t = first_value (fun value => Qleb 0 value) ps t.
Proof.
  induction ps as [|p ps IH]; intros C; [reflexivity|].
  rewrite first_value_cons. cbn [Final.try_patterns].
  rewrite (@first_good_of_pattern p t (C p (or_introl eq_refl))).
  destruct (first_value _ [p] t); [reflexivity|].
  apply IH. intros q I. apply C. now right.
Qed.

Lemma final_patterns_capture (p : re) :
  In p Final.patterns -> captures_amount p.
Proof.
  intros I. repeat (destruct I as [<- | I]; [reflexivity|]). destruct I.
Qed.

(** Two patterns that differ only in the case of their letters run the
    same way under IGNORECASE. *)
Lemma search_from_same (ic : bool) (r r' : re) :
  (forall st k, rmatch (A := mstate) ic r st k = rmatch ic r' st k) ->
  forall rst bef, search_from ic r bef rst = search_from ic r' bef rst.
Proof.
  intros H. induction rst as [|x rst IH]; intros bef; cbn [search_from];
    rewrite H; [reflexivity|]. now rewrite IH.
Qed.

Lemma finditer_same (ic : bool) (r r' : re) (t : text) :
  (forall st k, rmatch (A := mstate) ic r st k = rmatch ic r' st k) ->
  Final.finditer ic r t = Final.finditer ic r' t.
Proof.
  intros H. unfold Final.finditer.
  generalize (S (List.length t)) as fuel, (@nil ascii) as bef.
  intros fuel. revert t. induction fuel as [|fuel IH]; intros t bef;
    [reflexivity|].
  cbn [Final.finditer_from]. rewrite (@search_from_same ic r r' H).
  destruct (search_from ic r' bef t); [|reflexivity]. now rewrite IH.
Qed.

Lemma try_patterns_repeated (p q : re) (l1 l2 : list re) (t : text) :
  Final.finditer true q t = Final.finditer true p t ->
  Final.try_patterns (p :: l1 ++ q :: l2) t
  = Final.try_patterns (p :: l1 ++ l2) t.
Proof.
  intros E. cbn [Final.try_patterns].
  destruct (Final.first_good (Final.finditer true p t)) eqn:G;
    [reflexivity|].
  induction l1 as [|x l1 IH]; cbn [app Final.try_patterns].
  - now rewrite E, G.
  - now rewrite IH.
Qed.

Lemma uppercase_patterns_same (t : text) :
  Final.finditer true (nth 4 Final.patterns Eps) t
  = Final.finditer true (nth 0 Final.patterns Eps) t
  /\ Final.finditer true (nth 5 Final.patterns Eps) t
     = Final.finditer true (nth 0 Final.patterns Eps) t.
Proof.
  split; apply finditer_same; intros st k; reflexivity.
Qed.

(** X13.  The loop of the Wells Fargo script over every match of every
    pattern never goes past the first match: the capture of the
    leftmost match of a pattern always converts, has no space to
    remove and is not negative, so the script returns what one search
    per pattern returns.  Under IGNORECASE the fifth and the sixth
    pattern match exactly what the first matches, so they are only
    tried after the first has failed and never give a value: the result
    is that of the other five patterns. *)
Theorem final_loop_is_one_search_per_pattern (t : option text) :
  Final.extract_closing_value t
  = match t with
    | Some (c :: s) =>
        first_value (fun value => Qleb 0 value) Final.patterns (c :: s)
    | _ => None
    end
  /\ Final.extract_closing_value t
     = match t with
       | Some (c :: s) =>
           Final.try_patterns
             (firstn 4 Final.patterns ++ skipn 6 Final.patterns) (c :: s)
       | _ => None
       end.
Proof.
  destruct t as [[|c s]|]; try (split; reflexivity).
  unfold Final.extract_closing_value. split.
  - apply try_patterns_first_value, final_patterns_capture.
  - destruct (uppercase_patterns_same (c :: s)) as [E5 E6].
    etransitivity;
      [exact (@try_patterns_repeated _ _
                [nth 1 Final.patterns Eps; nth 2 Final.patterns Eps;
                 nth 3 Final.patterns Eps]
                [nth 5 Final.patterns Eps; nth 6 Final.patterns Eps]
                (c :: s) E5)|].
    exact (@try_patterns_repeated _ _
             [nth 1 Final.patterns Eps; nth 2 Final.patterns Eps;
              nth 3 Final.patterns Eps]
             [nth 6 Final.patterns Eps] (c :: s) E6).
Qed.

(** ** The collapsed label, wherever it stands on the page *)

Lemma Matches_Plus_ws (ic : bool) (bef s aft : text) (c c' : option text) :
  Matches ic (Plus ws) bef s aft c c' <-> blank s /\ s <> [] /\ c' = c.
Proof.
  unfold Plus, blank. rewrite Matches_Seq_iff. split.
  - intros [s1 [s2 [c1 [-> [M1 M2]]]]]. inv_cls M1 K. inv_star M2 F.
    change (in_class ic ws) with is_space in *.
    repeat split; [cbn [app forallb]; now rewrite K, F | discriminate].
  - intros [F [N ->]]. destruct s as [|x s]; [contradiction|].
    cbn [forallb] in F. apply andb_true_iff in F. destruct F as [K F].
    exists [x], s, c. repeat split; now constructor.
Qed.

Lemma joined_pattern_sound (bef s aft : text) (c c' : option text) :
  Matches true
          (Cat [Lit (txt "Closingvalue"); Star ws; Cls (ch "$"); Star ws;
                Grp amount]) bef s aft c c'
  -> joined_piece s.
Proof.
  unfold joined_piece. cbn [Cat]. intros M.
  inv_seq M A1 R1. apply (Matches_Lit_nocase (txt "Closingvalue")) in A1.
  destruct A1 as [L1 ->].
  inv_seq R1 A4 R4. apply Matches_Star_ws in A4. destruct A4 as [B1 ->].
  inv_seq R4 A5 R5. apply Matches_dollar in A5. destruct A5 as [-> ->].
  inv_seq R5 A6 R6. apply Matches_Star_ws in A6. destruct A6 as [B2 ->].
  apply Matches_Grp_iff in R6. destruct R6 as [-> [c1 R6]].
  apply amount_denotes in R6. destruct R6 as [Mo _].
  match goal with
  | |- exists l0 w1 w2 amt0, ?l ++ ?v1 ++ _ ++ ?v2 ++ ?a = _ /\ _ =>
      exists l, v1, v2, a
  end.
  split; [reflexivity|]. repeat split; assumption.
Qed.

Lemma joined_pattern_complete (bef s aft : text) (c : option text) :
  joined_piece s ->
  exists c',
    Matches true
            (Cat [Lit (txt "Closingvalue"); Star ws; Cls (ch "$"); Star ws;
                  Grp amount]) bef s aft c c'.
Proof.
  unfold joined_piece. cbn [Cat].
  intros [l [w1 [w2 [amt [-> [L [B1 [B2 Mo]]]]]]]].
  exists (Some amt).
  econstructor; [apply (Matches_Lit_nocase (txt "Closingvalue")); now split|].
  econstructor; [apply Matches_Star_ws; now split|].
  econstructor; [apply Matches_dollar; now split|].
  econstructor; [apply Matches_Star_ws; now split|].
  apply Matches_Grp_iff. split; [reflexivity|].
  exists c. apply amount_denotes. now split.
Qed.

Lemma spaced_first_sound (bef s aft : text) (c c' : option text) :
  Matches true
          (Cat [Lit (txt "Closing"); Plus ws; Lit (txt "value"); Plus ws;
                Final.dollar; Star ws; Grp amount]) bef s aft c c'
  -> spaced_piece s.
Proof.
  unfold spaced_piece, Final.dollar. cbn [Cat]. intros M.
  inv_seq M A1 R1. apply (Matches_Lit_nocase (txt "Closing")) in A1.
  destruct A1 as [L1 ->].
  inv_seq R1 A2 R2. apply Matches_Plus_ws in A2. destruct A2 as [B0 [N0 ->]].
  inv_seq R2 A3 R3. apply (Matches_Lit_nocase (txt "value")) in A3.
  destruct A3 as [L2 ->].
  inv_seq R3 A4 R4. apply Matches_Plus_ws in A4. destruct A4 as [B1 [_ ->]].
  inv_seq R4 A5 R5. apply Matches_dollar in A5. destruct A5 as [-> ->].
  inv_seq R5 A6 R6. apply Matches_Star_ws in A6. destruct A6 as [B2 ->].
  apply Matches_Grp_iff in R6. destruct R6 as [-> [c1 R6]].
  apply amount_denotes in R6. destruct R6 as [Mo _].
  match goal with
  | |- exists a1 b0 a2 b1 b2 amt0,
        ?l1 ++ ?v0 ++ ?l2 ++ ?v1 ++ _ ++ ?v2 ++ ?a = _ /\ _ =>
      exists l1, v0, l2, v1, v2, a
  end.
  split; [reflexivity|]. repeat split; assumption.
Qed.

Lemma spaced_second_sound (bef s aft : text) (c c' : option text) :
  Matches true
          (Cat [Lit (txt "Closing"); Plus ws; Lit (txt "value");
                Final.dollar; Star ws; Grp amount]) bef s aft c c'
  -> spaced_piece s.
Proof.
  unfold spaced_piece, Final.dollar. cbn [Cat]. intros M.
  inv_seq M A1 R1. apply (Matches_Lit_nocase (txt "Closing")) in A1.
  destruct A1 as [L1 ->].
  inv_seq R1 A2 R2. apply Matches_Plus_ws in A2. destruct A2 as [B0 [N0 ->]].
  inv_seq R2 A3 R3. apply (Matches_Lit_nocase (txt "value")) in A3.
  destruct A3 as [L2 ->].
  inv_seq R3 A5 R5. apply Matches_dollar in A5. destruct A5 as [-> ->].
  inv_seq R5 A6 R6. apply Matches_Star_ws in A6. destruct A6 as [B2 ->].
  apply Matches_Grp_iff in R6. destruct R6 as [-> [c1 R6]].
  apply amount_denotes in R6. destruct R6 as [Mo _].
  match goal with
  | |- exists a1 b0 a2 b1 b2 amt0,
        ?l1 ++ ?v0 ++ ?l2 ++ _ ++ ?v2 ++ ?a = _ /\ _ =>
      exists l1, v0, l2, [], v2, a
  end.
  split; [reflexivity|]. repeat split; assumption.
Qed.

(** A search finds nothing where no piece is of the kind the pattern
    matches. *)
Lemma search_none (ic : bool) (r : re) (P : text -> Prop) (t : text) :
  (forall bef s aft c c', Matches ic r bef s aft c c' -> P s) ->
  ~ has_piece P t -> re_search ic r t = None.
Proof.
  intros S N. destruct (re_search ic r t) as [m|] eqn:E; [|reflexivity].
  exfalso. apply N. apply search_from_sound in E.
  destruct E as [pre [s [aft [c [-> [M _]]]]]].
  exists pre, s, aft. split; [reflexivity|]. now apply S in M.
Qed.

Lemma search_skip (ic : bool) (r : re) (pre rest : text) :
  forall bef,
    match_starts_in ic r bef pre rest = false ->
    search_from ic r bef (pre ++ rest)
    = search_from ic r (rev pre ++ bef) rest.
Proof.
  induction pre as [|x pre IH]; intros bef H; [reflexivity|].
  cbn [match_starts_in] in H.
  change ((x :: pre) ++ rest) with (x :: pre ++ rest) in *.
  cbn [search_from].
  destruct (rmatch ic r (MState bef (x :: pre ++ rest) None)
                   (fun st => Some st)); [discriminate|].
  cbn [is_some] in H. rewrite (IH _ H). cbn [rev].
  now rewrite <- app_assoc.
Qed.

Lemma match_starts_in_spec (ic : bool) (r : re) (P : text -> Prop) :
  (forall bef s aft c c', Matches ic r bef s aft c c' -> P s) ->
  (forall bef s aft, P s -> exists c', Matches ic r bef s aft None c') ->
  forall pre rest bef,
    match_starts_in ic r bef pre rest = false
    <-> ~ starts_before P (List.length pre) (pre ++ rest).
Proof.
  intros Sound Complete. induction pre as [|x pre IH]; intros rest bef.
  - split; [|reflexivity]. intros _ [a [s [b [_ [L _]]]]].
    cbn [List.length] in L. lia.
  - cbn [match_starts_in].
    change ((x :: pre) ++ rest) with (x :: pre ++ rest).
    destruct (rmatch ic r (MState bef (x :: pre ++ rest) None)
                     (fun st => Some st)) as [st|] eqn:E; cbn [is_some].
    + split; [discriminate|]. intros N. exfalso. apply N.
      apply rmatch_sound in E. destruct E as [s [aft [c' [E [M _]]]]].
      cbn [ahead before group1] in E, M.
      exists [], s, aft. cbn [app List.length].
      split; [exact E|]. split; [lia|]. now apply Sound in M.
    + rewrite IH. split; intros N [a [s [b [T [L Ps]]]]]; apply N.
      * destruct a as [|y a]; cbn [app] in T.
        -- exfalso. destruct (Complete bef s b Ps) as [c' M].
           assert (rmatch ic r (MState bef (s ++ b) None)
                          (fun st => Some st) <> None) as Z
               by (eapply rmatch_complete; [exact M | discriminate]).
           rewrite <- T in Z. contradiction.
        -- injection T as <- T. cbn [List.length] in L.
           exists a, s, b. split; [exact T|]. split; [lia | exact Ps].
      * exists (x :: a), s, b. cbn [app List.length].
        split; [now rewrite T|]. split; [lia | exact Ps].
Qed.

Lemma label_found (pre post : text) :
  ~ starts_before joined_piece (List.length pre)
      (pre ++ collapsed_label ++ post) ->
  exists st,
    re_search true (hd Eps WFAParser.patterns)
              (pre ++ collapsed_label ++ post) = Some st
    /\ group1 st = Some (txt "45,156.04").
Proof.
  intros N.
  apply (proj2 (@match_starts_in_spec true (hd Eps WFAParser.patterns)
                  joined_piece joined_pattern_sound
                  (fun bef s aft => @joined_pattern_complete bef s aft None)
                  pre (collapsed_label ++ post) [])) in N.
  unfold re_search. rewrite (search_skip _ _ _ _ _ N).
  destruct (wfa_hit (rev pre ++ []) post) as [st [H1 H2]].
  exists st. split; [now apply search_hit | exact H2].
Qed.

Lemma label_matches (pre post : text) :
  re_search true (hd Eps WFAParser.patterns)
            (pre ++ collapsed_label ++ post) <> None.
Proof.
  destruct (wfa_hit (rev pre) post) as [st [H _]].
  apply rmatch_sound in H. destruct H as [s [aft [c' [E [M _]]]]].
  cbn [ahead before group1] in E, M.
  assert (is_some (re_search true (hd Eps WFAParser.patterns)
                             (pre ++ collapsed_label ++ post)) = true) as T.
  { apply re_search_iff. exists pre, s, aft, c'. now rewrite E. }
  intros Z. rewrite Z in T. discriminate.
Qed.

(** C8, where the claim fails: a page that contains the label need not
    give its amount.  In the combined script an earlier collapsed
    label decides; in the single-institution script a spaced label
    decides wherever it stands, its patterns being tried first. *)
Lemma earlier_label_decides :
  WFAParser.extract_closing_value
    (Some (txt "Closingvalue$1.00 " ++ collapsed_label))
  = Some (100 # 100)%Q
  /\ ~ (100 # 100 == 45156.04)%Q
  /\ Final.extract_closing_value
       (Some (collapsed_label ++ txt " Closing value $9.99"))
     = Some (999 # 100)%Q
  /\ ~ (999 # 100 == 45156.04)%Q.
Proof.
  split; [reflexivity|]. split; [intros H; discriminate H|].
  split; [reflexivity | intros H; discriminate H].
Qed.

(** C8, as the code has it.  On a page where the label is rendered
    without spaces and the figure is printed twice,
    "Closingvalue$45,156.04$45,156.04", a Wells Fargo extractor always
    finds a value, whatever precedes and follows the label.  The
    extractor of the combined script returns 45156.04, the first
    numeral without its thousands separator and not a number made of
    both figures, when no collapsed label with an amount starts before
    this one on the page.  The extractor of the single-institution
    script returns 45156.04 under the same condition when, moreover,
    the page has no spaced label with an amount.  On the label alone
    both return 45156.04. *)
Theorem collapsed_label_value :
  (forall pre post : text,
      ~ starts_before joined_piece (List.length pre)
          (pre ++ collapsed_label ++ post) ->
      WFAParser.extract_closing_value (Some (pre ++ collapsed_label ++ post))
      = Some (4515604 # 100)%Q)
  /\ (forall pre post : text,
         ~ starts_before joined_piece (List.length pre)
             (pre ++ collapsed_label ++ post) ->
         ~ has_piece spaced_piece (pre ++ collapsed_label ++ post) ->
         Final.extract_closing_value
           (Some (pre ++ collapsed_label ++ post))
         = Some (4515604 # 100)%Q)
  /\ (forall pre post : text,
         WFAParser.extract_closing_value
           (Some (pre ++ collapsed_label ++ post)) <> None
         /\ Final.extract_closing_value
              (Some (pre ++ collapsed_label ++ post)) <> None)
  /\ WFAParser.extract_closing_value (Some collapsed_label)
     = Some (4515604 # 100)%Q
  /\ Final.extract_closing_value (Some collapsed_label)
     = Some (4515604 # 100)%Q
  /\ (4515604 # 100 == 45156.04)%Q.
Proof.
  assert (forall v, (0 <= v)%Q -> (fun value => Qleb 0 value) v = true) as V
      by (intros v; apply Qleb_true).
  assert (forall pre post,
             WFAParser.extract_closing_value
               (Some (pre ++ collapsed_label ++ post))
             = first_value (fun value => Qleb 0 value) WFAParser.patterns
                           (pre ++ collapsed_label ++ post)) as EW
      by (intros pre post; now destruct pre).
  assert (forall pre post,
             Final.extract_closing_value
               (Some (pre ++ collapsed_label ++ post))
             = first_value (fun value => Qleb 0 value) Final.patterns
                           (pre ++ collapsed_label ++ post)) as EF.
  { intros pre post.
    rewrite <- (@try_patterns_first_value Final.patterns _
                  final_patterns_capture).
    now destruct pre. }
  split; [|split; [|split; [|repeat split; reflexivity]]].
  - intros pre post N. rewrite EW.
    destruct (label_found pre post N) as [st [H G]].
    destruct (proj2 (@first_value_first_match _ WFAParser.patterns
                       (pre ++ collapsed_label ++ post)
                       wfa_patterns_capture V)
                [] (hd Eps WFAParser.patterns) (tl WFAParser.patterns) st
                eq_refl (fun q (I : In q []) => match I with end) H)
      as [g [v [G' [F ->]]]].
    rewrite G in G'. injection G' as <-.
    vm_compute in F. now injection F as <-.
  - intros pre post N NS. rewrite EF.
    destruct (label_found pre post N) as [st [H G]].
    assert (forall q, In q (firstn 2 Final.patterns) ->
                      re_search true q (pre ++ collapsed_label ++ post)
                      = None) as Z.
    { intros q [<- | [<- | []]].
      - exact (@search_none true _ spaced_piece _ spaced_first_sound NS).
      - exact (@search_none true _ spaced_piece _ spaced_second_sound NS). }
    destruct (proj2 (@first_value_first_match _ Final.patterns
                       (pre ++ collapsed_label ++ post)
                       final_patterns_capture V)
                (firstn 2 Final.patterns) (nth 2 Final.patterns Eps)
                (skipn 3 Final.patterns) st eq_refl Z H)
      as [g [v [G' [F ->]]]].
    rewrite G in G'. injection G' as <-.
    vm_compute in F. now injection F as <-.
  - intros pre post. pose proof (label_matches pre post) as M. split.
    + rewrite EW. intros Z.
      pose proof (proj1 (proj1 (@first_value_first_match _
                                  WFAParser.patterns _
                                  wfa_patterns_capture V)) Z) as Z'.
      apply M, Z'. now left.
    + rewrite EF. intros Z.
      pose proof (proj1 (proj1 (@first_value_first_match _
                                  Final.patterns _
                                  final_patterns_capture V)) Z) as Z'.
      apply M. apply (Z' (nth 2 Final.patterns Eps)).
      right. right. now left.
Qed.

Lemma collapsed_label_value_witness :
  WFAParser.extract_closing_value
    (Some (txt "Account " ++ collapsed_label ++ txt " Cash"))
  = Some (4515604 # 100)%Q.
Proof.
  apply (proj1 collapsed_label_value).
  apply (proj1 (@match_starts_in_spec true (hd Eps WFAParser.patterns)
                  joined_piece joined_pattern_sound
                  (fun bef s aft => @joined_pattern_complete bef s aft None)
                  (txt "Account ") (collapsed_label ++ txt " Cash") [])).
  reflexivity.
Defined.
